(** * Learn Mode: the adaptive scheduler of the flashcard application

    A shallow embedding of [src/pages/LearnMode.tsx] and the properties of
    its scheduler: confidence update, next-card selection, aggregate
    confidence, shuffle, hint derivation, typed-answer judgement and session
    initialisation.

    The React component is modelled by explicit state passing:

    - card objects live in a store ([Heap]) and the [flashcards] array holds
      references into it, because [updateConfidence] copies the array but
      mutates the card object it shares with every other copy;
    - an event handler is a function of the render it was created in (the
      captured [State]), of the environment readings it consumes
      ([Date.now()], [Math.random()], the answers of the database) and of
      the [World] it runs in; a handler that throws returns [None];
    - JavaScript strings are sequences of UTF-16 code units;
    - numbers are integers: confidences and times are in [Z], positions in
      [nat], the undefined result of an index computation is [NaN].

    The module [TestMode] embeds [src/pages/TestMode.tsx] in the same way. *)

From Corelib Require Import PrimInt63 PrimFloat.
From Stdlib Require Import ZArith NArith String Ascii Sorted Permutation Uint63.
From Stdlib Require Import FloatOps QArith.
From Corelib Require Import SpecFloat.
From stdpp Require Import base tactics option list numbers strings sorting.

Local Open Scope Z_scope.

(** ** JavaScript strings *)

Module JsString.

(** A string is its sequence of UTF-16 code units. *)
Abbreviation jsstring := (list N) (only parsing).

(** A literal of the source, written in ASCII. *)
Definition js (s : string) : jsstring := N_of_ascii <$> list_ascii_of_string s.

(** ECMAScript [WhiteSpace] and [LineTerminator] code points, the ones
    [String.prototype.trim] strips. *)
Definition isWhiteSpace (c : N) : bool :=
  ((9 <=? c) && (c <=? 13) || (c =? 32) || (c =? 160) || (c =? 5760)
   || (8192 <=? c) && (c <=? 8202) || (c =? 8232) || (c =? 8233)
   || (c =? 8239) || (c =? 8287) || (c =? 12288) || (c =? 65279))%N.

Fixpoint trimStart (s : jsstring) : jsstring :=
  match s with
  | c :: s' => if isWhiteSpace c then trimStart s' else s
  | [] => []
  end.

Definition trimEnd (s : jsstring) : jsstring := reverse (trimStart (reverse s)).

(** [s.trim()] *)
Definition trim (s : jsstring) : jsstring := trimEnd (trimStart s).

(** [String.prototype.toLowerCase] restricted to what is fixed without the
    Unicode tables: on the letters A-Z it adds 32, every other ASCII code
    unit is unchanged. *)
Definition lowerUnit (c : N) : N :=
  if ((65 <=? c) && (c <=? 90))%N then (c + 32)%N else c.

Definition asciiLower (s : jsstring) : jsstring := lowerUnit <$> s.

Definition isAscii (s : jsstring) : Prop := Forall (fun c => (c < 128)%N) s.

(** [s === t] on strings: same code units. *)
Definition strictEq (s t : jsstring) : bool := bool_decide (s = t).

(** [s.split(sep)] for a one-unit separator: the segments between the
    occurrences of [sep]; there is always at least one segment. *)
Fixpoint split (sep : N) (s : jsstring) : list jsstring :=
  match s with
  | [] => [[]]
  | c :: s' =>
      if (c =? sep)%N then [] :: split sep s'
      else match split sep s' with
           | w :: ws => (c :: w) :: ws
           | [] => [[c]]
           end
  end.

(** [s[0]]: the first code unit, [undefined] ([None]) on the empty string. *)
Definition charAt0 (s : jsstring) : option N := head s.

(** [v + '...']: string concatenation converts [undefined] to the text
    "undefined". *)
Definition toStringValue (v : option N) : jsstring :=
  match v with
  | Some c => [c]
  | None => js "undefined"
  end.

(** [Array.prototype.join]: an [undefined] element contributes the empty
    string. *)
Definition joinElement (v : option N) : jsstring :=
  match v with
  | Some c => [c]
  | None => []
  end.

Fixpoint join (sep : jsstring) (l : list (option N)) : jsstring :=
  match l with
  | [] => []
  | [v] => joinElement v
  | v :: l' => joinElement v ++ sep ++ join sep l'
  end.

End JsString.
Import JsString.

(** ** Pure helpers of the component *)

(** [getHint] (LearnMode.tsx, lines 163-167). *)
Definition getHint (text : jsstring) : jsstring :=
  let words := split 32 text in
  if (length words =? 1)%nat then toStringValue (charAt0 text) ++ js "..."
  else join (js " ") (charAt0 <$> words) ++ js "...".

(** The typing-mode judgement (lines 307, 312 and 320): the same expression
    colours the feedback and is passed to [handleAnswer].  [toLowerCase] is
    the engine's case mapping. *)
Definition typedAnswerIsCorrect (toLowerCase : jsstring -> jsstring)
    (userAnswer definition : jsstring) : bool :=
  strictEq (trim (toLowerCase userAnswer)) (trim (toLowerCase definition)).

(** ** Data model *)

(** [interface Flashcard] (lines 14-21).  The two optional numeric fields are
    [None] when absent ([undefined]). *)
Record Flashcard := mkFlashcard {
  id : string;
  term : jsstring;
  definition : jsstring;
  image_url : option jsstring;
  confidence : option Z;
  lastSeen : option Z
}.

(** Card objects are shared by reference: a location is an index into the
    store of objects allocated so far. *)
Abbreviation loc := nat (only parsing).
Abbreviation Heap := (list Flashcard) (only parsing).

(** A JavaScript number used as an array index. *)
Inductive index :=
| Idx (n : nat)
| NaN.

(** The [useState] cells of the component (lines 26-38). *)
Record State := mkState {
  setTitle : jsstring;
  flashcards : list loc;
  currentIndex : index;
  userAnswer : jsstring;
  showAnswer : bool;
  correctCount : nat;
  streak : nat;
  typingMode : bool;
  showSettings : bool;
  showHints : bool;
  showImages : bool;
  spacedRepetition : bool;
  isLoading : bool
}.

Inductive Toast :=
| ToastError (msg : string)
| ToastSuccess (msg : string).

Inductive Query :=
| SelectTitle (setId : string)
| SelectCards (setId : string).

(** Everything a handler can read or change: the object store, the current
    value of the state cells, the notifications shown, the routes navigated
    to, the closures of the pending [setTimeout] callbacks and the queries
    sent to the database. *)
Record World := mkWorld {
  heap : Heap;
  ui : State;
  toasts : list Toast;
  navigations : list string;
  timers : list State;
  requests : list Query
}.

(** The initial render (the [useState] defaults). *)
Definition initialState : State :=
  {| setTitle := []; flashcards := []; currentIndex := Idx 0; userAnswer := [];
     showAnswer := false; correctCount := 0; streak := 0; typingMode := false;
     showSettings := false; showHints := true; showImages := true;
     spacedRepetition := true; isLoading := true |}.

Definition initialWorld : World :=
  {| heap := []; ui := initialState; toasts := []; navigations := [];
     timers := []; requests := [] |}.

(** *** State setters *)

Definition withConfidence (c : Z) (card : Flashcard) : Flashcard :=
  {| id := id card; term := term card; definition := definition card;
     image_url := image_url card; confidence := Some c; lastSeen := lastSeen card |}.

Definition withLastSeen (t : Z) (card : Flashcard) : Flashcard :=
  {| id := id card; term := term card; definition := definition card;
     image_url := image_url card; confidence := confidence card; lastSeen := Some t |}.

Definition onUi (f : State -> State) (w : World) : World :=
  {| heap := heap w; ui := f (ui w); toasts := toasts w;
     navigations := navigations w; timers := timers w; requests := requests w |}.

Definition onHeap (f : Heap -> Heap) (w : World) : World :=
  {| heap := f (heap w); ui := ui w; toasts := toasts w;
     navigations := navigations w; timers := timers w; requests := requests w |}.

Definition toast (t : Toast) (w : World) : World :=
  {| heap := heap w; ui := ui w; toasts := toasts w ++ [t];
     navigations := navigations w; timers := timers w; requests := requests w |}.

Definition navigate (path : string) (w : World) : World :=
  {| heap := heap w; ui := ui w; toasts := toasts w;
     navigations := navigations w ++ [path]; timers := timers w;
     requests := requests w |}.

Definition setTimeout (closure : State) (w : World) : World :=
  {| heap := heap w; ui := ui w; toasts := toasts w;
     navigations := navigations w; timers := timers w ++ [closure];
     requests := requests w |}.

Definition send (q : Query) (w : World) : World :=
  {| heap := heap w; ui := ui w; toasts := toasts w;
     navigations := navigations w; timers := timers w;
     requests := requests w ++ [q] |}.

Definition setSetTitle (v : jsstring) (s : State) : State :=
  {| setTitle := v; flashcards := flashcards s; currentIndex := currentIndex s;
     userAnswer := userAnswer s; showAnswer := showAnswer s;
     correctCount := correctCount s; streak := streak s;
     typingMode := typingMode s; showSettings := showSettings s;
     showHints := showHints s; showImages := showImages s;
     spacedRepetition := spacedRepetition s; isLoading := isLoading s |}.

Definition setFlashcards (v : list loc) (s : State) : State :=
  {| setTitle := setTitle s; flashcards := v; currentIndex := currentIndex s;
     userAnswer := userAnswer s; showAnswer := showAnswer s;
     correctCount := correctCount s; streak := streak s;
     typingMode := typingMode s; showSettings := showSettings s;
     showHints := showHints s; showImages := showImages s;
     spacedRepetition := spacedRepetition s; isLoading := isLoading s |}.

Definition setCurrentIndex (v : index) (s : State) : State :=
  {| setTitle := setTitle s; flashcards := flashcards s; currentIndex := v;
     userAnswer := userAnswer s; showAnswer := showAnswer s;
     correctCount := correctCount s; streak := streak s;
     typingMode := typingMode s; showSettings := showSettings s;
     showHints := showHints s; showImages := showImages s;
     spacedRepetition := spacedRepetition s; isLoading := isLoading s |}.

Definition setUserAnswer (v : jsstring) (s : State) : State :=
  {| setTitle := setTitle s; flashcards := flashcards s;
     currentIndex := currentIndex s; userAnswer := v; showAnswer := showAnswer s;
     correctCount := correctCount s; streak := streak s;
     typingMode := typingMode s; showSettings := showSettings s;
     showHints := showHints s; showImages := showImages s;
     spacedRepetition := spacedRepetition s; isLoading := isLoading s |}.

Definition setShowAnswer (v : bool) (s : State) : State :=
  {| setTitle := setTitle s; flashcards := flashcards s;
     currentIndex := currentIndex s; userAnswer := userAnswer s; showAnswer := v;
     correctCount := correctCount s; streak := streak s;
     typingMode := typingMode s; showSettings := showSettings s;
     showHints := showHints s; showImages := showImages s;
     spacedRepetition := spacedRepetition s; isLoading := isLoading s |}.

Definition setCorrectCount (v : nat) (s : State) : State :=
  {| setTitle := setTitle s; flashcards := flashcards s;
     currentIndex := currentIndex s; userAnswer := userAnswer s;
     showAnswer := showAnswer s; correctCount := v; streak := streak s;
     typingMode := typingMode s; showSettings := showSettings s;
     showHints := showHints s; showImages := showImages s;
     spacedRepetition := spacedRepetition s; isLoading := isLoading s |}.

Definition setStreak (v : nat) (s : State) : State :=
  {| setTitle := setTitle s; flashcards := flashcards s;
     currentIndex := currentIndex s; userAnswer := userAnswer s;
     showAnswer := showAnswer s; correctCount := correctCount s; streak := v;
     typingMode := typingMode s; showSettings := showSettings s;
     showHints := showHints s; showImages := showImages s;
     spacedRepetition := spacedRepetition s; isLoading := isLoading s |}.

Definition setSpacedRepetition (v : bool) (s : State) : State :=
  {| setTitle := setTitle s; flashcards := flashcards s;
     currentIndex := currentIndex s; userAnswer := userAnswer s;
     showAnswer := showAnswer s; correctCount := correctCount s;
     streak := streak s; typingMode := typingMode s;
     showSettings := showSettings s; showHints := showHints s;
     showImages := showImages s; spacedRepetition := v; isLoading := isLoading s |}.

Definition setIsLoading (v : bool) (s : State) : State :=
  {| setTitle := setTitle s; flashcards := flashcards s;
     currentIndex := currentIndex s; userAnswer := userAnswer s;
     showAnswer := showAnswer s; correctCount := correctCount s;
     streak := streak s; typingMode := typingMode s;
     showSettings := showSettings s; showHints := showHints s;
     showImages := showImages s; spacedRepetition := spacedRepetition s;
     isLoading := v |}.

(** ** [Array.prototype.sort] *)

Section ArraySort.
Context {A : Type}.

(** With a consistent comparator the result of [sort] is the stable sort
    (ECMAScript 2019): an element moves in front of an earlier one only
    when the comparator is positive on the pair.  Written as an insertion
    sort; any stable sort computes the same list. *)
Fixpoint insertSorted (compareFn : A -> A -> Z) (x : A) (l : list A) : list A :=
  match l with
  | [] => [x]
  | y :: l' =>
      if compareFn x y <=? 0 then x :: l else y :: insertSorted compareFn x l'
  end.

Fixpoint arraySort (compareFn : A -> A -> Z) (l : list A) : list A :=
  match l with
  | [] => []
  | x :: l' => insertSorted compareFn x (arraySort compareFn l')
  end.

(** *** The sort of the engine on a short array

    With the comparator [() => Math.random() - 0.5] every comparison is
    decided by a fresh draw, whatever the two elements: [coins] lists, call
    by call, whether the comparator's result was negative
    ([Math.random() < 0.5]); a call after the last listed draw counts as not
    negative.

    V8 (Chrome, Node) sorts an array of fewer than 64 elements as a single
    run.  [CountAndMakeRun] compares the second element with the first: a
    negative result starts a descending run, any other an ascending one;
    the run goes on as long as the comparison of an element with the one
    before it says the same, and a descending run is reversed.
    [BinaryInsertionSort] then inserts every remaining element at the slot
    that a binary search in the part already sorted gives: a negative
    result of comparing the element with the middle one continues in the
    lower half, any other result behind the middle.  Longer arrays are cut
    into several runs that are merged afterwards; that is not modelled. *)
Definition nextSign (coins : list bool) : bool * list bool :=
  match coins with
  | negative :: coins' => (negative, coins')
  | [] => (false, [])
  end.

(** The loop of [CountAndMakeRun]: how many elements of [rest] continue
    the run that the first two elements started. *)
Fixpoint continueRun (descending : bool) (rest : list A) (coins : list bool)
    : nat * list bool :=
  match rest with
  | [] => (0%nat, coins)
  | _ :: rest' =>
      let (negative, coins') := nextSign coins in
      if Bool.eqb negative descending then
        let (n, coins'') := continueRun descending rest' coins' in (S n, coins'')
      else (0%nat, coins')
  end.

(** The binary search of [BinaryInsertionSort] between [left] and [right];
    every round halves the distance, so [right - left] rounds are enough. *)
Fixpoint findSlot (rounds left right : nat) (coins : list bool) : nat * list bool :=
  match rounds with
  | O => (left, coins)
  | S rounds' =>
      if (left <? right)%nat then
        let mid := (left + (right - left) / 2)%nat in
        let (negative, coins') := nextSign coins in
        if negative then findSlot rounds' left mid coins'
        else findSlot rounds' (mid + 1) right coins'
      else (left, coins)
  end.

(** The outer loop of [BinaryInsertionSort]. *)
Fixpoint insertAll (sorted pending : list A) (coins : list bool) : list A * list bool :=
  match pending with
  | [] => (sorted, coins)
  | pivot :: pending' =>
      let (slot, coins') := findSlot (length sorted) 0 (length sorted) coins in
      insertAll (take slot sorted ++ pivot :: drop slot sorted) pending' coins'
  end.

(** [l.sort(() => Math.random() - 0.5)] for an array of fewer than 64
    elements. *)
Definition timSortShort (coins : list bool) (l : list A) : list A :=
  match l with
  | _ :: _ :: rest =>
      let (descending, coins1) := nextSign coins in
      let (n, coins2) := continueRun descending rest coins1 in
      let run := take (2 + n) l in
      (insertAll (if descending then reverse run else run) (drop (2 + n) l) coins2).1
  | _ => l
  end.

End ArraySort.

(** The order a comparator of the form [key a - key b] sorts into. *)
Definition ascendingBy {A : Type} (key : A -> Z) (a b : A) : Prop := key a <= key b.

(** ** The scheduler *)

(** [c || 50] on an optional number: [undefined] and [0] are falsy. *)
Definition orDefault50 (c : option Z) : Z :=
  match c with
  | Some v => if v =? 0 then 50 else v
  | None => 50
  end.

(** [card.confidence] for the object at [l]. *)
Definition readConfidence (h : Heap) (l : loc) : option Z := h !! l ≫= confidence.

(** [flashcards[currentIndex]]: [undefined] out of range or at [NaN]. *)
Definition at_index {A} (l : list A) (i : index) : option A :=
  match i with
  | Idx n => l !! n
  | NaN => None
  end.

(** [updateConfidence] (lines 97-112), run from the render [s].  [now] is
    the reading of [Date.now()].  [None]: a [TypeError] is thrown, because
    [current] is [undefined]. *)
Definition updateConfidence (s : State) (correct : bool) (now : Z) (w : World)
    : option World :=
  let updated := flashcards s in
  current ← at_index updated (currentIndex s);
  card ← heap w !! current;
  let c := orDefault50 (confidence card) in
  let '(c', w1) :=
    if correct
    then (Z.min 100 (c + 20), onUi (setStreak (streak s + 1)) w)
    else (Z.max 0 (c - 25), onUi (setStreak 0) w) in
  let w2 := onHeap (fun h => <[current := withLastSeen now (withConfidence c' card)]> h) w1 in
  Some (onUi (setFlashcards updated) w2).

(** The value [updateConfidence] stores, from the value it reads. *)
Definition updatedConfidence (correct : bool) (stored : option Z) : Z :=
  if correct then Z.min 100 (orDefault50 stored + 20)
  else Z.max 0 (orDefault50 stored - 25).

Definition updatedStreak (correct : bool) (s : State) : nat :=
  if correct then (streak s + 1)%nat else 0%nat.

(** An element of [sortedByConfidence] (line 121); [rankConfidence] is its
    field [confidence]. *)
Record Ranked := mkRanked {
  card : loc;
  idx : nat;
  rankConfidence : Z
}.

Definition rank (h : Heap) (cards : list loc) : list Ranked :=
  imap (fun i l => {| card := l; idx := i;
                      rankConfidence := orDefault50 (readConfidence h l) |}) cards.

Definition byConfidence (a b : Ranked) : Z := rankConfidence a - rankConfidence b.

Definition sortedByConfidence (h : Heap) (cards : list loc) : list Ranked :=
  arraySort byConfidence (rank h cards).

(** [Math.max(1, Math.floor(n * 0.4))].  In double precision the product
    [n * 0.4] has the same floor as the exact [2n/5] for every array length
    (the double nearest to 0.4 exceeds it by less than 3e-17, and [2n/5] is
    an integer or at least 0.2 below the next one). *)
Definition poolSize (n : nat) : nat := Nat.max 1 (2 * n / 5).

Definition lowConfidencePool (h : Heap) (cards : list loc) : list Ranked :=
  take (poolSize (length cards)) (sortedByConfidence h cards).

(** [Math.floor(Math.random() * len)], the draw being [r / 2^53] for a
    numerator [0 <= r < 2^53], in exact arithmetic.  (The rounding of the
    product to a double can move the result to the next index for isolated
    draws; it never takes it out of [0 .. len - 1].) *)
Definition randomIndex (r : Z) (len : nat) : nat :=
  Z.to_nat (r * Z.of_nat len / 2 ^ 53).

(** [getNextCard] (lines 114-129), run from the render [s] on the store [h].
    [None]: [next] is [undefined] and reading [next.idx] throws. *)
Definition getNextCard (s : State) (h : Heap) (r : Z) : option index :=
  if negb (spacedRepetition s) then
    Some match currentIndex s, length (flashcards s) with
         | Idx i, S n => Idx ((i + 1) mod S n)
         | _, _ => NaN
         end
  else
    let pool := lowConfidencePool h (flashcards s) in
    next ← pool !! randomIndex r (length pool);
    Some (Idx (idx next)).

(** The callback given to [setTimeout] (lines 138-143): it belongs to the
    render [s] in which [handleAnswer] ran and runs later, in the world [w]. *)
Definition advance (s : State) (r : Z) (w : World) : option World :=
  nextIdx ← getNextCard s (heap w) r;
  Some (onUi (setUserAnswer []) (onUi (setShowAnswer false)
          (onUi (setCurrentIndex nextIdx) w))).

(** [handleAnswer] (lines 131-144). *)
Definition handleAnswer (s : State) (isCorrect : bool) (now : Z) (w : World)
    : option World :=
  let w1 := if isCorrect then onUi (setCorrectCount (correctCount s + 1)) w else w in
  w2 ← updateConfidence s isCorrect now w1;
  Some (setTimeout s w2).

(** [avgConfidence] (line 160): [Math.round(sum / n)], which rounds halves
    up, in exact arithmetic; [None] is [NaN] (the empty array). *)
Definition avgConfidence (s : State) (h : Heap) : option Z :=
  let sum := foldl (fun sum l => sum + orDefault50 (readConfidence h l)) 0 (flashcards s) in
  let n := Z.of_nat (length (flashcards s)) in
  if n =? 0 then None else Some ((2 * sum + n) / (2 * n)).

(** [handleShuffle] (lines 89-95).  [shuffleSort coins l] is the engine's
    [sort] applied to the copy [l] with the random comparator, [coins] being
    the signs of its draws. *)
Definition handleShuffle (shuffleSort : list bool -> list loc -> list loc)
    (s : State) (coins : list bool) (w : World) : World :=
  let shuffled := shuffleSort coins (flashcards s) in
  toast (ToastSuccess "Cards shuffled!")
    (onUi (setShowAnswer false)
       (onUi (setCurrentIndex (Idx 0)) (onUi (setFlashcards shuffled) w))).

(** The "Continue" button of typing mode (lines 318-326): the typed answer
    is judged against the definition of the card on screen and the verdict
    is passed to [handleAnswer]. *)
Definition onContinue (toLowerCase : jsstring -> jsstring) (s : State) (now : Z)
    (w : World) : option World :=
  current ← at_index (flashcards s) (currentIndex s);
  currentCard ← heap w !! current;
  handleAnswer s
    (typedAnswerIsCorrect toLowerCase (userAnswer s) (definition currentCard)) now w.

(** [handleSubmit] (lines 146-149). *)
Definition handleSubmit (s : State) (w : World) : World :=
  match trim (userAnswer s) with
  | [] => w
  | _ => onUi (setShowAnswer true) w
  end.

(** ** Session initialisation *)

(** What a query of the database client resolves to: [{ data, error }]. *)
Record Response (A : Type) := mkResponse {
  data : option A;
  error : option string
}.
Arguments mkResponse {A} _ _.
Arguments data {A} _.
Arguments error {A} _.

(** A row of the table [flashcards] as [select("*")] returns it. *)
Record CardRow := mkCardRow {
  row_id : string;
  row_set_id : string;
  row_term : jsstring;
  row_definition : jsstring;
  row_image_url : option jsstring;
  position : Z
}.

(** The database service as the component sees it: the answer to
    [from("flashcard_sets").select("title").eq("id", id).maybeSingle()] and to
    [from("flashcards").select("star").eq("set_id", id).order("position")]. *)
Record Backend := mkBackend {
  selectTitle : string -> Response jsstring;
  selectCards : string -> Response (list CardRow)
}.

(** [{ ...card, confidence: 50, lastSeen: Date.now() }] (lines 74-78). *)
Definition withMetrics (now : Z) (row : CardRow) : Flashcard :=
  {| id := row_id row; term := row_term row; definition := row_definition row;
     image_url := row_image_url row; confidence := Some 50; lastSeen := Some now |}.

(** The [catch] block (lines 81-83). *)
Definition loadFailed (w : World) : World :=
  navigate "/" (toast (ToastError "Failed to load flashcards") w).

(** [fetchSetAndCards] (lines 44-87) for the route parameter [setId];
    [nows i] is what [Date.now()] returns while the [i]-th row is mapped.
    The new card objects are allocated at the end of the store.  A thrown
    error ends in the [catch] block: the error of either query, or the
    [TypeError] of reading [cardsData.length] when there is no data. *)
Definition fetchSetAndCards (setId : string) (b : Backend) (nows : nat -> Z)
    (w : World) : World :=
  let w1 := send (SelectTitle setId) w in
  let setResp := selectTitle b setId in
  let w' :=
    match error setResp, data setResp with
    | Some _, _ => loadFailed w1
    | None, None => navigate "/" (toast (ToastError "Set not found") w1)
    | None, Some title =>
        let w2 := send (SelectCards setId) (onUi (setSetTitle title) w1) in
        let cardsResp := selectCards b setId in
        match error cardsResp, data cardsResp with
        | Some _, _ => loadFailed w2
        | None, None => loadFailed w2
        | None, Some [] =>
            navigate "/" (toast (ToastError "This set has no flashcards") w2)
        | None, Some cardsData =>
            let cardsWithMetrics := imap (fun i row => withMetrics (nows i) row) cardsData in
            let refs := seq (length (heap w2)) (length cardsWithMetrics) in
            onUi (setFlashcards refs) (onHeap (fun h => h ++ cardsWithMetrics) w2)
        end
    end in
  onUi (setIsLoading false) w'.

(** *** The stored tables

    The database is a service outside the repository; its two queries are
    modelled from the request the component sends. *)
Record Database := mkDatabase {
  flashcard_sets : list (string * jsstring);
  flashcards_table : list CardRow
}.

Definition byPosition (a b : CardRow) : Z := position a - position b.

(** [eq("set_id", id).order("position")] *)
Definition cardsOfSet (db : Database) (setId : string) : list CardRow :=
  arraySort byPosition
    (filter (fun row => row_set_id row = setId) (flashcards_table db)).

(** [eq("id", id).maybeSingle()]: no row gives [data = null] without an
    error, more than one row is an error. *)
Definition titleOfSet (db : Database) (setId : string) : Response jsstring :=
  match filter (fun row => row.1 = setId) (flashcard_sets db) with
  | [] => mkResponse None None
  | [row] => mkResponse (Some row.2) None
  | _ => mkResponse None (Some "multiple rows returned")
  end.

Definition serving (db : Database) : Backend :=
  {| selectTitle := titleOfSet db;
     selectCards := fun setId => mkResponse (Some (cardsOfSet db setId)) None |}.

(** A database that cannot be reached. *)
Definition unreachable : Backend :=
  {| selectTitle := fun _ => mkResponse None (Some "fetch failed");
     selectCards := fun _ => mkResponse None (Some "fetch failed") |}.

(** The cards a list of references denotes in a store. *)
Definition deref (h : Heap) (refs : list loc) : list (option Flashcard) :=
  (fun l => h !! l) <$> refs.

(** ** One step of the session *)

(** What can happen to a running session.  A click runs the handler of the
    render on screen, the one of the current state cells.  A shuffle sorts
    with [timSortShort], which is the sort of the engine for a working set of
    fewer than 64 cards and some rearrangement of a longer one. *)
Inductive Event :=
| ClickAnswer (isCorrect : bool) (now : Z)
| TimerFires (r : Z)
| ClickShuffle (coins : list bool)
| ToggleSpacedRepetition (checked : bool).

Definition popTimer (w : World) : World :=
  {| heap := heap w; ui := ui w; toasts := toasts w;
     navigations := navigations w; timers := tail (timers w);
     requests := requests w |}.

Definition step (e : Event) (w : World) : option World :=
  match e with
  | ClickAnswer isCorrect now => handleAnswer (ui w) isCorrect now w
  | TimerFires r =>
      match timers w with
      | closure :: _ => advance closure r (popTimer w)
      | [] => Some w
      end
  | ClickShuffle coins => Some (handleShuffle timSortShort (ui w) coins w)
  | ToggleSpacedRepetition checked => Some (onUi (setSpacedRepetition checked) w)
  end.

Fixpoint run (es : list Event) (w : World) : option World :=
  match es with
  | [] => Some w
  | e :: es' => w' ← step e w; run es' w'
  end.

(** The stored confidence of every card of the working set, in order. *)
Definition confidences (w : World) : list (option Z) :=
  readConfidence (heap w) <$> flashcards (ui w).

(** ** The formulas of the specification

    Written from the specification's words, to be compared with what the
    component computes. *)
Module Spec.

(** "confidence = min(100, confidence + 20)" *)
Definition clampedIncrease (c : Z) : Z := Z.min 100 (c + 20).

(** "confidence = max(0, confidence - 25)" *)
Definition clampedDecrease (c : Z) : Z := Z.max 0 (c - 25).

(** "arithmetic mean of all cards' confidence", rounded to the nearest
    integer (halves up). *)
Definition roundedMean (cs : list Z) : Z :=
  let n := Z.of_nat (length cs) in
  (2 * foldr Z.add 0 cs + n) / (2 * n).

(** "the lowest-confidence 40% (at least 1 card, rounding down)": a set of
    positions of the working set is such a pool when it has that many
    members and no card outside it has a lower stored confidence than a
    card inside it. *)
Definition isLowestPool (cs : list Z) (pool : list nat) : Prop :=
  NoDup pool /\
  length pool = Nat.max 1 (2 * length cs / 5) /\
  forall i j ci cj, i ∈ pool -> j ∉ pool ->
    cs !! i = Some ci -> cs !! j = Some cj -> ci <= cj.

(** The segments between the code units satisfying [sep]. *)
Fixpoint splitWhere (sep : N -> bool) (s : jsstring) : list jsstring :=
  match s with
  | [] => [[]]
  | c :: s' =>
      if sep c then [] :: splitWhere sep s'
      else match splitWhere sep s' with
           | w :: ws => (c :: w) :: ws
           | [] => [[c]]
           end
  end.

(** "whitespace-delimited words" *)
Definition words (s : jsstring) : list jsstring :=
  filter (fun w => w ≠ []) (splitWhere isWhiteSpace s).

Fixpoint joinWith (sep : jsstring) (l : list jsstring) : jsstring :=
  match l with
  | [] => []
  | [w] => w
  | w :: l' => w ++ sep ++ joinWith sep l'
  end.

(** "if it is a single word, returns its first character followed by an
    ellipsis; otherwise returns the first character of each
    whitespace-delimited word joined by spaces, followed by an ellipsis" *)
Definition hint (text : jsstring) : jsstring :=
  match words text with
  | [w] => take 1 w ++ js "..."
  | ws => joinWith (js " ") (take 1 <$> ws) ++ js "..."
  end.

(** The error taxonomy of session initialisation. *)
Inductive Failure :=
| NotFound
| Empty
| TransientFetchError.

End Spec.

(** Which failure, if any, the answers of the database amount to. *)
Definition failureOf (b : Backend) (setId : string) : option Spec.Failure :=
  match error (selectTitle b setId), data (selectTitle b setId) with
  | Some _, _ => Some Spec.TransientFetchError
  | None, None => Some Spec.NotFound
  | None, Some _ =>
      match error (selectCards b setId), data (selectCards b setId) with
      | Some _, _ => Some Spec.TransientFetchError
      | None, None => Some Spec.TransientFetchError
      | None, Some [] => Some Spec.Empty
      | None, Some (_ :: _) => None
      end
  end.

(** The notification each failure is reported with (lines 54, 69 and 82). *)
Definition failureMessage (f : Spec.Failure) : string :=
  match f with
  | Spec.NotFound => "Set not found"
  | Spec.Empty => "This set has no flashcards"
  | Spec.TransientFetchError => "Failed to load flashcards"
  end.

(** The queries a load sends, in order. *)
Definition queriesSent (b : Backend) (setId : string) : list Query :=
  match error (selectTitle b setId), data (selectTitle b setId) with
  | None, Some _ => [SelectTitle setId; SelectCards setId]
  | _, _ => [SelectTitle setId]
  end.

(** *** Shuffling as a random experiment

    Every sequence of [k] comparator signs is equally likely: the draws are
    independent and a draw is below 0.5 as often as not. *)
Fixpoint allCoins (k : nat) : list (list bool) :=
  match k with
  | O => [[]]
  | S k' => (cons true <$> allCoins k') ++ (cons false <$> allCoins k')
  end.

(** In how many of the [2^k] equally likely runs the shuffle leaves the
    working set [l] in the order [p]. *)
Definition timesDrawn (shuffleSort : list bool -> list loc -> list loc)
    (k : nat) (l p : list loc) : nat :=
  length (filter (fun coins => shuffleSort coins l = p) (allCoins k)).

(** "uniformly at random": every order of the working set is as likely as
    every other. *)
Definition uniformShuffle (shuffleSort : list bool -> list loc -> list loc)
    (k : nat) (l : list loc) : Prop :=
  forall p q, p ≡ₚ l -> q ≡ₚ l ->
    timesDrawn shuffleSort k l p = timesDrawn shuffleSort k l q.

(** The keys by which the working set is ranked, in working-set order. *)
Definition rankingKeys (h : Heap) (cards : list loc) : list Z :=
  (fun l => orDefault50 (readConfidence h l)) <$> cards.

(** A load that fails shows one notification, navigates to the start page
    and leaves store and working set as they were. *)
Definition aborted (message : string) (w w' : World) : Prop :=
  heap w' = heap w
  /\ flashcards (ui w') = flashcards (ui w)
  /\ toasts w' = toasts w ++ [ToastError message]
  /\ navigations w' = navigations w ++ ["/"]
  /\ timers w' = timers w.

(** A code unit that [trim] strips. *)
Definition whiteSpace (c : N) : Prop := isWhiteSpace c = true.

(** The six orders of a working set of three cards. *)
Definition ordersOfThree : list (list loc) :=
  [[0; 1; 2]; [0; 2; 1]; [1; 0; 2]; [1; 2; 0]; [2; 0; 1]; [2; 1; 0]]%nat.

(** *** Well-formed sessions

    What holds of a session once its cards are loaded: the working set is
    not empty and refers to stored cards, [currentIndex] points into it,
    every stored confidence is a number within 0..100, and every pending
    advance was created in a render whose working set had the same cards. *)
Definition validIndex (s : State) : Prop :=
  exists i, currentIndex s = Idx i /\ (i < length (flashcards s))%nat.

Definition confidenceInRange (c : Flashcard) : Prop :=
  exists v, confidence c = Some v /\ 0 <= v <= 100.

Definition wellFormed (w : World) : Prop :=
  flashcards (ui w) ≠ []
  /\ Forall (fun l => is_Some (heap w !! l)) (flashcards (ui w))
  /\ validIndex (ui w)
  /\ Forall confidenceInRange (heap w)
  /\ Forall (fun s => flashcards s ≡ₚ flashcards (ui w) /\ validIndex s) (timers w).

(** The events the environment can produce: a draw of [Math.random()] is
    below 1. *)
Definition validEvent (e : Event) : Prop :=
  match e with
  | TimerFires r => 0 <= r < 2 ^ 53
  | _ => True
  end.

(** *** Counting along a run *)

(** An answer and the advance that follows it, for each triple of verdict,
    time of the answer and draw of the advance. *)
Definition answerRounds (rounds : list (bool * Z * Z)) : list Event :=
  rounds ≫= (fun '(isCorrect, now, r) => [ClickAnswer isCorrect now; TimerFires r]).

(** The number of correct answers among the events. *)
Fixpoint correctAnswers (es : list Event) : nat :=
  match es with
  | [] => 0
  | ClickAnswer true _ :: es' => S (correctAnswers es')
  | _ :: es' => correctAnswers es'
  end.

(** The streak after the events, from the streak before them: the number of
    correct answers since the last incorrect one. *)
Fixpoint streakAfter (es : list Event) (before : nat) : nat :=
  match es with
  | [] => before
  | ClickAnswer true _ :: es' => streakAfter es' (S before)
  | ClickAnswer false _ :: es' => streakAfter es' 0
  | _ :: es' => streakAfter es' before
  end.

(** *** Double precision

    The two numeric expressions of the scheduler whose value is an integer,
    evaluated as the engine does: on binary64 numbers.  [floorIs x k] and
    [roundIs x k] say that [Math.floor(x)] and [Math.round(x)] are the
    integer [k]; both comparisons are exact. *)
Module Binary64.

Definition ofZ (n : Z) : PrimFloat.float := PrimFloat.of_uint63 (Uint63.of_Z n).

Definition floorIs (x : PrimFloat.float) (k : Z) : bool :=
  PrimFloat.leb (ofZ k) x && PrimFloat.ltb x (ofZ (k + 1)).

Definition roundIs (x : PrimFloat.float) (k : Z) : bool :=
  PrimFloat.leb (PrimFloat.sub (ofZ k) 0.5%float) x
  && PrimFloat.ltb x (PrimFloat.add (ofZ k) 0.5%float).

(** [flashcards.length * 0.4] *)
Definition lengthTimesPoint4 (n : nat) : PrimFloat.float :=
  PrimFloat.mul (ofZ (Z.of_nat n)) 0x1.999999999999ap-2%float.

(** [sum / flashcards.length] *)
Definition quotient (sum : Z) (n : nat) : PrimFloat.float :=
  PrimFloat.div (ofZ sum) (ofZ (Z.of_nat n)).

End Binary64.

(** [Math.random() * len] as the engine computes it, in double precision,
    for the draw [r / 2^53]. *)
Definition drawTimesLength (r : Z) (len : nat) : PrimFloat.float :=
  PrimFloat.mul (PrimFloat.div (Binary64.ofZ r) (Binary64.ofZ (2 ^ 53)))
    (Binary64.ofZ (Z.of_nat len)).

(** * Test Mode

    A shallow embedding of [src/pages/TestMode.tsx]: the settings of a
    test, the generation of its questions, the answering of the questions
    one by one, the countdown and the scoring on the results page.

    As for Learn Mode a handler is a function of the render it was created
    in (the captured [State]) and of the [World] it runs in.  The number of
    questions is a JavaScript number, [Number(e.target.value)] of a number
    input: a finite double, hence a rational number ([Q]); the time limit is
    a whole number of minutes ([Z]).  Questions have the shape of
    [interface Question], also those the question service returns. *)
Module TestMode.

(** [Math.min] of two finite numbers, and the conversion of a finite number
    to an integer that [slice] applies to its arguments (truncation towards
    zero); both are exact. *)
Definition mathMin (x y : Q) : Q := if Qle_bool x y then x else y.

Definition toIntegerOrInfinity (x : Q) : Z := Z.quot (Qnum x) (Z.pos (Qden x)).

(** [interface Flashcard] (lines 15-20): the state holds the rows of the
    table [flashcards] as the query returned them. *)
Abbreviation Flashcard := CardRow (only parsing).

(** [interface Question] (lines 22-29); an optional field is [None] when
    absent. *)
Record Question := mkQuestion {
  question_type : string;
  question_text : jsstring;
  correct_answer : jsstring;
  user_answer : option jsstring;
  options : option (list jsstring);
  explanation : option jsstring
}.

(** [{ ...q, user_answer: a }] *)
Definition withUserAnswer (a : jsstring) (q : Question) : Question :=
  {| question_type := question_type q; question_text := question_text q;
     correct_answer := correct_answer q; user_answer := Some a;
     options := options q; explanation := explanation q |}.

(** The [useState] cells of the component (lines 34-49); [timeRemaining] is
    [None] when it is [null]. *)
Record State := mkState {
  setTitle : jsstring;
  flashcards : list Flashcard;
  questions : list Question;
  currentIndex : nat;
  userAnswer : jsstring;
  showResults : bool;
  isLoading : bool;
  testStarted : bool;
  timeRemaining : option Z;
  questionCount : Q;
  useAI : bool;
  timeLimit : Z;
  selectedTypes : list string;
  isGenerating : bool
}.

(** The calls of the notification library: [toast.error], [toast.success],
    [toast.loading(msg, { id })] and [toast.dismiss(id)]. *)
Inductive Toast :=
| ToastError (msg : string)
| ToastSuccess (msg : string)
| ToastLoading (msg : string) (key : string)
| ToastDismiss (key : string).

(** The body of a call of the question service (line 121). *)
Record Request := mkRequest {
  body_flashcards : list Flashcard;
  body_questionTypes : list string;
  body_count : Q
}.

Record World := mkWorld {
  ui : State;
  toasts : list Toast;
  navigations : list string;
  invocations : list Request
}.

Definition initialState : State :=
  {| setTitle := []; flashcards := []; questions := []; currentIndex := 0;
     userAnswer := []; showResults := false; isLoading := true;
     testStarted := false; timeRemaining := None; questionCount := 10%Q;
     useAI := true; timeLimit := 0;
     selectedTypes := ["multiple_choice"; "true_false"; "fill_blank"]%string;
     isGenerating := false |}.

Definition initialWorld : World :=
  {| ui := initialState; toasts := []; navigations := []; invocations := [] |}.

Definition onUi (f : State -> State) (w : World) : World :=
  {| ui := f (ui w); toasts := toasts w; navigations := navigations w;
     invocations := invocations w |}.

Definition toast (t : Toast) (w : World) : World :=
  {| ui := ui w; toasts := toasts w ++ [t]; navigations := navigations w;
     invocations := invocations w |}.

Definition navigate (path : string) (w : World) : World :=
  {| ui := ui w; toasts := toasts w; navigations := navigations w ++ [path];
     invocations := invocations w |}.

Definition invoke (r : Request) (w : World) : World :=
  {| ui := ui w; toasts := toasts w; navigations := navigations w;
     invocations := invocations w ++ [r] |}.

Definition setSetTitle (v : jsstring) (s : State) : State :=
  {| setTitle := v; flashcards := flashcards s; questions := questions s;
     currentIndex := currentIndex s; userAnswer := userAnswer s;
     showResults := showResults s; isLoading := isLoading s;
     testStarted := testStarted s; timeRemaining := timeRemaining s;
     questionCount := questionCount s; useAI := useAI s; timeLimit := timeLimit s;
     selectedTypes := selectedTypes s; isGenerating := isGenerating s |}.

Definition setFlashcards (v : list Flashcard) (s : State) : State :=
  {| setTitle := setTitle s; flashcards := v; questions := questions s;
     currentIndex := currentIndex s; userAnswer := userAnswer s;
     showResults := showResults s; isLoading := isLoading s;
     testStarted := testStarted s; timeRemaining := timeRemaining s;
     questionCount := questionCount s; useAI := useAI s; timeLimit := timeLimit s;
     selectedTypes := selectedTypes s; isGenerating := isGenerating s |}.

Definition setQuestions (v : list Question) (s : State) : State :=
  {| setTitle := setTitle s; flashcards := flashcards s; questions := v;
     currentIndex := currentIndex s; userAnswer := userAnswer s;
     showResults := showResults s; isLoading := isLoading s;
     testStarted := testStarted s; timeRemaining := timeRemaining s;
     questionCount := questionCount s; useAI := useAI s; timeLimit := timeLimit s;
     selectedTypes := selectedTypes s; isGenerating := isGenerating s |}.

Definition setCurrentIndex (v : nat) (s : State) : State :=
  {| setTitle := setTitle s; flashcards := flashcards s; questions := questions s;
     currentIndex := v; userAnswer := userAnswer s; showResults := showResults s;
     isLoading := isLoading s; testStarted := testStarted s;
     timeRemaining := timeRemaining s; questionCount := questionCount s;
     useAI := useAI s; timeLimit := timeLimit s; selectedTypes := selectedTypes s;
     isGenerating := isGenerating s |}.

Definition setUserAnswer (v : jsstring) (s : State) : State :=
  {| setTitle := setTitle s; flashcards := flashcards s; questions := questions s;
     currentIndex := currentIndex s; userAnswer := v; showResults := showResults s;
     isLoading := isLoading s; testStarted := testStarted s;
     timeRemaining := timeRemaining s; questionCount := questionCount s;
     useAI := useAI s; timeLimit := timeLimit s; selectedTypes := selectedTypes s;
     isGenerating := isGenerating s |}.

Definition setShowResults (v : bool) (s : State) : State :=
  {| setTitle := setTitle s; flashcards := flashcards s; questions := questions s;
     currentIndex := currentIndex s; userAnswer := userAnswer s; showResults := v;
     isLoading := isLoading s; testStarted := testStarted s;
     timeRemaining := timeRemaining s; questionCount := questionCount s;
     useAI := useAI s; timeLimit := timeLimit s; selectedTypes := selectedTypes s;
     isGenerating := isGenerating s |}.

Definition setIsLoading (v : bool) (s : State) : State :=
  {| setTitle := setTitle s; flashcards := flashcards s; questions := questions s;
     currentIndex := currentIndex s; userAnswer := userAnswer s;
     showResults := showResults s; isLoading := v; testStarted := testStarted s;
     timeRemaining := timeRemaining s; questionCount := questionCount s;
     useAI := useAI s; timeLimit := timeLimit s; selectedTypes := selectedTypes s;
     isGenerating := isGenerating s |}.

Definition setTestStarted (v : bool) (s : State) : State :=
  {| setTitle := setTitle s; flashcards := flashcards s; questions := questions s;
     currentIndex := currentIndex s; userAnswer := userAnswer s;
     showResults := showResults s; isLoading := isLoading s; testStarted := v;
     timeRemaining := timeRemaining s; questionCount := questionCount s;
     useAI := useAI s; timeLimit := timeLimit s; selectedTypes := selectedTypes s;
     isGenerating := isGenerating s |}.

Definition setTimeRemaining (v : option Z) (s : State) : State :=
  {| setTitle := setTitle s; flashcards := flashcards s; questions := questions s;
     currentIndex := currentIndex s; userAnswer := userAnswer s;
     showResults := showResults s; isLoading := isLoading s;
     testStarted := testStarted s; timeRemaining := v;
     questionCount := questionCount s; useAI := useAI s; timeLimit := timeLimit s;
     selectedTypes := selectedTypes s; isGenerating := isGenerating s |}.

Definition setQuestionCount (v : Q) (s : State) : State :=
  {| setTitle := setTitle s; flashcards := flashcards s; questions := questions s;
     currentIndex := currentIndex s; userAnswer := userAnswer s;
     showResults := showResults s; isLoading := isLoading s;
     testStarted := testStarted s; timeRemaining := timeRemaining s;
     questionCount := v; useAI := useAI s; timeLimit := timeLimit s;
     selectedTypes := selectedTypes s; isGenerating := isGenerating s |}.

Definition setUseAI (v : bool) (s : State) : State :=
  {| setTitle := setTitle s; flashcards := flashcards s; questions := questions s;
     currentIndex := currentIndex s; userAnswer := userAnswer s;
     showResults := showResults s; isLoading := isLoading s;
     testStarted := testStarted s; timeRemaining := timeRemaining s;
     questionCount := questionCount s; useAI := v; timeLimit := timeLimit s;
     selectedTypes := selectedTypes s; isGenerating := isGenerating s |}.

Definition setTimeLimit (v : Z) (s : State) : State :=
  {| setTitle := setTitle s; flashcards := flashcards s; questions := questions s;
     currentIndex := currentIndex s; userAnswer := userAnswer s;
     showResults := showResults s; isLoading := isLoading s;
     testStarted := testStarted s; timeRemaining := timeRemaining s;
     questionCount := questionCount s; useAI := useAI s; timeLimit := v;
     selectedTypes := selectedTypes s; isGenerating := isGenerating s |}.

Definition setSelectedTypes (v : list string) (s : State) : State :=
  {| setTitle := setTitle s; flashcards := flashcards s; questions := questions s;
     currentIndex := currentIndex s; userAnswer := userAnswer s;
     showResults := showResults s; isLoading := isLoading s;
     testStarted := testStarted s; timeRemaining := timeRemaining s;
     questionCount := questionCount s; useAI := useAI s; timeLimit := timeLimit s;
     selectedTypes := v; isGenerating := isGenerating s |}.

Definition setIsGenerating (v : bool) (s : State) : State :=
  {| setTitle := setTitle s; flashcards := flashcards s; questions := questions s;
     currentIndex := currentIndex s; userAnswer := userAnswer s;
     showResults := showResults s; isLoading := isLoading s;
     testStarted := testStarted s; timeRemaining := timeRemaining s;
     questionCount := questionCount s; useAI := useAI s; timeLimit := timeLimit s;
     selectedTypes := selectedTypes s; isGenerating := v |}.

(** ** Session initialisation *)

Definition loadFailed (w : World) : World :=
  navigate "/" (toast (ToastError "Failed to load flashcards") w).

(** [fetchSetAndCards] (lines 66-104): as in Learn Mode, but the rows are
    stored as they are and the number of questions is preset to the number
    of cards, at most 10. *)
Definition fetchSetAndCards (setId : string) (b : Backend) (w : World) : World :=
  let setResp := selectTitle b setId in
  let w' :=
    match error setResp, data setResp with
    | Some _, _ => loadFailed w
    | None, None => navigate "/" (toast (ToastError "Set not found") w)
    | None, Some title =>
        let w1 := onUi (setSetTitle title) w in
        let cardsResp := selectCards b setId in
        match error cardsResp, data cardsResp with
        | Some _, _ => loadFailed w1
        | None, None => loadFailed w1
        | None, Some [] =>
            navigate "/" (toast (ToastError "This set has no flashcards") w1)
        | None, Some cardsData =>
            onUi (setQuestionCount (inject_Z (Z.min (Z.of_nat (length cardsData)) 10)))
              (onUi (setFlashcards cardsData) w1)
        end
    end in
  onUi (setIsLoading false) w'.

(** ** The settings of a test *)

(** [selectedTypes.includes(type)] *)
Definition includes (l : list string) (x : string) : bool := bool_decide (x ∈ l).

(** [toggleQuestionType] (lines 206-214). *)
Definition toggleQuestionType (s : State) (type_ : string) (w : World) : World :=
  if includes (selectedTypes s) type_ then
    if (1 <? length (selectedTypes s))%nat then
      onUi (setSelectedTypes (filter (fun t => t ≠ type_) (selectedTypes s))) w
    else w
  else onUi (setSelectedTypes (selectedTypes s ++ [type_])) w.

(** The [onChange] handler of the number of questions (line 272): [value]
    is [Number(e.target.value)], whole or not, positive or not (an input
    that is empty or no number has the value 0). *)
Definition onCountChange (s : State) (value : Q) (w : World) : World :=
  onUi (setQuestionCount
          (mathMin (mathMin value (inject_Z (Z.of_nat (length (flashcards s))))) 40%Q)) w.

(** What can be done on the settings page before the test is started. *)
Inductive Setting :=
| Toggle (type_ : string)
| Count (value : Q)
| Minutes (value : Z)
| CheckAI (checked : bool).

Definition configure (e : Setting) (w : World) : World :=
  match e with
  | Toggle type_ => toggleQuestionType (ui w) type_ w
  | Count value => onCountChange (ui w) value w
  | Minutes value => onUi (setTimeLimit value) w
  | CheckAI checked => onUi (setUseAI checked) w
  end.

Definition configureAll (es : list Setting) (w : World) : World :=
  foldl (fun w e => configure e w) w es.

(** ** Generating the questions *)

(** [l.slice(0, end_)] once [end_] is converted to an integer: a negative
    [end_] counts from the end of the array. *)
Definition sliceTo {A} (end_ : Z) (l : list A) : list A :=
  let len := Z.of_nat (length l) in
  let final := if end_ <? 0 then Z.max (len + end_) 0 else Z.min end_ len in
  take (Z.to_nat final) l.

(** The random draws consumed while one card is turned into a question:
    the numerator of the draw that picks the type, the signs of the two
    random sorts of a multiple-choice question, and whether the draw of a
    true/false question exceeded 0.5. *)
Record Draws := mkDraws {
  typeDraw : Z;
  wrongCoins : list bool;
  optionCoins : list bool;
  isTrueDraw : bool
}.

(** The character U+0022 of the template strings. *)
Definition quote : jsstring := [34%N].

(** [c.id !== card.id] *)
Definition otherThan (card c : Flashcard) : Prop := row_id c ≠ row_id card.

(** The callback of [selectedCards.map] (lines 143-177).  [flashcards] is
    the array of the state as the random sort left it. *)
Definition manualQuestion (shuffleSort : forall A : Type, list bool -> list A -> list A)
    (flashcards : list Flashcard) (selectedTypes : list string) (d : Draws)
    (card : Flashcard) : Question :=
  let type_ := selectedTypes !! randomIndex (typeDraw d) (length selectedTypes) in
  if bool_decide (type_ = Some "multiple_choice"%string) then
    let otherCards := filter (otherThan card) flashcards in
    let wrongOptions :=
      row_definition <$> take 3 (shuffleSort _ (wrongCoins d) otherCards) in
    let options := shuffleSort _ (optionCoins d) (row_definition card :: wrongOptions) in
    {| question_type := "multiple_choice";
       question_text :=
         js "What is the definition of " ++ quote ++ row_term card ++ quote ++ js "?";
       correct_answer := row_definition card;
       user_answer := None;
       options := Some options;
       explanation := Some (js "The correct definition is: " ++ row_definition card) |}
  else if bool_decide (type_ = Some "true_false"%string) then
    let isTrue := isTrueDraw d in
    let displayDef :=
      if isTrue then row_definition card
      else match head (filter (otherThan card) flashcards) with
           | Some other =>
               match row_definition other with
               | [] => row_definition card
               | _ => row_definition other
               end
           | None => row_definition card
           end in
    {| question_type := "true_false";
       question_text :=
         js "True or False: " ++ quote ++ row_term card ++ quote ++ js " means "
           ++ quote ++ displayDef ++ quote;
       correct_answer := if isTrue then js "True" else js "False";
       user_answer := None;
       options := Some [js "True"; js "False"];
       explanation :=
         Some (js "The correct answer is " ++ (if isTrue then js "True" else js "False")
               ++ js ". " ++ row_term card ++ js " means " ++ row_definition card) |}
  else
    {| question_type := "fill_blank";
       question_text := js "Define: " ++ row_term card;
       correct_answer := row_definition card;
       user_answer := None;
       options := None;
       explanation := Some (js "The correct definition is: " ++ row_definition card) |}.

(** What the call of the question service ends in: an error (the field
    [error] of the answer, or a rejected call), or [data?.questions]. *)
Inductive Invocation :=
| InvokeFailed
| InvokeData (questions : option (list Question)).

(** The end of both ways of [generateQuestions] (lines 127-132 and
    179-184). *)
Definition startTest (s : State) (qs : list Question) (w : World) : World :=
  let w1 := onUi (setTestStarted true) (onUi (setQuestions qs) w) in
  let w2 :=
    if 0 <? timeLimit s then onUi (setTimeRemaining (Some (timeLimit s * 60))) w1
    else w1 in
  onUi (setIsGenerating false)
    (toast (ToastSuccess "Test ready!") (toast (ToastDismiss "generating-test") w2)).

(** [Math.min(questionCount, flashcards.length, 40)] (line 115) *)
Definition countOf (s : State) : Q :=
  mathMin (mathMin (questionCount s) (inject_Z (Z.of_nat (length (flashcards s))))) 40%Q.

(** [generateQuestions] (lines 106-185).  [coins] are the signs of the
    draws of the random sort of the cards, [ai] is what the question service
    answers when it is called, [draws i] are the draws for the [i]-th
    selected card.  The sort of line 116 is applied to the array of the
    state itself: the state holds the cards in the new order although no
    setter is called. *)
Definition generateQuestions (shuffleSort : forall A : Type, list bool -> list A -> list A)
    (s : State) (coins : list bool) (ai : Invocation) (draws : nat -> Draws)
    (w : World) : World :=
  if bool_decide (length (selectedTypes s) = 0%nat) then
    toast (ToastError "Please select at least one question type") w
  else
    let w1 :=
      toast (ToastLoading "Making test..." "generating-test")
        (onUi (setIsGenerating true) w) in
    let count := countOf s in
    let sorted := shuffleSort _ coins (flashcards s) in
    let w2 := onUi (setFlashcards sorted) w1 in
    let selectedCards := sliceTo (toIntegerOrInfinity count) sorted in
    let manualQuestions :=
      imap (fun i card => manualQuestion shuffleSort sorted (selectedTypes s) (draws i) card)
        selectedCards in
    if useAI s then
      let w3 := invoke (mkRequest selectedCards (selectedTypes s) count) w2 in
      match ai with
      | InvokeData (Some (q :: qs)) => startTest s (q :: qs) w3
      | InvokeData _ => startTest s manualQuestions w3
      | InvokeFailed =>
          startTest s manualQuestions
            (toast (ToastError "AI generation failed, using manual questions")
               (toast (ToastDismiss "generating-test") w3))
      end
    else startTest s manualQuestions w2.

(** ** Taking the test *)

(** [finishTest] (lines 201-204). *)
Definition finishTest (w : World) : World :=
  onUi (setTimeRemaining None) (onUi (setShowResults true) w).

(** [handleSubmit] (lines 187-199) while [currentIndex] is a position of
    [questions].  Outside this range the source does not throw: it stores an
    object with the single field [user_answer] behind the end of the array,
    which is no [Question]; the model stops there ([None]). *)
Definition handleSubmit (s : State) (w : World) : option World :=
  q ← questions s !! currentIndex s;
  let current := withUserAnswer (userAnswer s) q in
  let updated := <[currentIndex s := current]> (questions s) in
  let w1 := onUi (setQuestions updated) w in
  Some (if (currentIndex s + 1 <? length (questions s))%nat
        then onUi (setUserAnswer []) (onUi (setCurrentIndex (currentIndex s + 1)) w1)
        else finishTest w1).

(** The page a render returns (lines 216-222, 224-311, 313-372, 374-456).
    The question page reads [currentQuestion.question_type]: without a
    question at [currentIndex] the render throws ([None]). *)
Inductive Page :=
| LoadingPage
| SettingsPage
| ResultsPage
| QuestionPage (currentQuestion : Question).

Definition render (s : State) : option Page :=
  if isLoading s then Some LoadingPage
  else if negb (testStarted s) then Some SettingsPage
  else if showResults s then Some ResultsPage
  else QuestionPage <$> questions s !! currentIndex s.

(** The countdown effect (lines 55-64) of a render: nothing to do, the time
    is up, or a timer is set that will store the given number of seconds. *)
Inductive Countdown :=
| Idle
| Expired
| Armed (next : Z).

Definition countdown (s : State) : Countdown :=
  if testStarted s && (0 <? timeLimit s) then
    match timeRemaining s with
    | Some t => if t <=? 0 then Expired else Armed (t - 1)
    | None => Idle
    end
  else Idle.

(** The part of the effect that runs at once, after the render of [w]. *)
Definition afterRender (w : World) : World :=
  match countdown (ui w) with
  | Expired => finishTest w
  | _ => w
  end.

(** The timer set by the effect of the render [s] fires. *)
Definition timerFires (s : State) (w : World) : World :=
  match countdown s with
  | Armed next => onUi (setTimeRemaining (Some next)) w
  | _ => w
  end.

(** What happens during a test: an answer is entered and submitted on the
    question page, or a second passes (the pending timer, if any, fires and
    the effect of the next render runs). *)
Inductive Event :=
| Answer (a : jsstring)
| Second.

Definition step (e : Event) (w : World) : option World :=
  page ← render (ui w);
  match e, page with
  | Answer a, QuestionPage _ =>
      let w1 := onUi (setUserAnswer a) w in
      handleSubmit (ui w1) w1
  | Second, _ => Some (afterRender (timerFires (ui w) w))
  | _, _ => Some w
  end.

Fixpoint run (es : list Event) (w : World) : option World :=
  match es with
  | [] => Some w
  | e :: es' => w' ← step e w; run es' w'
  end.

(** ** The results *)

(** The judgement of one question (lines 314-319 and 335-337); an absent
    answer is [undefined], which is equal to no string. *)
Definition isCorrect (toLowerCase : jsstring -> jsstring) (q : Question) : bool :=
  if bool_decide (question_type q = "fill_blank"%string) then
    match user_answer q with
    | Some a => strictEq (trim (toLowerCase a)) (trim (toLowerCase (correct_answer q)))
    | None => false
    end
  else
    match user_answer q with
    | Some a => strictEq a (correct_answer q)
    | None => false
    end.

Definition correctAnswers (toLowerCase : jsstring -> jsstring) (qs : list Question) : nat :=
  length (filter (fun q => isCorrect toLowerCase q = true) qs).

(** [Math.round(x)] of a double: the integer next to [x], the upper one of
    two that are equally near; computed exactly from the mantissa and the
    exponent of [x].  [None] when [x] is not finite. *)
Definition mathRound (x : PrimFloat.float) : option Z :=
  match Prim2SF x with
  | S754_zero _ => Some 0
  | S754_finite s m e =>
      let v := if s then Z.neg m else Z.pos m in
      Some (if 0 <=? e then v * 2 ^ e else (2 * v + 2 ^ (- e)) / 2 ^ (1 - e))
  | _ => None
  end.

(** [Math.round((correct / n) * 100)] in double precision (line 320). *)
Definition percentOf (correct n : nat) : option Z :=
  mathRound
    (PrimFloat.mul
       (PrimFloat.div (Binary64.ofZ (Z.of_nat correct)) (Binary64.ofZ (Z.of_nat n)))
       (Binary64.ofZ 100)).

Definition percentage (toLowerCase : jsstring -> jsstring) (qs : list Question)
    : option Z :=
  percentOf (correctAnswers toLowerCase qs) (length qs).

(** The percentage in exact arithmetic: [100 * correct / n] rounded, halves
    up. *)
Definition exactPercentage (correct n : nat) : Z :=
  (200 * Z.of_nat correct + Z.of_nat n) / (2 * Z.of_nat n).

(** ** Notions used in the statements *)

(** The questions of the manual way (lines 143-177). *)
Definition manualQuestions (shuffleSort : forall A : Type, list bool -> list A -> list A)
    (s : State) (coins : list bool) (draws : nat -> Draws) : list Question :=
  let sorted := shuffleSort _ coins (flashcards s) in
  imap (fun i card => manualQuestion shuffleSort sorted (selectedTypes s) (draws i) card)
    (sliceTo (toIntegerOrInfinity (countOf s)) sorted).

(** The question service is not asked, or it gives no question. *)
Definition manualWay (s : State) (ai : Invocation) : Prop :=
  useAI s = false \/ ai = InvokeFailed \/ ai = InvokeData None
  \/ ai = InvokeData (Some []).

(** The question page offers the correct answer: a fill-in question has a
    text input, the other questions show [options] as radio buttons. *)
Definition answerable (q : Question) : Prop :=
  question_type q = "fill_blank"%string
  \/ exists os, options q = Some os /\ correct_answer q ∈ os.

(** A test that is running: the settings are left and the question page or
    the results page is shown. *)
Definition inTest (w : World) : Prop :=
  isLoading (ui w) = false /\ testStarted (ui w) = true
  /\ (showResults (ui w) = true
      \/ (currentIndex (ui w) < length (questions (ui w)))%nat).

(** The settings page as it is shown once the set is loaded. *)
Definition onSettings (w : World) : Prop :=
  isLoading (ui w) = false /\ testStarted (ui w) = false
  /\ showResults (ui w) = false /\ currentIndex (ui w) = 0%nat.

(** A test that has just been started. *)
Definition onFirstQuestion (w : World) : Prop :=
  isLoading (ui w) = false /\ testStarted (ui w) = true
  /\ showResults (ui w) = false /\ currentIndex (ui w) = 0%nat
  /\ questions (ui w) <> [].

Fixpoint seconds (es : list Event) : nat :=
  match es with
  | [] => 0
  | Second :: es' => S (seconds es')
  | Answer _ :: es' => seconds es'
  end.

(** The two results of up to 100 questions for which the double-precision
    product falls below the half that the exact percentage reaches. *)
Definition belowTheHalf (correct n : nat) : bool :=
  ((correct =? 23) && (n =? 40) || (correct =? 46) && (n =? 80))%nat.

(** The table behind the statements on [percentOf]. *)
Definition percentOfChecked (correct n : nat) : bool :=
  match percentOf correct n with
  | Some p =>
      (p =? exactPercentage correct n - (if belowTheHalf correct n then 1 else 0))
      && (0 <=? p) && (p <=? 100)
      && bool_decide ((p =? 100) = (correct =? n)%nat)
      && bool_decide ((p =? 0) = (correct =? 0)%nat)
  | None => false
  end.

End TestMode.

(** ** Sample sessions *)

Definition sampleRow (i : string) (p : Z) : CardRow :=
  {| row_id := i; row_set_id := "set-1"; row_term := js "term";
     row_definition := js "definition"; row_image_url := None; position := p |}.

Definition sampleClock (i : nat) : Z := 1700000000000 + Z.of_nat i.

(** A set of one card and a set of five. *)
Definition oneCardDb : Database :=
  {| flashcard_sets := [("set-1", js "One")];
     flashcards_table := [sampleRow "a" 0] |}.

Definition fiveCardDb : Database :=
  {| flashcard_sets := [("set-1", js "Five")];
     flashcards_table := [sampleRow "c" 2; sampleRow "a" 0; sampleRow "e" 4;
                          sampleRow "b" 1; sampleRow "d" 3] |}.

Definition emptySetDb : Database :=
  {| flashcard_sets := [("set-1", js "Empty")]; flashcards_table := [] |}.

Definition noSetDb : Database :=
  {| flashcard_sets := []; flashcards_table := [] |}.

Definition oneCardSession : World :=
  fetchSetAndCards "set-1" (serving oneCardDb) sampleClock initialWorld.

Definition fiveCardSession : World :=
  fetchSetAndCards "set-1" (serving fiveCardDb) sampleClock initialWorld.

(** An answer and the advance that follows it a second later. *)
Definition answered (isCorrect : bool) : list Event :=
  [ClickAnswer isCorrect 1700000001000; TimerFires 0].

(** The five-card session after one sequential round in which the first
    three cards were missed and the last two were known; spaced repetition
    is then switched back on. *)
Definition afterFirstRound : list Event :=
  [ToggleSpacedRepetition false] ++ answered false ++ answered false
  ++ answered false ++ answered true ++ answered true
  ++ [ToggleSpacedRepetition true].

(** A working set with the stored confidences [cs], one fresh card each. *)
Definition sampleCard (c : Z) : Flashcard :=
  {| id := "card"; term := js "term"; definition := js "definition";
     image_url := None; confidence := Some c; lastSeen := Some 1700000000000 |}.

Definition sessionWith (cs : list Z) : World :=
  {| heap := sampleCard <$> cs;
     ui := setIsLoading false (setFlashcards (seq 0 (length cs)) initialState);
     toasts := []; navigations := []; timers := [];
     requests := [SelectTitle "set-1"; SelectCards "set-1"] |}.

(** A set of three cards for Test Mode, and a test on it. *)
Definition capital (i country city : string) (p : Z) : CardRow :=
  {| row_id := i; row_set_id := "set-2"; row_term := js country;
     row_definition := js city; row_image_url := None; position := p |}.

Definition capitalsDb : Database :=
  {| flashcard_sets := [("set-2", js "Capitals")];
     flashcards_table := [capital "b" "Italy" "Rome" 1; capital "a" "France" "Paris" 0;
                          capital "c" "Spain" "Madrid" 2] |}.

Definition capitalsLoaded : TestMode.World :=
  TestMode.fetchSetAndCards "set-2" (serving capitalsDb) TestMode.initialWorld.

Definition sampleDraws (i : nat) : TestMode.Draws :=
  {| TestMode.typeDraw := Z.of_nat i * 2 ^ 51 + 2 ^ 50;
     TestMode.wrongCoins := [true; false];
     TestMode.optionCoins := [false; true; true];
     TestMode.isTrueDraw := false |}.

(** The test started from the loaded set with the switch for the question
    service off and a limit of [minutes]. *)
Definition capitalsTest (minutes : Z) : TestMode.World :=
  let w := TestMode.configureAll [TestMode.CheckAI false; TestMode.Minutes minutes]
             capitalsLoaded in
  TestMode.generateQuestions (@timSortShort) (TestMode.ui w) [true; false; true]
    TestMode.InvokeFailed sampleDraws w.
(** * Properties *)

(** ** Sorting *)

Section SortFacts.
Context {A : Type} (key : A -> Z) (compareFn : A -> A -> Z).
Hypothesis compareFn_key : forall a b, compareFn a b = key a - key b.

Lemma insertSorted_Permutation x l : insertSorted compareFn x l ≡ₚ x :: l.
Proof.
  induction l as [|y l IH]; simpl; [done|].
  destruct (compareFn x y <=? 0); [done|].
  rewrite IH. apply perm_swap.
Qed.

Lemma arraySort_Permutation l : arraySort compareFn l ≡ₚ l.
Proof.
  induction l as [|x l IH]; simpl; [done|].
  by rewrite insertSorted_Permutation, IH.
Qed.

Lemma insertSorted_StronglySorted x l :
  StronglySorted (ascendingBy key) l ->
  StronglySorted (ascendingBy key) (insertSorted compareFn x l).
Proof.
  induction 1 as [|y l Hl IH Hy]; simpl.
  - repeat constructor.
  - destruct (Z.leb_spec (compareFn x y) 0) as [Hle|Hgt]; rewrite compareFn_key in *.
    + constructor; [by constructor|].
      constructor; [unfold ascendingBy; lia|].
      eapply Forall_impl; [exact Hy|]. unfold ascendingBy. intros; lia.
    + constructor; [exact IH|].
      rewrite insertSorted_Permutation. constructor; [unfold ascendingBy; lia|done].
Qed.

Lemma arraySort_StronglySorted l :
  StronglySorted (ascendingBy key) (arraySort compareFn l).
Proof.
  induction l as [|x l IH]; simpl; [constructor|].
  by apply insertSorted_StronglySorted.
Qed.

(** The first [k] elements of a sorted array are the [k] smallest. *)
Lemma sorted_take_le_drop k l x y :
  StronglySorted (ascendingBy key) l -> x ∈ take k l -> y ∈ drop k l -> key x <= key y.
Proof.
  intros Hs Hx Hy. rewrite <- (take_drop k l) in Hs.
  exact (StronglySorted_app_1_elem_of _ _ _ _ _ Hs Hx Hy).
Qed.

End SortFacts.

(** ** Examples from the specification *)

Example getHint_empty : getHint [] = js "undefined...".
Proof. reflexivity. Qed.

Example poolSize_single_card : poolSize 1 = 1%nat.
Proof. reflexivity. Qed.

Example sequential_wraps_around :
  getNextCard (setSpacedRepetition false (setCurrentIndex (Idx 4) (ui (sessionWith [50; 50; 50; 50; 50]))))
    [] 0 = Some (Idx 0).
Proof. reflexivity. Qed.

(** ** The confidence update *)

Lemma orDefault50_nonzero c : c ≠ 0 -> orDefault50 (Some c) = c.
Proof. intros Hc. unfold orDefault50. by destruct (Z.eqb_spec c 0). Qed.

Lemma orDefault50_range c : 0 <= c <= 100 -> 1 <= orDefault50 (Some c) <= 100.
Proof. intros Hc. unfold orDefault50. destruct (Z.eqb_spec c 0); lia. Qed.

(** What a call of [updateConfidence] does when the current card exists. *)
Lemma updateConfidence_Some s correct now w l c :
  at_index (flashcards s) (currentIndex s) = Some l ->
  heap w !! l = Some c ->
  updateConfidence s correct now w =
    Some (onUi (setFlashcards (flashcards s))
            (onHeap (fun h => <[l := withLastSeen now
                                   (withConfidence (updatedConfidence correct (confidence c)) c)]> h)
               (onUi (setStreak (updatedStreak correct s)) w))).
Proof.
  intros Hl Hc. unfold updateConfidence. rewrite Hl. simpl. rewrite Hc. simpl.
  by destruct correct.
Qed.

Lemma readConfidence_insert_eq h l c :
  (l < length h)%nat -> readConfidence (<[l := c]> h) l = confidence c.
Proof. intros Hl. unfold readConfidence. by rewrite list_lookup_insert_eq. Qed.

Lemma readConfidence_insert_ne h l l' c :
  l ≠ l' -> readConfidence (<[l := c]> h) l' = readConfidence h l'.
Proof. intros Hl. unfold readConfidence. by rewrite list_lookup_insert_ne. Qed.

(** After the update the card holds the new confidence and the time of the
    answer, the streak cell holds the new streak, and no other card
    changed. *)
Lemma updateConfidence_effect s correct now w l c :
  at_index (flashcards s) (currentIndex s) = Some l ->
  heap w !! l = Some c ->
  exists w',
    updateConfidence s correct now w = Some w'
    /\ readConfidence (heap w') l = Some (updatedConfidence correct (confidence c))
    /\ (heap w' !! l ≫= lastSeen) = Some now
    /\ streak (ui w') = updatedStreak correct s
    /\ flashcards (ui w') = flashcards s
    /\ length (heap w') = length (heap w)
    /\ forall l', l' ≠ l -> heap w' !! l' = heap w !! l'.
Proof.
  intros Hl Hc. eexists. split; [by apply updateConfidence_Some|].
  assert (l < length (heap w))%nat by (by eapply lookup_lt_Some).
  simpl. unfold readConfidence. rewrite list_lookup_insert_eq by done. simpl.
  repeat split; [by rewrite length_insert|].
  intros l' Hne. by rewrite list_lookup_insert_ne.
Qed.

(** For a card whose stored confidence is between 1 and 100 the update is
    the one of the specification, and the result stays within 0..100. *)
Theorem updateConfidence_clamped s correct now w l card c :
  at_index (flashcards s) (currentIndex s) = Some l ->
  heap w !! l = Some card ->
  confidence card = Some c ->
  1 <= c <= 100 ->
  exists w',
    updateConfidence s correct now w = Some w'
    /\ readConfidence (heap w') l =
         Some (if correct then Spec.clampedIncrease c else Spec.clampedDecrease c)
    /\ streak (ui w') = (if correct then streak s + 1 else 0)%nat.
Proof.
  intros Hl Hcard Hc Hrange.
  destruct (updateConfidence_effect s correct now w l card Hl Hcard)
    as (w' & Hw' & Hconf & _ & Hstreak & _).
  exists w'. split; [done|]. split; [|by destruct correct].
  rewrite Hconf, Hc. unfold updatedConfidence. rewrite orDefault50_nonzero by lia.
  by destruct correct.
Qed.

(** Whatever is stored, the new confidence lies within 0..100 as soon as the
    old one did. *)
Theorem updatedConfidence_range correct stored :
  (forall c, stored = Some c -> 0 <= c <= 100) ->
  0 <= updatedConfidence correct stored <= 100.
Proof.
  intros Hstored. unfold updatedConfidence.
  assert (1 <= orDefault50 stored <= 100).
  { destruct stored as [c|]; [apply orDefault50_range; auto|simpl; lia]. }
  destruct correct; lia.
Qed.

(** C1.  A card of a one-card set that is missed three times in a row ends
    at confidence 25: its confidence goes 50, 25, 0 and then, read back as
    50, up to 25, where the rule max(0, c - 25) of the specification keeps it
    at 0.  Answered correctly at confidence 0 it jumps to 70, where the rule
    min(100, c + 20) gives 20. *)
Theorem C1_confidence_zero_is_updated_from_50 :
  confidences <$> run (answered false ++ answered false) oneCardSession
    = Some [Some 0]
  /\ confidences <$> run (answered false ++ answered false ++ answered false) oneCardSession
    = Some [Some 25]
  /\ Spec.clampedDecrease 0 = 0
  /\ confidences <$> run (answered false ++ answered false ++ answered true) oneCardSession
    = Some [Some 70]
  /\ Spec.clampedIncrease 0 = 20.
Proof. repeat split; vm_compute; reflexivity. Qed.

(** ** Reading a card's confidence *)

(** Two stores in which every card reads the same under [|| 50] are ranked
    and averaged alike. *)
Lemma rank_ext h1 h2 cards :
  (forall l, orDefault50 (readConfidence h1 l) = orDefault50 (readConfidence h2 l)) ->
  rank h1 cards = rank h2 cards.
Proof.
  intros Hread. unfold rank. apply imap_ext. intros i l _. simpl. by rewrite Hread.
Qed.

Lemma getNextCard_ext h1 h2 s r :
  (forall l, orDefault50 (readConfidence h1 l) = orDefault50 (readConfidence h2 l)) ->
  getNextCard s h1 r = getNextCard s h2 r.
Proof.
  intros Hread. unfold getNextCard, lowConfidencePool, sortedByConfidence.
  by rewrite (rank_ext h1 h2).
Qed.

Lemma foldl_sum_ext (f g : loc -> Z) cards a :
  (forall l, f l = g l) ->
  foldl (fun sum l => sum + f l) a cards = foldl (fun sum l => sum + g l) a cards.
Proof.
  intros Hfg. revert a. induction cards as [|l cards IH]; intros a; simpl; [done|].
  by rewrite Hfg, IH.
Qed.

Lemma avgConfidence_ext h1 h2 s :
  (forall l, orDefault50 (readConfidence h1 l) = orDefault50 (readConfidence h2 l)) ->
  avgConfidence s h1 = avgConfidence s h2.
Proof.
  intros Hread. unfold avgConfidence.
  by rewrite (foldl_sum_ext _ (fun l => orDefault50 (readConfidence h2 l))).
Qed.

Lemma stored_zero_reads_like_50 h l c l' :
  h !! l = Some c ->
  confidence c = Some 0 ->
  orDefault50 (readConfidence h l') =
  orDefault50 (readConfidence (<[l := withConfidence 50 c]> h) l').
Proof.
  intros Hl Hc. destruct (decide (l = l')) as [<-|Hne].
  - rewrite readConfidence_insert_eq by (by eapply lookup_lt_Some).
    unfold readConfidence. rewrite Hl. simpl. by rewrite Hc.
  - by rewrite readConfidence_insert_ne.
Qed.

(** ** Next-card selection *)

Lemma poolSize_bounds n : (0 < n -> 1 <= poolSize n <= n)%nat.
Proof.
  intros Hn. unfold poolSize.
  assert (2 * n / 5 <= n)%nat by (apply Nat.Div0.div_le_upper_bound; lia). lia.
Qed.

Lemma randomIndex_lt r len :
  0 <= r < 2 ^ 53 -> (0 < len)%nat -> (randomIndex r len < len)%nat.
Proof.
  intros Hr Hlen. unfold randomIndex.
  assert (0 <= r * Z.of_nat len / 2 ^ 53 < Z.of_nat len); [|lia].
  split; [apply Z.div_pos; lia|].
  apply Z.div_lt_upper_bound; [lia|]. nia.
Qed.

Lemma length_rank h cards : length (rank h cards) = length cards.
Proof. unfold rank. apply length_imap. Qed.

Lemma sortedByConfidence_Permutation h cards :
  sortedByConfidence h cards ≡ₚ rank h cards.
Proof. apply arraySort_Permutation. Qed.

Lemma sortedByConfidence_StronglySorted h cards :
  StronglySorted (ascendingBy rankConfidence) (sortedByConfidence h cards).
Proof. by apply (arraySort_StronglySorted rankConfidence byConfidence). Qed.

Lemma length_lowConfidencePool h cards :
  cards ≠ [] -> length (lowConfidencePool h cards) = poolSize (length cards).
Proof.
  intros Hne. unfold lowConfidencePool. rewrite length_take.
  rewrite (Permutation_length (sortedByConfidence_Permutation h cards)), length_rank.
  destruct cards; [done|]. pose proof (poolSize_bounds (length (n :: cards))). simpl in *. lia.
Qed.

(** Every element of the ranking is a position of the working set with the
    key read from the card stored there. *)
Lemma elem_of_rank h cards e :
  e ∈ rank h cards <->
  cards !! idx e = Some (card e)
  /\ rankConfidence e = orDefault50 (readConfidence h (card e)).
Proof.
  unfold rank. rewrite list_elem_of_lookup. split.
  - intros (i & Hi). rewrite list_lookup_imap in Hi.
    destruct (cards !! i) as [l|] eqn:Hl; [|done]. simpl in Hi.
    injection Hi as <-. simpl. done.
  - intros (Hl & Hk). exists (idx e). rewrite list_lookup_imap, Hl. simpl.
    destruct e; simpl in *. by rewrite Hk.
Qed.

Lemma idx_rank h cards : idx <$> rank h cards = seq 0 (length cards).
Proof.
  apply list_eq. intros i. unfold rank.
  rewrite list_lookup_fmap, list_lookup_imap.
  destruct (cards !! i) as [l|] eqn:Hl; simpl.
  - symmetry. apply lookup_seq. split; [done|]. by eapply lookup_lt_Some.
  - symmetry. apply lookup_seq_ge. by apply lookup_ge_None.
Qed.

(** With spaced repetition off the next card is the following one, cyclically,
    whatever the store and the draw. *)
Theorem getNextCard_sequential s h r i :
  spacedRepetition s = false ->
  currentIndex s = Idx i ->
  flashcards s ≠ [] ->
  getNextCard s h r = Some (Idx ((i + 1) mod length (flashcards s))).
Proof.
  intros Hoff Hi Hne. unfold getNextCard. rewrite Hoff, Hi. simpl.
  by destruct (flashcards s).
Qed.

(** With spaced repetition on the next card is a member of the pool, and
    the pool is the first [poolSize] elements of the ranking sorted by
    ascending key: no card left out has a smaller key than a card in it. *)
Theorem getNextCard_spaced s h r :
  spacedRepetition s = true ->
  flashcards s ≠ [] ->
  0 <= r < 2 ^ 53 ->
  exists e,
    getNextCard s h r = Some (Idx (idx e))
    /\ e ∈ lowConfidencePool h (flashcards s)
    /\ length (lowConfidencePool h (flashcards s)) = Nat.max 1 (2 * length (flashcards s) / 5)
    /\ exists rest,
         lowConfidencePool h (flashcards s) ++ rest ≡ₚ rank h (flashcards s)
         /\ forall a b, a ∈ lowConfidencePool h (flashcards s) -> b ∈ rest ->
              rankConfidence a <= rankConfidence b.
Proof.
  intros Hon Hne Hr.
  pose proof (length_lowConfidencePool h (flashcards s) Hne) as Hlen.
  assert (0 < length (lowConfidencePool h (flashcards s)))%nat as Hpos.
  { rewrite Hlen. destruct (flashcards s); [done|].
    pose proof (poolSize_bounds (length (n :: l))). simpl in *. lia. }
  destruct (lookup_lt_is_Some_2 _ _ (randomIndex_lt r _ Hr Hpos)) as [e He].
  exists e. split; [|split; [|split]].
  - unfold getNextCard. rewrite Hon. simpl. by rewrite He.
  - apply list_elem_of_lookup. eauto.
  - exact Hlen.
  - exists (drop (poolSize (length (flashcards s))) (sortedByConfidence h (flashcards s))).
    split.
    + unfold lowConfidencePool. rewrite take_drop. apply sortedByConfidence_Permutation.
    + intros a b Ha Hb.
      exact (sorted_take_le_drop rankConfidence _ _ _ _
               (sortedByConfidence_StronglySorted h (flashcards s)) Ha Hb).
Qed.

Lemma rankingKeys_lookup h cards e :
  e ∈ rank h cards -> rankingKeys h cards !! idx e = Some (rankConfidence e).
Proof.
  rewrite elem_of_rank. intros [Hl Hk]. unfold rankingKeys.
  by rewrite list_lookup_fmap, Hl, Hk.
Qed.

Lemma lowConfidencePool_positions h cards e :
  e ∈ lowConfidencePool h cards ->
  cards !! idx e = Some (card e)
  /\ (idx e < length cards)%nat
  /\ rankConfidence e = orDefault50 (readConfidence h (card e)).
Proof.
  intros He. unfold lowConfidencePool in He. apply elem_of_take in He as (i & He & _).
  assert (e ∈ rank h cards) as Hrank.
  { rewrite <- (sortedByConfidence_Permutation h cards). apply list_elem_of_lookup. eauto. }
  apply elem_of_rank in Hrank as [Hcard Hkey].
  split; [done|]. split; [by eapply lookup_lt_Some|done].
Qed.

(** The positions in the pool are a lowest-confidence pool in the sense of
    the specification, for the keys the ranking reads. *)
Theorem lowConfidencePool_lowest_keys h cards :
  cards ≠ [] ->
  Spec.isLowestPool (rankingKeys h cards) (idx <$> lowConfidencePool h cards).
Proof.
  intros Hne.
  set (k := poolSize (length cards)).
  set (sorted := sortedByConfidence h cards).
  assert (idx <$> sorted ≡ₚ seq 0 (length cards)) as Hperm.
  { rewrite <- (idx_rank h). apply fmap_Permutation, sortedByConfidence_Permutation. }
  assert (NoDup (idx <$> sorted)) as Hnodup.
  { rewrite Hperm. apply NoDup_seq. }
  assert (idx <$> sorted = (idx <$> take k sorted) ++ (idx <$> drop k sorted)) as Hsplit.
  { by rewrite <- fmap_app, take_drop. }
  split; [|split].
  - rewrite Hsplit in Hnodup. by apply NoDup_app in Hnodup as (? & _ & _).
  - rewrite length_fmap, length_lowConfidencePool by done.
    unfold rankingKeys. by rewrite length_fmap.
  - intros i j ci cj Hi Hj Hci Hcj.
    apply list_elem_of_fmap in Hi as (a & -> & Ha).
    assert (j ∈ idx <$> sorted) as Hjs.
    { rewrite Hperm. apply elem_of_seq. split; [lia|]. simpl.
      apply lookup_lt_Some in Hcj. unfold rankingKeys in Hcj.
      by rewrite length_fmap in Hcj. }
    rewrite Hsplit in Hjs. apply elem_of_app in Hjs as [Hjs|Hjs]; [done|].
    apply list_elem_of_fmap in Hjs as (b & -> & Hb).
    assert (a ∈ rank h cards) as Har.
    { rewrite <- (sortedByConfidence_Permutation h cards).
      exact (subseteq_take _ _ _ Ha). }
    assert (b ∈ rank h cards) as Hbr.
    { rewrite <- (sortedByConfidence_Permutation h cards).
      exact (subseteq_drop _ _ _ Hb). }
    rewrite (rankingKeys_lookup _ _ _ Har) in Hci.
    rewrite (rankingKeys_lookup _ _ _ Hbr) in Hcj.
    injection Hci as <-. injection Hcj as <-.
    exact (sorted_take_le_drop rankConfidence _ _ _ _
             (sortedByConfidence_StronglySorted h cards) Ha Hb).
Qed.

(** When no stored confidence is 0 or missing, the ranking keys are the
    stored confidences themselves. *)
Lemma rankingKeys_stored h cards :
  Forall (fun l => exists c, readConfidence h l = Some c /\ c ≠ 0) cards ->
  Some <$> rankingKeys h cards = readConfidence h <$> cards.
Proof.
  induction 1 as [|l cards (c & Hc & Hnz) _ IH]; [done|].
  unfold rankingKeys in *. rewrite !fmap_cons, IH, Hc. by rewrite orDefault50_nonzero.
Qed.

(** The example of the specification: for the confidences 10, 20, 30, 80, 90
    the pool is the two cards with 10 and 20, and the card with 90 is never
    selected. *)
Theorem getNextCard_example_10_20_30_80_90 :
  let w := sessionWith [10; 20; 30; 80; 90] in
  poolSize 5 = 2%nat
  /\ idx <$> lowConfidencePool (heap w) (flashcards (ui w)) = [0; 1]%nat
  /\ forall r, 0 <= r < 2 ^ 53 ->
       (getNextCard (ui w) (heap w) r = Some (Idx 0)
        \/ getNextCard (ui w) (heap w) r = Some (Idx 1))
       /\ getNextCard (ui w) (heap w) r ≠ Some (Idx 4).
Proof.
  intros w. split; [done|]. split; [by vm_compute|]. intros r Hr.
  destruct (getNextCard_spaced (ui w) (heap w) r eq_refl) as (e & -> & He & _);
    [done|done|].
  assert (idx e = 0 \/ idx e = 1)%nat as [-> | ->]; [|by auto..].
  vm_compute in He. apply elem_of_cons in He as [->|He]; [by left|].
  apply elem_of_cons in He as [->|He]; [by right|]. by apply elem_of_nil in He.
Qed.

(** Of the stored confidences 0, 25, 25, 70, 70 the first two positions are
    a lowest-confidence pool; the second and third are not. *)
Lemma lowest_pool_of_sample :
  Spec.isLowestPool [0; 25; 25; 70; 70] [0; 1]%nat
  /\ ¬ Spec.isLowestPool [0; 25; 25; 70; 70] [1; 2]%nat.
Proof.
  split.
  - split; [|split; [done|]].
    + repeat constructor; rewrite ?elem_of_cons, ?elem_of_nil; lia.
    + intros i j ci cj Hi Hj Hci Hcj.
      rewrite !elem_of_cons, elem_of_nil in Hi.
      rewrite !elem_of_cons, elem_of_nil in Hj.
      destruct j as [|[|[|[|[|j]]]]]; simpl in Hcj; try lia; try done;
        injection Hcj as <-;
        (destruct Hi as [->|[->|[]]]; injection Hci as <-; lia).
  - intros (_ & _ & Hlow).
    assert (25 <= 0); [|lia].
    apply (Hlow 1%nat 0%nat); [| |done|done].
    + apply elem_of_cons; by left.
    + rewrite !elem_of_cons, elem_of_nil. lia.
Qed.

(** C2.  In the five-card session, after a first round that leaves the
    stored confidences 25, 25, 25, 70, 70, the first card is missed once more
    and holds 0.  The pool the selection then draws from consists of the
    second and third card: the card with the lowest confidence of all is
    ranked as if it held 50 and is left out.  The two positions are not a
    lowest-confidence pool of the stored confidences; the first two are. *)
Theorem C2_pool_leaves_out_the_card_at_zero :
  (w ← run (afterFirstRound ++ answered false) fiveCardSession;
   Some (confidences w, spacedRepetition (ui w),
         idx <$> lowConfidencePool (heap w) (flashcards (ui w))))
    = Some ([Some 0; Some 25; Some 25; Some 70; Some 70], true, [1; 2]%nat)
  /\ ¬ Spec.isLowestPool [0; 25; 25; 70; 70] [1; 2]%nat
  /\ Spec.isLowestPool [0; 25; 25; 70; 70] [0; 1]%nat.
Proof.
  split; [by vm_compute|].
  destruct lowest_pool_of_sample as [Hlow Hnot]. done.
Qed.

(** ** Answering, then advancing *)

(** [handleAnswer] updates the card object in place and leaves the closure
    of its own render pending.  When that closure later ranks the array it
    captured, the entry of the answered card carries the confidence stored
    by the update, read through [|| 50]: the array is the old one, the card
    object in it is the updated one. *)
Theorem advance_ranks_updated_card s isCorrect now w l c :
  at_index (flashcards s) (currentIndex s) = Some l ->
  heap w !! l = Some c ->
  exists w1,
    handleAnswer s isCorrect now w = Some w1
    /\ timers w1 = timers w ++ [s]
    /\ readConfidence (heap w1) l = Some (updatedConfidence isCorrect (confidence c))
    /\ (forall i, flashcards s !! i = Some l ->
          rank (heap w1) (flashcards s) !! i =
            Some {| card := l; idx := i;
                    rankConfidence :=
                      orDefault50 (Some (updatedConfidence isCorrect (confidence c))) |})
    /\ forall r, advance s r w1 =
         (nextIdx ← getNextCard s (heap w1) r;
          Some (onUi (setUserAnswer []) (onUi (setShowAnswer false)
                  (onUi (setCurrentIndex nextIdx) w1)))).
Proof.
  intros Hl Hc. unfold handleAnswer.
  set (w0 := if isCorrect then onUi (setCorrectCount (correctCount s + 1)) w else w).
  assert (heap w0 = heap w) as Hheap by (unfold w0; by destruct isCorrect).
  assert (timers w0 = timers w) as Htimers by (unfold w0; by destruct isCorrect).
  rewrite <- Hheap in Hc.
  destruct (updateConfidence_effect s isCorrect now w0 l c Hl Hc)
    as (w1 & Hw1 & Hconf & _).
  rewrite Hw1. simpl. eexists. split; [done|].
  rewrite (updateConfidence_Some s isCorrect now w0 l c Hl Hc) in Hw1.
  injection Hw1 as <-. simpl in *.
  split; [by rewrite Htimers|]. split; [done|]. split; [|done].
  intros i Hi. unfold rank. rewrite list_lookup_imap, Hi. simpl. by rewrite Hconf.
Qed.



(** After a correct answer on the first of five cards at 25, 25, 25, 70, 70
    the pending selection ranks that card at 45 and draws from the second
    and third card; after an incorrect one the card holds 0, which the
    ranking reads as 50. *)
Example selection_after_an_answer :
  (w1 ← handleAnswer (ui (sessionWith [25; 25; 25; 70; 70])) true 1700000002000
          (sessionWith [25; 25; 25; 70; 70]);
   closure ← head (timers w1);
   Some (confidences w1, rankConfidence <$> rank (heap w1) (flashcards closure),
         idx <$> lowConfidencePool (heap w1) (flashcards closure)))
    = Some ([Some 45; Some 25; Some 25; Some 70; Some 70], [45; 25; 25; 70; 70],
            [1; 2]%nat)
  /\ (w1 ← handleAnswer (ui (sessionWith [25; 25; 25; 70; 70])) false 1700000002000
             (sessionWith [25; 25; 25; 70; 70]);
      closure ← head (timers w1);
      Some (confidences w1, rankConfidence <$> rank (heap w1) (flashcards closure)))
    = Some ([Some 0; Some 25; Some 25; Some 70; Some 70], [50; 25; 25; 70; 70]).
Proof. split; by vm_compute. Qed.

(** ** Aggregate confidence *)

Lemma foldl_sum_foldr (f : loc -> Z) cards a :
  foldl (fun sum l => sum + f l) a cards = a + foldr Z.add 0 (f <$> cards).
Proof.
  revert a. induction cards as [|l cards IH]; intros a; [simpl; lia|].
  rewrite fmap_cons. cbn [foldl foldr]. rewrite IH. lia.
Qed.

(** The average is the rounded mean of the keys read through [|| 50]. *)
Lemma avgConfidence_rankingKeys s h :
  flashcards s ≠ [] ->
  avgConfidence s h = Some (Spec.roundedMean (rankingKeys h (flashcards s))).
Proof.
  intros Hne. unfold avgConfidence, Spec.roundedMean, rankingKeys.
  rewrite foldl_sum_foldr, length_fmap.
  destruct (Z.eqb_spec (Z.of_nat (length (flashcards s))) 0) as [Hz|_].
  - destruct (flashcards s); [done|simpl in Hz; lia].
  - by rewrite Z.add_0_l.
Qed.

Lemma sum_bounds (cs : list Z) lo hi :
  Forall (fun c => lo <= c <= hi) cs ->
  lo * Z.of_nat (length cs) <= foldr Z.add 0 cs <= hi * Z.of_nat (length cs).
Proof.
  induction 1 as [|c cs Hc _ IH]; simpl; [lia|].
  rewrite Nat2Z.inj_succ. lia.
Qed.

Lemma roundedMean_range (cs : list Z) :
  cs ≠ [] -> Forall (fun c => 0 <= c <= 100) cs ->
  0 <= Spec.roundedMean cs <= 100.
Proof.
  intros Hne Hcs. unfold Spec.roundedMean.
  pose proof (sum_bounds cs 0 100 Hcs) as Hsum.
  assert (0 < Z.of_nat (length cs)) by (destruct cs; [done|simpl; lia]).
  split; [apply Z.div_pos; lia|].
  apply Z.lt_succ_r, Z.div_lt_upper_bound; lia.
Qed.

(** The average of a non-empty working set whose stored confidences lie
    within 0..100 lies within 0..100. *)
Theorem avgConfidence_range s h :
  flashcards s ≠ [] ->
  Forall (fun l => forall c, readConfidence h l = Some c -> 0 <= c <= 100) (flashcards s) ->
  exists a, avgConfidence s h = Some a /\ 0 <= a <= 100.
Proof.
  intros Hne Hrange. eexists. split; [by apply avgConfidence_rankingKeys|].
  apply roundedMean_range.
  - unfold rankingKeys. by destruct (flashcards s).
  - unfold rankingKeys. apply Forall_fmap. eapply Forall_impl; [exact Hrange|].
    intros l Hl. simpl. destruct (readConfidence h l) as [c|] eqn:Hc.
    + pose proof (orDefault50_range c (Hl c Hc)). lia.
    + simpl. lia.
Qed.

(** When no stored confidence is 0 or missing, the average is the rounded
    mean of the stored confidences. *)
Theorem avgConfidence_mean_of_stored s h cs :
  flashcards s ≠ [] ->
  readConfidence h <$> flashcards s = Some <$> cs ->
  Forall (fun c => c ≠ 0) cs ->
  avgConfidence s h = Some (Spec.roundedMean cs).
Proof.
  intros Hne Hcs Hnz. rewrite avgConfidence_rankingKeys by done.
  do 2 f_equal. unfold rankingKeys.
  revert cs Hcs Hnz. induction (flashcards s) as [|l cards IH]; intros cs Hcs Hnz.
  - by destruct cs.
  - destruct cs as [|c cs]; [done|]. rewrite !fmap_cons in *.
    injection Hcs as Hl Hcs. inversion_clear Hnz as [|? ? Hc Hnz'].
    rewrite Hl, orDefault50_nonzero by done. f_equal.
    destruct cards as [|l' cards'].
    + by destruct cs.
    + by apply IH.
Qed.

(** ** A stored 0 is read as 50 *)

Lemma rankingKeys_stored_values h cards cs :
  readConfidence h <$> cards = Some <$> cs ->
  rankingKeys h cards = (fun c => if c =? 0 then 50 else c) <$> cs.
Proof.
  unfold rankingKeys. revert cs. induction cards as [|l cards IH]; intros cs Hcs.
  - by destruct cs.
  - destruct cs as [|c cs]; [done|]. rewrite !fmap_cons in *.
    injection Hcs as Hl Hcs. rewrite Hl. cbn [orDefault50]. f_equal. by apply IH.
Qed.

(** C10.  A card whose stored confidence is exactly 0 is read as 50
    everywhere.  Answered correctly it goes to 70, answered incorrectly to
    25.  The ranking gives it the key 50; the sorted ranking is the ranking
    in ascending order of these keys, the pool is its first
    max(1, floor(0.4 n)) entries and the selection returns a position from
    the pool, so pool and selection are those of the store in which the
    card holds 50.  The aggregate is the rounded mean of the stored
    confidences with 50 in the place of every 0, the one of the store in
    which the card holds 50. *)
Theorem C10_stored_zero_is_read_as_50 (s s2 : State) (w : World) (l : loc)
    (c : Flashcard) (now r : Z) :
  heap w !! l = Some c ->
  confidence c = Some 0 ->
  at_index (flashcards s) (currentIndex s) = Some l ->
  let h50 := <[l := withConfidence 50 c]> (heap w) in
  (exists w', updateConfidence s true now w = Some w'
              /\ readConfidence (heap w') l = Some (Z.min 100 (50 + 20))
              /\ readConfidence (heap w') l = Some 70)
  /\ (exists w', updateConfidence s false now w = Some w'
                 /\ readConfidence (heap w') l = Some (Z.max 0 (50 - 25))
                 /\ readConfidence (heap w') l = Some 25)
  /\ (forall i, flashcards s2 !! i = Some l ->
        rank (heap w) (flashcards s2) !! i
          = Some {| card := l; idx := i; rankConfidence := 50 |})
  /\ lowConfidencePool (heap w) (flashcards s2) = lowConfidencePool h50 (flashcards s2)
  /\ getNextCard s2 (heap w) r = getNextCard s2 h50 r
  /\ avgConfidence s2 (heap w) = avgConfidence s2 h50
  /\ sortedByConfidence (heap w) (flashcards s2) ≡ₚ rank (heap w) (flashcards s2)
  /\ StronglySorted (ascendingBy rankConfidence)
       (sortedByConfidence (heap w) (flashcards s2))
  /\ (forall e, e ∈ sortedByConfidence (heap w) (flashcards s2) -> card e = l ->
        rankConfidence e = 50)
  /\ lowConfidencePool (heap w) (flashcards s2)
     = take (Nat.max 1 (2 * length (flashcards s2) / 5))
         (sortedByConfidence (heap w) (flashcards s2))
  /\ (spacedRepetition s2 = true -> flashcards s2 ≠ [] -> 0 <= r < 2 ^ 53 ->
      exists e, getNextCard s2 (heap w) r = Some (Idx (idx e))
                /\ e ∈ lowConfidencePool (heap w) (flashcards s2))
  /\ (flashcards s2 ≠ [] ->
      avgConfidence s2 (heap w)
      = Some (Spec.roundedMean
                ((fun l' => if decide (l' = l) then 50
                            else orDefault50 (readConfidence (heap w) l'))
                   <$> flashcards s2)))
  /\ (forall cs, flashcards s2 ≠ [] ->
        readConfidence (heap w) <$> flashcards s2 = Some <$> cs ->
        avgConfidence s2 (heap w)
        = Some (Spec.roundedMean ((fun c => if c =? 0 then 50 else c) <$> cs))).
Proof.
  intros Hl Hc Hcur h50.
  pose proof (stored_zero_reads_like_50 (heap w) l c) as Hread.
  assert (orDefault50 (readConfidence (heap w) l) = 50) as Hkey.
  { unfold readConfidence. rewrite Hl. simpl. by rewrite Hc. }
  split; [|split; [|split; [|split; [|split; [|split; [|split; [|split;
    [|split; [|split; [|split; [|split]]]]]]]]]]].
  - destruct (updateConfidence_effect s true now w l c Hcur Hl) as (w' & Hw' & Hconf & _).
    exists w'. rewrite Hconf, Hc. done.
  - destruct (updateConfidence_effect s false now w l c Hcur Hl) as (w' & Hw' & Hconf & _).
    exists w'. rewrite Hconf, Hc. done.
  - intros i Hi. unfold rank. rewrite list_lookup_imap, Hi. simpl.
    unfold readConfidence. rewrite Hl. simpl. by rewrite Hc.
  - unfold lowConfidencePool, sortedByConfidence.
    by rewrite (rank_ext (heap w) h50) by (intros; by apply Hread).
  - apply getNextCard_ext. intros; by apply Hread.
  - apply avgConfidence_ext. intros; by apply Hread.
  - apply sortedByConfidence_Permutation.
  - apply sortedByConfidence_StronglySorted.
  - intros e He Hcard.
    rewrite (sortedByConfidence_Permutation (heap w) (flashcards s2)) in He.
    apply elem_of_rank in He as [_ ->]. by rewrite Hcard.
  - reflexivity.
  - intros Hon Hne Hr.
    destruct (getNextCard_spaced s2 (heap w) r Hon Hne Hr) as (e & Hnext & He & _).
    by exists e.
  - intros Hne. rewrite avgConfidence_rankingKeys by done. do 2 f_equal.
    unfold rankingKeys. apply list_fmap_ext. intros i l' _.
    destruct (decide (l' = l)) as [->|_]; [exact Hkey|done].
  - intros cs Hne Hcs. rewrite avgConfidence_rankingKeys by done.
    by rewrite (rankingKeys_stored_values _ _ cs).
Qed.

Lemma C10_stored_zero_is_read_as_50_witness :
  let w := sessionWith [0; 30] in
  let s2 := ui w in
  let l := 0%nat in
  let r := 0 in
  let h50 := <[0%nat := withConfidence 50 (sampleCard 0)]> (heap w) in
  (exists w', updateConfidence (ui w) true 7 w = Some w'
              /\ readConfidence (heap w') 0%nat = Some (Z.min 100 (50 + 20))
              /\ readConfidence (heap w') 0%nat = Some 70)
  /\ (exists w', updateConfidence (ui w) false 7 w = Some w'
                 /\ readConfidence (heap w') 0%nat = Some (Z.max 0 (50 - 25))
                 /\ readConfidence (heap w') 0%nat = Some 25)
  /\ (forall i, flashcards s2 !! i = Some l ->
        rank (heap w) (flashcards s2) !! i
          = Some {| card := l; idx := i; rankConfidence := 50 |})
  /\ lowConfidencePool (heap w) (flashcards s2) = lowConfidencePool h50 (flashcards s2)
  /\ getNextCard s2 (heap w) r = getNextCard s2 h50 r
  /\ avgConfidence s2 (heap w) = avgConfidence s2 h50
  /\ sortedByConfidence (heap w) (flashcards s2) ≡ₚ rank (heap w) (flashcards s2)
  /\ StronglySorted (ascendingBy rankConfidence)
       (sortedByConfidence (heap w) (flashcards s2))
  /\ (forall e, e ∈ sortedByConfidence (heap w) (flashcards s2) -> card e = l ->
        rankConfidence e = 50)
  /\ lowConfidencePool (heap w) (flashcards s2)
     = take (Nat.max 1 (2 * length (flashcards s2) / 5))
         (sortedByConfidence (heap w) (flashcards s2))
  /\ (spacedRepetition s2 = true -> flashcards s2 ≠ [] -> 0 <= r < 2 ^ 53 ->
      exists e, getNextCard s2 (heap w) r = Some (Idx (idx e))
                /\ e ∈ lowConfidencePool (heap w) (flashcards s2))
  /\ (flashcards s2 ≠ [] ->
      avgConfidence s2 (heap w)
      = Some (Spec.roundedMean
                ((fun l' => if decide (l' = l) then 50
                            else orDefault50 (readConfidence (heap w) l'))
                   <$> flashcards s2)))
  /\ (forall cs, flashcards s2 ≠ [] ->
        readConfidence (heap w) <$> flashcards s2 = Some <$> cs ->
        avgConfidence s2 (heap w)
        = Some (Spec.roundedMean ((fun c => if c =? 0 then 50 else c) <$> cs))).
Proof.
  exact (C10_stored_zero_is_read_as_50 (ui (sessionWith [0; 30])) (ui (sessionWith [0; 30]))
           (sessionWith [0; 30]) 0%nat (sampleCard 0) 7 0 eq_refl eq_refl eq_refl).
Defined.

(** The working set with the stored confidences 0 and 30: the card at 0 is
    ranked behind the card at 30 and the aggregate is 40, the rounded mean
    of 50 and 30. *)
Example stored_zero_in_a_session :
  idx <$> sortedByConfidence (heap (sessionWith [0; 30])) (flashcards (ui (sessionWith [0; 30])))
    = [1; 0]%nat
  /\ getNextCard (ui (sessionWith [0; 30])) (heap (sessionWith [0; 30])) 0 = Some (Idx 1)
  /\ avgConfidence (ui (sessionWith [0; 30])) (heap (sessionWith [0; 30])) = Some 40.
Proof. repeat split; by vm_compute. Qed.

(** C8.  In the five-card session whose stored confidences are
    0, 25, 25, 70, 70 the component shows the aggregate 48, the mean of
    50, 25, 25, 70, 70; the arithmetic mean of the cards' confidences is
    38.  For the single stored confidence 0 it shows 50. *)
Theorem C8_average_counts_zero_as_50 :
  (w ← run (afterFirstRound ++ answered false) fiveCardSession;
   a ← avgConfidence (ui w) (heap w);
   Some (confidences w, a))
    = Some ([Some 0; Some 25; Some 25; Some 70; Some 70], 48)
  /\ Spec.roundedMean [0; 25; 25; 70; 70] = 38
  /\ avgConfidence (ui (sessionWith [0])) (heap (sessionWith [0])) = Some 50
  /\ Spec.roundedMean [0] = 0.
Proof. repeat split; by vm_compute. Qed.

(** ** Session initialisation *)

(** Objects allocated at the end of the store are found through their
    references. *)
Lemma deref_alloc (h cs : list Flashcard) :
  deref (h ++ cs) (seq (length h) (length cs)) = Some <$> cs.
Proof.
  apply list_eq. intros i. unfold deref. rewrite !list_lookup_fmap.
  destruct (cs !! i) as [c|] eqn:Hc; simpl.
  - rewrite (lookup_seq_lt _ _ _ (lookup_lt_Some _ _ _ Hc)). simpl.
    rewrite lookup_app_r by lia. replace (length h + i - length h)%nat with i by lia.
    by rewrite Hc.
  - by rewrite (lookup_seq_ge _ _ _ (proj1 (lookup_ge_None _ _) Hc)).
Qed.

Lemma titleOfSet_data db setId title :
  data (titleOfSet db setId) = Some title -> titleOfSet db setId = mkResponse (Some title) None.
Proof.
  unfold titleOfSet.
  destruct (filter _ (flashcard_sets db)) as [|row [|row' rows]]; simpl;
    intros Htitle; by simplify_eq.
Qed.

Lemma cardsOfSet_Permutation db setId :
  cardsOfSet db setId ≡ₚ filter (fun row => row_set_id row = setId) (flashcards_table db).
Proof. apply arraySort_Permutation. Qed.

Lemma cardsOfSet_StronglySorted db setId :
  StronglySorted (ascendingBy position) (cardsOfSet db setId).
Proof. by apply (arraySort_StronglySorted position byPosition). Qed.

(** What a load that succeeds leaves behind. *)
Lemma fetchSetAndCards_loaded setId b nows w title row rows :
  selectTitle b setId = mkResponse (Some title) None ->
  selectCards b setId = mkResponse (Some (row :: rows)) None ->
  fetchSetAndCards setId b nows w =
    let cards := imap (fun i r => withMetrics (nows i) r) (row :: rows) in
    onUi (setIsLoading false)
      (onUi (setFlashcards (seq (length (heap w)) (length cards)))
         (onHeap (fun h => h ++ cards)
            (send (SelectCards setId)
               (onUi (setSetTitle title) (send (SelectTitle setId) w))))).
Proof. intros Ht Hc. unfold fetchSetAndCards. rewrite Ht, Hc. reflexivity. Qed.

(** C4.  When the set exists and has cards, the load succeeds: the working
    set is the set's rows in the order of their stored position, one card
    object per row with the row's id, term and definition, confidence 50
    and as [lastSeen] the time read when the card was created. *)
Theorem C4_working_set_in_position_order_with_metrics
    (db : Database) (setId : string) (nows : nat -> Z) (w : World) (title : list N) :
  data (titleOfSet db setId) = Some title ->
  cardsOfSet db setId ≠ [] ->
  let w' := fetchSetAndCards setId (serving db) nows w in
  let rows := cardsOfSet db setId in
  deref (heap w') (flashcards (ui w'))
    = Some <$> imap (fun i row => withMetrics (nows i) row) rows
  /\ rows ≡ₚ filter (fun row => row_set_id row = setId) (flashcards_table db)
  /\ StronglySorted (ascendingBy position) rows
  /\ length (flashcards (ui w')) = length rows
  /\ (forall i l, flashcards (ui w') !! i = Some l ->
        exists c row,
          heap w' !! l = Some c /\ rows !! i = Some row
          /\ id c = row_id row /\ term c = row_term row
          /\ definition c = row_definition row
          /\ confidence c = Some 50 /\ lastSeen c = Some (nows i))
  /\ toasts w' = toasts w /\ navigations w' = navigations w
  /\ setTitle (ui w') = title /\ isLoading (ui w') = false.
Proof.
  intros Htitle Hne w' rows.
  apply titleOfSet_data in Htitle.
  pose proof (cardsOfSet_Permutation db setId) as Hperm.
  pose proof (cardsOfSet_StronglySorted db setId) as Hsorted.
  assert (selectCards (serving db) setId = mkResponse (Some rows) None) as Hcards by done.
  fold rows in Hperm, Hsorted, Hne. clearbody rows.
  destruct rows as [|row rows']; [done|].
  pose proof (fetchSetAndCards_loaded setId (serving db) nows w title row rows'
                Htitle Hcards) as Hw'.
  fold w' in Hw'. clearbody w'. subst w'.
  cbv zeta. cbn [heap ui onUi onHeap send flashcards setFlashcards setIsLoading
                 setSetTitle toasts navigations setTitle isLoading].
  set (cards := imap (fun i r => withMetrics (nows i) r) (row :: rows')).
  pose proof (deref_alloc (heap w) cards) as Hderef.
  split; [exact Hderef|]. split; [exact Hperm|]. split; [exact Hsorted|].
  split; [unfold cards; by rewrite length_seq, length_imap|].
  split; [|done].
  intros i l Hl.
  assert (deref (heap w ++ cards) (seq (length (heap w)) (length cards)) !! i
          = Some ((heap w ++ cards) !! l)) as Hi.
  { unfold deref. by rewrite list_lookup_fmap, Hl. }
  rewrite Hderef in Hi. unfold cards in Hi at 1.
  rewrite list_lookup_fmap, list_lookup_imap in Hi.
  destruct ((row :: rows') !! i) as [r|] eqn:Hr; [|done].
  simpl in Hi. injection Hi as Hi. exists (withMetrics (nows i) r), r. by rewrite <- Hi.
Qed.

Lemma C4_working_set_in_position_order_with_metrics_witness :
  let w' := fetchSetAndCards "set-1" (serving fiveCardDb) sampleClock initialWorld in
  let rows := cardsOfSet fiveCardDb "set-1" in
  deref (heap w') (flashcards (ui w'))
    = Some <$> imap (fun i row => withMetrics (sampleClock i) row) rows
  /\ rows ≡ₚ filter (fun row => row_set_id row = "set-1") (flashcards_table fiveCardDb)
  /\ StronglySorted (ascendingBy position) rows
  /\ length (flashcards (ui w')) = length rows
  /\ (forall i l, flashcards (ui w') !! i = Some l ->
        exists c row,
          heap w' !! l = Some c /\ rows !! i = Some row
          /\ id c = row_id row /\ term c = row_term row
          /\ definition c = row_definition row
          /\ confidence c = Some 50 /\ lastSeen c = Some (sampleClock i))
  /\ toasts w' = toasts initialWorld /\ navigations w' = navigations initialWorld
  /\ setTitle (ui w') = js "Five" /\ isLoading (ui w') = false.
Proof.
  apply (C4_working_set_in_position_order_with_metrics fiveCardDb "set-1" sampleClock
           initialWorld (js "Five")).
  - reflexivity.
  - vm_compute. discriminate.
Defined.

Example empty_set_is_reported :
  let w := fetchSetAndCards "set-1" (serving emptySetDb) sampleClock initialWorld in
  toasts w = [ToastError "This set has no flashcards"]
  /\ navigations w = ["/"] /\ flashcards (ui w) = [] /\ isLoading (ui w) = false.
Proof. by vm_compute. Qed.

Example fiveCardSession_order :
  id <$> heap fiveCardSession = ["a"; "b"; "c"; "d"; "e"]
  /\ flashcards (ui fiveCardSession) = [0; 1; 2; 3; 4]%nat
  /\ confidences fiveCardSession = [Some 50; Some 50; Some 50; Some 50; Some 50].
Proof. by vm_compute. Qed.

Lemma failureOf_serving_not_found db setId :
  filter (fun row => row.1 = setId) (flashcard_sets db) = [] ->
  failureOf (serving db) setId = Some Spec.NotFound.
Proof. intros Hnone. unfold failureOf. simpl. unfold titleOfSet. by rewrite Hnone. Qed.

Lemma failureOf_serving_empty db setId row :
  filter (fun row => row.1 = setId) (flashcard_sets db) = [row] ->
  filter (fun row => row_set_id row = setId) (flashcards_table db) = [] ->
  failureOf (serving db) setId = Some Spec.Empty.
Proof.
  intros Hone Hnone. unfold failureOf. simpl. unfold titleOfSet, cardsOfSet.
  by rewrite Hone, Hnone.
Qed.

Lemma failureOf_unreachable setId :
  failureOf unreachable setId = Some Spec.TransientFetchError.
Proof. reflexivity. Qed.

(** The outcome of a load, by the failure the answers amount to. *)
Lemma fetchSetAndCards_outcome (setId : string) (b : Backend) (nows : nat -> Z) (w : World) :
  let w' := fetchSetAndCards setId b nows w in
  requests w' = requests w ++ queriesSent b setId
  /\ NoDup (queriesSent b setId)
  /\ isLoading (ui w') = false
  /\ match failureOf b setId with
     | Some f => aborted (failureMessage f) w w'
     | None =>
         exists title rows,
           selectTitle b setId = mkResponse (Some title) None
           /\ selectCards b setId = mkResponse (Some rows) None
           /\ rows ≠ []
           /\ deref (heap w') (flashcards (ui w'))
                = Some <$> imap (fun i row => withMetrics (nows i) row) rows
           /\ toasts w' = toasts w /\ navigations w' = navigations w
     end.
Proof.
  intros w'. subst w'. unfold fetchSetAndCards, failureOf, queriesSent, aborted.
  assert (NoDup [SelectTitle setId; SelectCards setId]) as Htwo.
  { apply NoDup_cons. split; [|apply NoDup_singleton].
    rewrite list_elem_of_singleton. discriminate. }
  assert (NoDup [SelectTitle setId]) as Hone by apply NoDup_singleton.
  destruct (selectTitle b setId) as [[title|] [e|]];
    destruct (selectCards b setId) as [[[|row rows]|] [e'|]]; simpl;
    rewrite <- ?app_assoc; simpl;
    try (repeat split; done).
  repeat split; try done.
  exists title, (row :: rows). repeat split; try done.
  apply (deref_alloc (heap w) (withMetrics (nows 0%nat) row
                                 :: imap ((fun i r => withMetrics (nows i) r) ∘ S) rows)).
Qed.

(** C5, as the component has it.  A load fails in exactly three ways: the
    set is not found, the set has no cards, or a query fails.  Each failure
    produces no working set, shows one notification, navigates to the start
    page and ends loading; every query is sent once, none again.  The
    notification tells the failures apart: a failed query is reported as
    "Failed to load flashcards", a missing set as "Set not found", a set
    without cards as "This set has no flashcards".  In every other case the
    working set is produced, without notification or navigation. *)
Theorem C5_load_failures (setId : string) (b : Backend) (nows : nat -> Z) (w : World) :
  let w' := fetchSetAndCards setId b nows w in
  (requests w' = requests w ++ queriesSent b setId
   /\ NoDup (queriesSent b setId)
   /\ isLoading (ui w') = false
   /\ match failureOf b setId with
      | Some f => aborted (failureMessage f) w w'
      | None =>
          exists title rows,
            selectTitle b setId = mkResponse (Some title) None
            /\ selectCards b setId = mkResponse (Some rows) None
            /\ rows ≠ []
            /\ deref (heap w') (flashcards (ui w'))
                 = Some <$> imap (fun i row => withMetrics (nows i) row) rows
            /\ toasts w' = toasts w /\ navigations w' = navigations w
      end)
  /\ (forall db, filter (fun row => row.1 = setId) (flashcard_sets db) = [] ->
        failureOf (serving db) setId = Some Spec.NotFound)
  /\ (forall db row,
        filter (fun row => row.1 = setId) (flashcard_sets db) = [row] ->
        filter (fun row => row_set_id row = setId) (flashcards_table db) = [] ->
        failureOf (serving db) setId = Some Spec.Empty)
  /\ failureOf unreachable setId = Some Spec.TransientFetchError
  /\ failureMessage Spec.TransientFetchError = "Failed to load flashcards"
  /\ failureMessage Spec.NotFound = "Set not found"
  /\ failureMessage Spec.Empty = "This set has no flashcards".
Proof.
  intros w'. split; [apply fetchSetAndCards_outcome|].
  split; [intros db; apply failureOf_serving_not_found|].
  split; [intros db row; apply failureOf_serving_empty|].
  done.
Qed.

(** C5, the claim as stated, fails: a load whose queries fail is not treated
    like a load of a set that does not exist.  The two leave different
    worlds behind, one with the notification "Failed to load flashcards", the
    other with "Set not found". *)
Lemma C5_fetch_error_differs_from_not_found :
  toasts (fetchSetAndCards "set-1" unreachable sampleClock initialWorld)
    = [ToastError "Failed to load flashcards"]
  /\ toasts (fetchSetAndCards "set-1" (serving noSetDb) sampleClock initialWorld)
    = [ToastError "Set not found"]
  /\ fetchSetAndCards "set-1" unreachable sampleClock initialWorld
     ≠ fetchSetAndCards "set-1" (serving noSetDb) sampleClock initialWorld.
Proof. repeat split; [done..|]. vm_compute. discriminate. Qed.

(** ** Typing mode *)

Lemma trimStart_spec (s : list N) :
  exists pre, s = pre ++ trimStart s /\ Forall whiteSpace pre
              /\ forall c, head (trimStart s) = Some c -> ¬ whiteSpace c.
Proof.
  induction s as [|c s (pre & Hs & Hpre & Hhead)]; simpl.
  - exists []. by repeat split.
  - destruct (isWhiteSpace c) eqn:Hc.
    + exists (c :: pre). simpl. rewrite <- Hs. repeat split; [by constructor|done].
    + exists []. repeat split; [done|]. simpl. intros c' [= <-]. unfold whiteSpace. by rewrite Hc.
Qed.

Lemma trimEnd_spec (s : list N) :
  exists post, s = trimEnd s ++ post /\ Forall whiteSpace post
               /\ forall c, last (trimEnd s) = Some c -> ¬ whiteSpace c.
Proof.
  unfold trimEnd. destruct (trimStart_spec (reverse s)) as (pre & Hs & Hpre & Hhead).
  exists (reverse pre). split; [|split].
  - rewrite <- reverse_app, <- Hs. by rewrite reverse_involutive.
  - by apply Forall_reverse.
  - intros c. rewrite last_reverse. apply Hhead.
Qed.

(** [trim] removes whitespace from both ends, all of it and nothing else. *)
Lemma trim_spec (s : list N) :
  exists pre post,
    s = pre ++ trim s ++ post
    /\ Forall whiteSpace pre /\ Forall whiteSpace post
    /\ (forall c, head (trim s) = Some c -> ¬ whiteSpace c)
    /\ (forall c, last (trim s) = Some c -> ¬ whiteSpace c).
Proof.
  destruct (trimStart_spec s) as (pre & Hs & Hpre & Hhead).
  destruct (trimEnd_spec (trimStart s)) as (post & Ht & Hpost & Hlast).
  exists pre, post. unfold trim. repeat split; try done.
  - by rewrite <- Ht.
  - intros c Hc. apply Hhead. rewrite Ht.
    destruct (trimEnd (trimStart s)); [done|]. exact Hc.
Qed.

(** The literals of the examples are ASCII text. *)
Lemma isAscii_examples :
  isAscii (js " Paris ") /\ isAscii (js "Paris") /\ isAscii (js "paris,").
Proof. unfold isAscii. repeat split; repeat constructor. Qed.

(** C6.  The typed answer is judged correct exactly when answer and
    definition, lowercased and then trimmed, are the same string; " Paris "
    is correct for "Paris" and "paris," is not.  [toLowerCase] is any case
    mapping that lowercases ASCII text as [asciiLower] does. *)
Theorem C6_typed_answer_judgement (toLowerCase : list N -> list N) :
  (forall s, isAscii s -> toLowerCase s = asciiLower s) ->
  (forall userAnswer definition,
     typedAnswerIsCorrect toLowerCase userAnswer definition = true
     <-> trim (toLowerCase userAnswer) = trim (toLowerCase definition))
  /\ typedAnswerIsCorrect toLowerCase (js " Paris ") (js "Paris") = true
  /\ typedAnswerIsCorrect toLowerCase (js "paris,") (js "Paris") = false.
Proof.
  intros Hascii. destruct isAscii_examples as (Hp1 & Hp2 & Hp3).
  split; [|split].
  - intros userAnswer definition. unfold typedAnswerIsCorrect, strictEq.
    apply bool_decide_eq_true.
  - unfold typedAnswerIsCorrect. rewrite !Hascii by done. by vm_compute.
  - unfold typedAnswerIsCorrect. rewrite !Hascii by done. by vm_compute.
Qed.

(** The verdict drives the update: typing " Paris " for the definition
    "Paris" raises the card's confidence to 70, typing "paris," lowers it
    to 25. *)
Example typed_answer_updates_confidence :
  let card := mkFlashcard "card" (js "France") (js "Paris") None (Some 50) None in
  let session answer :=
    {| heap := [card];
       ui := setUserAnswer (js answer) (setFlashcards [0%nat] initialState);
       toasts := []; navigations := []; timers := []; requests := [] |} in
  (confidences <$> onContinue asciiLower (ui (session " Paris ")) 7 (session " Paris "))
    = Some [Some 70]
  /\ (confidences <$> onContinue asciiLower (ui (session "paris,")) 7 (session "paris,"))
    = Some [Some 25].
Proof. by vm_compute. Qed.

Lemma C6_typed_answer_judgement_witness :
  (forall userAnswer definition,
     typedAnswerIsCorrect asciiLower userAnswer definition = true
     <-> trim (asciiLower userAnswer) = trim (asciiLower definition))
  /\ typedAnswerIsCorrect asciiLower (js " Paris ") (js "Paris") = true
  /\ typedAnswerIsCorrect asciiLower (js "paris,") (js "Paris") = false.
Proof. exact (C6_typed_answer_judgement asciiLower (fun s _ => eq_refl)). Defined.

(** ** Hints *)

Lemma split_no_sep sep (s : list N) : sep ∉ s -> split sep s = [s].
Proof.
  induction s as [|c s IH]; [done|]. intros Hnot.
  apply not_elem_of_cons in Hnot as [Hne Hnot]. simpl.
  destruct (N.eqb_spec c sep) as [->|_]; [done|]. by rewrite IH.
Qed.

Lemma split_length sep (s : list N) :
  (1 <= length (split sep s))%nat /\ (sep ∈ s -> 2 <= length (split sep s))%nat.
Proof.
  induction s as [|c s [IH1 IH2]]; simpl.
  - split; [lia|]. by intros ?%elem_of_nil.
  - destruct (N.eqb_spec c sep) as [->|Hne]; simpl.
    + split; [lia|]. intros _. lia.
    + destruct (split sep s) as [|w ws]; simpl in *; [lia|].
      split; [lia|]. intros [?|Hin]%elem_of_cons; [done|]. by apply IH2.
Qed.

Lemma joinWith_split sep (s : list N) : Spec.joinWith [sep] (split sep s) = s.
Proof.
  induction s as [|c s IH]; [done|]. simpl.
  pose proof (split_length sep s) as [Hlen _].
  destruct (split sep s) as [|w ws]; [simpl in Hlen; lia|].
  destruct (N.eqb_spec c sep) as [->|Hne].
  - change (Spec.joinWith [sep] ([] :: w :: ws))
      with (sep :: Spec.joinWith [sep] (w :: ws)).
    by rewrite IH.
  - destruct ws as [|w' ws]; simpl in *; by rewrite <- IH.
Qed.

Lemma split_segments sep (s : list N) : Forall (fun w => sep ∉ w) (split sep s).
Proof.
  induction s as [|c s IH]; simpl.
  - repeat constructor. by intros ?%elem_of_nil.
  - destruct (N.eqb_spec c sep) as [->|Hne].
    + constructor; [by intros ?%elem_of_nil|done].
    + destruct (split sep s) as [|w ws].
      { constructor; [|constructor]. by intros ->%list_elem_of_singleton. }
      inversion_clear IH as [|? ? Hw Hws]. constructor; [|done].
      intros [?|?]%elem_of_cons; done.
Qed.

(** Joining the first code units: an empty segment has none and contributes
    nothing. *)
Lemma join_charAt0 sep (ws : list (list N)) :
  join sep (charAt0 <$> ws) = Spec.joinWith sep (take 1 <$> ws).
Proof.
  assert (forall w : list N, joinElement (charAt0 w) = take 1 w) as Hel.
  { intros [|c w]; [done|]. simpl. by rewrite take_0. }
  induction ws as [|w ws IH]; [done|].
  destruct ws as [|w' ws]; [apply Hel|].
  change (joinElement (charAt0 w) ++ sep ++ join sep (charAt0 <$> w' :: ws)
          = take 1 w ++ sep ++ Spec.joinWith sep (take 1 <$> w' :: ws)).
  by rewrite Hel, IH.
Qed.

(** C7, as the component has it.  For a non-empty definition the hint is a
    function of the text alone: without a space in it, its first code unit
    followed by "..."; with one, the first code unit of every segment
    between two spaces (nothing for an empty segment) joined by single
    spaces, followed by "...".  The segments are the pieces the text falls
    into when cut at every U+0020 and nowhere else. *)
Theorem C7_hint_of_space_separated_segments (text : list N) :
  text ≠ [] ->
  (32%N ∉ text -> getHint text = take 1 text ++ js "...")
  /\ (32%N ∈ text ->
        getHint text = Spec.joinWith (js " ") (take 1 <$> split 32 text) ++ js "...")
  /\ Spec.joinWith (js " ") (split 32 text) = text
  /\ Forall (fun w => 32%N ∉ w) (split 32 text)
  /\ getHint (js "Photosynthesis") = js "P..."
  /\ getHint (js "light dependent reaction") = js "l d r...".
Proof.
  intros Hne. split; [|split; [|split; [|split]]].
  - intros Hnot. unfold getHint. rewrite split_no_sep by done. simpl.
    by destruct text as [|c text].
  - intros Hin. unfold getHint. cbv zeta.
    pose proof (split_length 32 text) as [_ Hlen]. specialize (Hlen Hin).
    destruct (Nat.eqb_spec (length (split 32 text)) 1) as [Heq|_]; [lia|].
    by rewrite join_charAt0.
  - apply (joinWith_split 32).
  - apply split_segments.
  - by vm_compute.
Qed.

Lemma C7_hint_of_space_separated_segments_witness :
  (32%N ∉ js "a  b" -> getHint (js "a  b") = take 1 (js "a  b") ++ js "...")
  /\ (32%N ∈ js "a  b" ->
        getHint (js "a  b")
          = Spec.joinWith (js " ") (take 1 <$> split 32 (js "a  b")) ++ js "...")
  /\ Spec.joinWith (js " ") (split 32 (js "a  b")) = js "a  b"
  /\ Forall (fun w => 32%N ∉ w) (split 32 (js "a  b"))
  /\ getHint (js "Photosynthesis") = js "P..."
  /\ getHint (js "light dependent reaction") = js "l d r...".
Proof.
  apply (C7_hint_of_space_separated_segments (js "a  b")). vm_compute. discriminate.
Defined.

(** C7, the claim as stated, fails where the words of the definition are
    not separated by exactly one space.  With two spaces between "a" and
    "b" the hint keeps both spaces; with a tab between them the definition
    counts as a single word.  The first characters of the
    whitespace-delimited words, joined by single spaces, give "a b..." in
    both cases. *)
Lemma C7_hint_depends_on_the_kind_of_whitespace :
  getHint (js "a  b") = js "a  b..."
  /\ Spec.hint (js "a  b") = js "a b..."
  /\ getHint (js "a  b") ≠ Spec.hint (js "a  b")
  /\ getHint [97; 9; 98]%N = js "a..."
  /\ Spec.hint [97; 9; 98]%N = js "a b..."
  /\ Spec.hint (js "Photosynthesis") = js "P..."
  /\ Spec.hint (js "light dependent reaction") = js "l d r...".
Proof. repeat split; by vm_compute. Qed.

(** ** Shuffling *)

Lemma insertAll_Permutation {A} (pending : list A) : forall sorted coins,
  (insertAll sorted pending coins).1 ≡ₚ sorted ++ pending.
Proof.
  induction pending as [|pivot pending IH]; intros sorted coins; simpl.
  - by rewrite app_nil_r.
  - destruct (findSlot (length sorted) 0 (length sorted) coins) as [slot coins'].
    rewrite IH. rewrite <- (take_drop slot sorted) at 3.
    rewrite <- !app_assoc. f_equiv. simpl. by rewrite Permutation_middle.
Qed.

(** Whatever the draws, the engine's sort of a short array returns a
    rearrangement of the array. *)
Lemma timSortShort_Permutation {A} coins (l : list A) : timSortShort coins l ≡ₚ l.
Proof.
  unfold timSortShort. destruct l as [|first [|second rest]]; [done..|].
  destruct (nextSign coins) as [descending coins1].
  destruct (continueRun descending rest coins1) as [n coins2].
  rewrite insertAll_Permutation.
  generalize (first :: second :: rest). intros l.
  transitivity (take (2 + n) l ++ drop (2 + n) l); [|by rewrite take_drop].
  apply Permutation_app_tail. destruct descending; [apply reverse_Permutation|done].
Qed.

(** The binary search stays between its bounds, and more rounds than the
    distance of the bounds change nothing: the search is over when the
    bounds meet. *)
Lemma findSlot_bounds rounds : forall left right coins,
  (left <= right)%nat ->
  (left <= (findSlot rounds left right coins).1 <= right)%nat.
Proof.
  induction rounds as [|rounds IH]; intros left right coins Hle; cbn [findSlot];
    [simpl; lia|].
  destruct (Nat.ltb_spec left right) as [Hlt|_]; [|simpl; lia].
  assert ((right - left) / 2 < right - left)%nat as Hhalf
    by (apply Nat.div_lt; lia).
  remember ((right - left) / 2)%nat as half.
  destruct (nextSign coins) as [[] coins'].
  - specialize (IH left (left + half)%nat coins' ltac:(lia)). lia.
  - specialize (IH (left + half + 1)%nat right coins' ltac:(lia)). lia.
Qed.

Lemma findSlot_rounds rounds : forall more left right coins,
  (right - left <= rounds)%nat ->
  findSlot (rounds + more) left right coins = findSlot rounds left right coins.
Proof.
  induction rounds as [|rounds IH]; intros more left right coins Hrounds.
  - destruct more; [done|]. simpl.
    destruct (Nat.ltb_spec left right); [lia|done].
  - cbn [Nat.add findSlot]. destruct (Nat.ltb_spec left right) as [Hlt|_]; [|done].
    assert ((right - left) / 2 < right - left)%nat as Hhalf
      by (apply Nat.div_lt; lia).
    remember ((right - left) / 2)%nat as half.
    destruct (nextSign coins) as [[] coins']; apply IH; lia.
Qed.



(** Three cards and the signs not negative, negative, negative, not
    negative: the first two cards are an ascending run, the third goes to
    the lower half and then behind the first card. *)
Example shuffle_example :
  flashcards (ui (handleShuffle timSortShort (ui (sessionWith [10; 20; 30]))
                    [false; true; true; false] (sessionWith [10; 20; 30])))
    = [0; 2; 1]%nat
  /\ timSortShort [false; true; false] [0; 1; 2]%nat = [0; 1; 2]%nat.
Proof. by vm_compute. Qed.

(** *** The shuffle is not uniform *)

Lemma length_allCoins k : length (allCoins k) = (2 ^ k)%nat.
Proof.
  induction k as [|k IH]; [done|].
  cbn [allCoins]. rewrite length_app, !length_fmap, IH, Nat.pow_succ_r'. lia.
Qed.

Lemma pow2_not_multiple_of_3 k c : (2 ^ k)%nat ≠ (3 * c)%nat.
Proof.
  assert (exists q, 2 ^ k = 3 * q + 1 \/ 2 ^ k = 3 * q + 2)%nat as (q & Hq); [|lia].
  induction k as [|k (q & Hq)]; [exists 0%nat; by left|].
  rewrite Nat.pow_succ_r'. destruct Hq as [->| ->].
  - exists (2 * q)%nat. right. lia.
  - exists (2 * q + 1)%nat. left. lia.
Qed.

Lemma orders_of_three (l : list nat) : l ≡ₚ [0; 1; 2]%nat -> l ∈ ordersOfThree.
Proof.
  intros Hperm.
  pose proof (Permutation_length Hperm) as Hlen.
  destruct l as [|a [|b [|c [|d l]]]]; try done.
  assert (NoDup [a; b; c]) as Hnd by (rewrite Hperm; exact (NoDup_seq 0 3)).
  apply NoDup_cons in Hnd as [Hab Hnd]. apply NoDup_cons in Hnd as [Hbc _].
  apply not_elem_of_cons in Hab as [Hab Hac]. apply not_elem_of_cons in Hac as [Hac _].
  apply not_elem_of_cons in Hbc as [Hbc _].
  assert (a ∈ [0; 1; 2]%nat) as Ha by (rewrite <- Hperm; rewrite !elem_of_cons; auto).
  assert (b ∈ [0; 1; 2]%nat) as Hb by (rewrite <- Hperm; rewrite !elem_of_cons; auto).
  assert (c ∈ [0; 1; 2]%nat) as Hc by (rewrite <- Hperm; rewrite !elem_of_cons; auto).
  rewrite !elem_of_cons in Ha, Hb, Hc. rewrite elem_of_nil in Ha, Hb, Hc.
  unfold ordersOfThree. rewrite !elem_of_cons, elem_of_nil.
  destruct Ha as [->|[->|[->|[]]]]; destruct Hb as [->|[->|[->|[]]]];
    destruct Hc as [->|[->|[->|[]]]]; first [by auto 10 | exfalso; by auto].
Qed.

Lemma ordersOfThree_Permutation p : p ∈ ordersOfThree -> p ≡ₚ [0; 1; 2]%nat.
Proof.
  unfold ordersOfThree. rewrite !elem_of_cons, elem_of_nil.
  intros [->|[->|[->|[->|[->|[->|[]]]]]]]; solve_Permutation.
Qed.

(** Every run ends in one of the six orders, so the six counts add up to
    the number of runs. *)
Lemma outcomes_add_up (f : list bool -> list nat) (xs : list (list bool)) :
  (forall x, f x ∈ ordersOfThree) ->
  length xs =
  sum_list ((fun p => length (filter (fun x => f x = p) xs)) <$> ordersOfThree).
Proof.
  intros Hf. induction xs as [|x xs IH]; [done|].
  specialize (Hf x). unfold ordersOfThree in *.
  rewrite !elem_of_cons, elem_of_nil in Hf.
  cbn [fmap list_fmap sum_list sum_list_with] in *. rewrite !filter_cons.
  destruct Hf as [Hx|[Hx|[Hx|[Hx|[Hx|[Hx|[]]]]]]]; rewrite Hx;
    repeat case_decide; try done; cbn [length]; unfold Datatypes.id in *; lia.
Qed.

(** No procedure that turns finitely many fair coin flips into an order of
    three cards, always a rearrangement of them, makes the six orders
    equally likely: the number of runs is a power of two, and six does not
    divide it.  This covers every sort algorithm an engine may use, and the
    flips may as well be the random bits of the draws themselves. *)
Theorem no_uniform_shuffle_of_three
    (shuffleSort : list bool -> list nat -> list nat) (k : nat) :
  (forall coins l, shuffleSort coins l ≡ₚ l) ->
  ¬ uniformShuffle shuffleSort k [0; 1; 2]%nat.
Proof.
  intros Hperm Huniform.
  pose proof (outcomes_add_up (fun coins => shuffleSort coins [0; 1; 2]%nat) (allCoins k)
                (fun coins => orders_of_three _ (Hperm coins _))) as Hsum.
  rewrite length_allCoins in Hsum.
  assert (forall p, p ∈ ordersOfThree ->
            length (filter (fun x => shuffleSort x [0; 1; 2]%nat = p) (allCoins k))
            = timesDrawn shuffleSort k [0; 1; 2]%nat [0; 1; 2]%nat) as Hall.
  { intros p Hp. apply (Huniform p [0; 1; 2]%nat); [|done].
    by apply ordersOfThree_Permutation. }
  unfold ordersOfThree in Hsum, Hall.
  cbn [fmap list_fmap sum_list sum_list_with] in Hsum. unfold Datatypes.id in Hsum.
  rewrite !Hall in Hsum by (rewrite !elem_of_cons; auto 10).
  apply (pow2_not_multiple_of_3 k (2 * timesDrawn shuffleSort k [0; 1; 2]%nat [0; 1; 2]%nat)).
  lia.
Qed.


(** ** Double precision *)

(** For every working set of up to 4096 cards the double-precision product
    [length * 0.4] has the floor [2 * length / 5], the one [poolSize] uses. *)
Example poolSize_in_double_precision :
  forallb (fun n => Binary64.floorIs (Binary64.lengthTimesPoint4 n) (Z.of_nat (2 * n / 5)))
    (seq 0 4097) = true.
Proof. by vm_compute. Qed.

(** For every working set of up to 40 cards and every sum of confidences
    within 0..100, rounding the double-precision quotient gives the integer
    [avgConfidence] computes. *)
Example avgConfidence_in_double_precision :
  forallb (fun n =>
    forallb (fun sum =>
      Binary64.roundIs (Binary64.quotient (Z.of_nat sum) n)
        ((2 * Z.of_nat sum + Z.of_nat n) / (2 * Z.of_nat n)))
      (seq 0 (100 * n + 1)))
    (seq 1 40) = true.
Proof. by vm_compute. Qed.

(** The index [Math.floor(Math.random() * len)] stays below [len] in double
    precision as well: checked at the largest draw for every length up to
    4096.  At isolated draws the rounded product reaches the next whole
    number, and the engine takes the entry after the one [randomIndex]
    gives: for the draw 6004799503160661 / 2^53 and three entries it takes
    the third, [randomIndex] the second.  The draws 4000000000000000 and
    5000000000000000 of the examples are not of that kind. *)
Example randomIndex_in_double_precision :
  forallb (fun len => PrimFloat.ltb (drawTimesLength (2 ^ 53 - 1) len)
                        (Binary64.ofZ (Z.of_nat len)))
    (seq 1 4096) = true
  /\ randomIndex 6004799503160661 3 = 1%nat
  /\ Binary64.floorIs (drawTimesLength 6004799503160661 3) 2 = true
  /\ Binary64.floorIs (drawTimesLength 5000000000000000 2)
       (Z.of_nat (randomIndex 5000000000000000 2)) = true
  /\ Binary64.floorIs (drawTimesLength 4000000000000000 2)
       (Z.of_nat (randomIndex 4000000000000000 2)) = true.
Proof. repeat split; by vm_compute. Qed.

(** ** The running session *)

Lemma validIndex_Permutation s s' :
  flashcards s ≡ₚ flashcards s' -> currentIndex s = currentIndex s' ->
  validIndex s -> validIndex s'.
Proof.
  intros Hperm Hidx (i & Hi & Hlt). exists i.
  rewrite <- Hidx, <- (Permutation_length Hperm). done.
Qed.

Lemma getNextCard_valid s h r :
  flashcards s ≠ [] -> validIndex s -> 0 <= r < 2 ^ 53 ->
  exists j, getNextCard s h r = Some (Idx j) /\ (j < length (flashcards s))%nat.
Proof.
  intros Hne (i & Hi & Hlt) Hr. destruct (spacedRepetition s) eqn:Hsr.
  - destruct (getNextCard_spaced s h r Hsr Hne Hr) as (e & Hnext & He & _).
    exists (idx e). split; [done|].
    assert (e ∈ rank h (flashcards s)) as Hrank.
    { rewrite <- (sortedByConfidence_Permutation h (flashcards s)).
      exact (subseteq_take _ _ _ He). }
    apply elem_of_rank in Hrank as [Hl _]. by eapply lookup_lt_Some.
  - exists ((i + 1) mod length (flashcards s))%nat.
    split; [by apply getNextCard_sequential|].
    apply Nat.mod_upper_bound. by destruct (flashcards s).
Qed.

(** A well-formed session stays well-formed under every event, and no
    handler throws. *)
Theorem step_wellFormed e w :
  wellFormed w -> validEvent e -> exists w', step e w = Some w' /\ wellFormed w'.
Proof.
  intros (Hne & Hrefs & Hidx & Hrange & Htimers) He.
  destruct e as [isCorrect now|r|coins|checked]; simpl.
  - destruct Hidx as (i & Hi & Hlt).
    destruct (lookup_lt_is_Some_2 _ _ Hlt) as [l Hl].
    destruct (proj1 (Forall_forall _ _) Hrefs l) as [c Hc];
      [by eapply list_elem_of_lookup_2|].
    assert (at_index (flashcards (ui w)) (currentIndex (ui w)) = Some l) as Hcur
      by (by rewrite Hi).
    destruct (advance_ranks_updated_card (ui w) isCorrect now w l c Hcur Hc)
      as (w1 & Hw1 & Ht1 & _).
    exists w1. split; [done|].
    unfold handleAnswer in Hw1.
    set (w0 := if isCorrect then onUi (setCorrectCount (correctCount (ui w) + 1)) w else w) in *.
    assert (heap w0 = heap w /\ timers w0 = timers w
            /\ currentIndex (ui w0) = currentIndex (ui w)) as (Hh0 & Ht0 & Hi0)
      by (unfold w0; by destruct isCorrect).
    rewrite (updateConfidence_Some (ui w) isCorrect now w0 l c Hcur) in Hw1
      by (by rewrite Hh0).
    injection Hw1 as <-. unfold wellFormed. simpl. rewrite Hh0, Ht0.
    split; [done|]. split; [|split; [exists i; simpl; by rewrite Hi0|split]].
    + eapply Forall_impl; [exact Hrefs|]. intros l' Hl'. simpl.
      by apply list_lookup_insert_is_Some.
    + apply Forall_insert; [done|].
      eexists. split; [done|]. simpl. apply updatedConfidence_range.
      intros v Hv.
      destruct (proj1 (Forall_forall _ _) Hrange c) as (v' & Hv' & ?);
        [by eapply list_elem_of_lookup_2|]. by simplify_eq.
    + apply Forall_app. split; [done|]. constructor; [|done].
      split; [done|]. by exists i.
  - destruct (timers w) as [|closure rest] eqn:Hts.
    { exists w. split; [done|]. unfold wellFormed. by rewrite Hts. }
    inversion_clear Htimers as [|? ? [Hperm Hcidx] Hrest].
    assert (flashcards closure ≠ []) as Hcne.
    { intros Hnil. rewrite Hnil in Hperm. by apply Permutation_nil_l in Hperm. }
    destruct (getNextCard_valid closure (heap w) r Hcne Hcidx He) as (j & Hj & Hlt).
    unfold advance. simpl. rewrite Hj. simpl. eexists. split; [done|].
    unfold wellFormed. simpl. rewrite Hts. simpl.
    split; [done|]. split; [done|]. split; [|done].
    exists j. split; [done|]. pose proof (Permutation_length Hperm). simpl in *. lia.
  - eexists. split; [done|]. unfold wellFormed, handleShuffle. simpl.
    pose proof (timSortShort_Permutation coins (flashcards (ui w))) as Hperm.
    split; [|split; [|split; [|split]]].
    + intros Hnil. rewrite Hnil in Hperm. by apply Permutation_nil_l in Hperm.
    + by rewrite Hperm.
    + exists 0%nat. split; [done|]. pose proof (Permutation_length Hperm) as Hlen.
      simpl in *. rewrite Hlen. destruct (flashcards (ui w)); [done|simpl; lia].
    + done.
    + eapply Forall_impl; [exact Htimers|]. simpl. intros s [Hs ?].
      split; [|done]. by rewrite Hs, Hperm.
  - eexists. split; [done|]. unfold wellFormed. simpl. done.
Qed.

Theorem run_wellFormed es w :
  wellFormed w -> Forall validEvent es -> exists w', run es w = Some w' /\ wellFormed w'.
Proof.
  intros Hw Hes. revert w Hw.
  induction Hes as [|e es He _ IH]; intros w Hw; simpl; [by exists w|].
  destruct (step_wellFormed e w Hw He) as (w1 & -> & Hw1). simpl. by apply IH.
Qed.

(** A successful load starts a well-formed session. *)
Theorem loaded_wellFormed db setId nows title :
  data (titleOfSet db setId) = Some title ->
  cardsOfSet db setId ≠ [] ->
  wellFormed (fetchSetAndCards setId (serving db) nows initialWorld).
Proof.
  intros Htitle Hne.
  apply titleOfSet_data in Htitle.
  destruct (cardsOfSet db setId) as [|row rows] eqn:Hrows; [done|].
  assert (selectCards (serving db) setId = mkResponse (Some (row :: rows)) None) as Hc
    by (simpl; by rewrite Hrows).
  rewrite (fetchSetAndCards_loaded setId (serving db) nows initialWorld title row rows
             Htitle Hc).
  unfold wellFormed. simpl. split; [done|]. split; [|split; [|split; [|done]]].
  - constructor; [by eexists|]. apply Forall_forall. intros l Hl.
    apply elem_of_seq in Hl. apply lookup_lt_is_Some. simpl. lia.
  - exists 0%nat. split; [done|]. simpl. lia.
  - assert (forall now r, confidenceInRange (withMetrics now r)) as Hnew.
    { intros now r. exists 50. split; [done|lia]. }
    constructor; [apply Hnew|]. apply Forall_forall. intros c Hc'.
    apply list_elem_of_lookup in Hc' as [i Hi]. rewrite list_lookup_imap in Hi.
    destruct (rows !! i); [|done]. injection Hi as <-. apply Hnew.
Qed.

(** * Further properties of the scheduler *)

(** ** The confidence update *)

(** X1.  For a current card whose stored confidence [c] lies within 1..100,
    a correct answer stores min(100, c + 20) and adds one to the streak, an
    incorrect answer stores max(0, c - 25) and resets the streak; the new
    confidence lies within 0..100, a correct answer never lowers and an
    incorrect answer never raises it. *)
Theorem X1_update_of_a_confidence_from_1_to_100 s correct now w l card c :
  at_index (flashcards s) (currentIndex s) = Some l ->
  heap w !! l = Some card ->
  confidence card = Some c ->
  1 <= c <= 100 ->
  exists w' c',
    updateConfidence s correct now w = Some w'
    /\ readConfidence (heap w') l = Some c'
    /\ c' = (if correct then Z.min 100 (c + 20) else Z.max 0 (c - 25))
    /\ 0 <= c' <= 100
    /\ (if correct then c <= c' else c' <= c)
    /\ streak (ui w') = (if correct then streak s + 1 else 0)%nat.
Proof.
  intros Hl Hcard Hc Hrange.
  destruct (updateConfidence_clamped s correct now w l card c Hl Hcard Hc Hrange)
    as (w' & Hw' & Hconf & Hstreak).
  exists w', (if correct then Z.min 100 (c + 20) else Z.max 0 (c - 25)).
  split; [done|]. split; [by destruct correct|]. split; [done|].
  split; [destruct correct; lia|]. split; [destruct correct; lia|done].
Qed.

Lemma X1_update_of_a_confidence_from_1_to_100_witness :
  exists w' c',
    updateConfidence (ui (sessionWith [90; 30])) true 7 (sessionWith [90; 30]) = Some w'
    /\ readConfidence (heap w') 0%nat = Some c'
    /\ c' = Z.min 100 (90 + 20)
    /\ 0 <= c' <= 100
    /\ 90 <= c'
    /\ streak (ui w') = (streak (ui (sessionWith [90%Z; 30%Z])) + 1)%nat.
Proof.
  apply (X1_update_of_a_confidence_from_1_to_100 (ui (sessionWith [90; 30])) true 7
           (sessionWith [90; 30]) 0%nat (sampleCard 90) 90);
    [reflexivity|reflexivity|reflexivity|lia].
Defined.

(** X2.  [updateConfidence] changes one card object and nothing else in the
    store: the current card keeps its id, term, definition and image and
    gets the time of the answer as [lastSeen]; every other card object is
    untouched, no object is added or removed, and the position on screen,
    the working set of the render and the count of correct answers stay as
    they are. *)
Theorem X2_update_touches_the_current_card_only s correct now w l card :
  at_index (flashcards s) (currentIndex s) = Some l ->
  heap w !! l = Some card ->
  exists w' card',
    updateConfidence s correct now w = Some w'
    /\ heap w' !! l = Some card'
    /\ id card' = id card /\ term card' = term card
    /\ definition card' = definition card /\ image_url card' = image_url card
    /\ lastSeen card' = Some now
    /\ (forall l', l' ≠ l -> heap w' !! l' = heap w !! l')
    /\ length (heap w') = length (heap w)
    /\ flashcards (ui w') = flashcards s
    /\ currentIndex (ui w') = currentIndex (ui w)
    /\ correctCount (ui w') = correctCount (ui w)
    /\ spacedRepetition (ui w') = spacedRepetition (ui w)
    /\ timers w' = timers w /\ toasts w' = toasts w.
Proof.
  intros Hl Hcard.
  assert (l < length (heap w))%nat by (by eapply lookup_lt_Some).
  eexists _, _. split; [by apply updateConfidence_Some|]. simpl.
  split; [by apply list_lookup_insert_eq|]. simpl.
  repeat split; try done.
  - intros l' Hne. by apply list_lookup_insert_ne.
  - by rewrite length_insert.
Qed.

Lemma X2_update_touches_the_current_card_only_witness :
  exists w' card',
    updateConfidence (ui (sessionWith [90; 30])) false 7 (sessionWith [90; 30]) = Some w'
    /\ heap w' !! 0%nat = Some card'
    /\ id card' = id (sampleCard 90) /\ term card' = term (sampleCard 90)
    /\ definition card' = definition (sampleCard 90)
    /\ image_url card' = image_url (sampleCard 90)
    /\ lastSeen card' = Some 7
    /\ (forall l', l' ≠ 0%nat -> heap w' !! l' = heap (sessionWith [90; 30]) !! l')
    /\ length (heap w') = length (heap (sessionWith [90; 30]))
    /\ flashcards (ui w') = flashcards (ui (sessionWith [90; 30]))
    /\ currentIndex (ui w') = currentIndex (ui (sessionWith [90; 30]))
    /\ correctCount (ui w') = correctCount (ui (sessionWith [90; 30]))
    /\ spacedRepetition (ui w') = spacedRepetition (ui (sessionWith [90; 30]))
    /\ timers w' = timers (sessionWith [90; 30])
    /\ toasts w' = toasts (sessionWith [90; 30]).
Proof.
  exact (X2_update_touches_the_current_card_only (ui (sessionWith [90; 30])) false 7
           (sessionWith [90; 30]) 0%nat (sampleCard 90) eq_refl eq_refl).
Defined.

(** ** Selection *)



(** In that working set the pool is the second and the fourth card (10 and
    20), and the draw above selects the fourth. *)
Example pool_of_80_10_90_20_30 :
  idx <$> lowConfidencePool (heap (sessionWith [80; 10; 90; 20; 30]))
            (flashcards (ui (sessionWith [80; 10; 90; 20; 30]))) = [1; 3]%nat
  /\ getNextCard (ui (sessionWith [80; 10; 90; 20; 30]))
       (heap (sessionWith [80; 10; 90; 20; 30])) 5000000000000000 = Some (Idx 3).
Proof. split; by vm_compute. Qed.

(** X4.  [getNextCard] never leaves the working set: for a non-empty
    working set and a valid current position it returns a position below
    the number of cards, in either mode; with a single card that is always
    position 0. *)
Theorem X4_next_card_is_a_position_of_the_working_set s h r :
  flashcards s ≠ [] ->
  validIndex s ->
  0 <= r < 2 ^ 53 ->
  exists j,
    getNextCard s h r = Some (Idx j)
    /\ (j < length (flashcards s))%nat
    /\ (length (flashcards s) = 1%nat -> j = 0%nat).
Proof.
  intros Hne Hidx Hr.
  destruct (getNextCard_valid s h r Hne Hidx Hr) as (j & Hj & Hlt).
  exists j. repeat split; [done..|]. intros Hone. lia.
Qed.

Lemma X4_next_card_is_a_position_of_the_working_set_witness :
  let w := sessionWith [50] in
  exists j,
    getNextCard (ui w) (heap w) 9007199254740991 = Some (Idx j)
    /\ (j < length (flashcards (ui w)))%nat
    /\ (length (flashcards (ui w)) = 1%nat -> j = 0%nat).
Proof.
  apply (X4_next_card_is_a_position_of_the_working_set (ui (sessionWith [50]))
           (heap (sessionWith [50])) 9007199254740991).
  - vm_compute. discriminate.
  - exists 0%nat. split; [reflexivity|]. vm_compute. lia.
  - lia.
Defined.



(** ** Runs of the session *)

(** What an answer leaves in the state cells. *)
Lemma handleAnswer_ui s isCorrect now w w1 :
  handleAnswer s isCorrect now w = Some w1 ->
  ui w1 = setFlashcards (flashcards s)
            (setStreak (updatedStreak isCorrect s)
               (if isCorrect then setCorrectCount (correctCount s + 1) (ui w) else ui w))
  /\ timers w1 = timers w ++ [s].
Proof.
  unfold handleAnswer, updateConfidence. intros Hw1.
  destruct (at_index (flashcards s) (currentIndex s)) as [l|]; [|by destruct isCorrect].
  simpl in Hw1.
  destruct isCorrect; simpl in Hw1;
    (destruct (heap w !! l) as [c|]; [|done]); simpl in Hw1; by injection Hw1 as <-.
Qed.

(** What an advance leaves in the state cells. *)
Lemma advance_ui s r w w2 :
  advance s r w = Some w2 ->
  exists j,
    getNextCard s (heap w) r = Some j
    /\ w2 = onUi (setUserAnswer []) (onUi (setShowAnswer false) (onUi (setCurrentIndex j) w)).
Proof.
  unfold advance. destruct (getNextCard s (heap w) r) as [j|]; [|done].
  simpl. intros [= <-]. by exists j.
Qed.

Lemma step_counters e w w' :
  step e w = Some w' ->
  correctCount (ui w') = (correctCount (ui w) + correctAnswers [e])%nat
  /\ streak (ui w') = streakAfter [e] (streak (ui w)).
Proof.
  destruct e as [isCorrect now|r|coins|checked]; simpl.
  - intros [-> _]%handleAnswer_ui. destruct isCorrect; simpl; split; lia.
  - destruct (timers w) as [|closure rest]; [intros [= <-]; split; lia|].
    intros (j & _ & ->)%advance_ui. simpl. split; lia.
  - intros [= <-]. simpl. split; lia.
  - intros [= <-]. simpl. split; lia.
Qed.

Lemma run_counters es w w' :
  run es w = Some w' ->
  correctCount (ui w') = (correctCount (ui w) + correctAnswers es)%nat
  /\ streak (ui w') = streakAfter es (streak (ui w)).
Proof.
  revert w. induction es as [|e es IH]; intros w; simpl.
  - intros [= <-]. split; [lia|done].
  - destruct (step e w) as [w1|] eqn:Hstep; [|done]. simpl. intros Hrun.
    destruct (step_counters e w w1 Hstep) as [Hc Hs].
    destruct (IH w1 Hrun) as [Hc' Hs']. rewrite Hc', Hs', Hc, Hs.
    destruct e as [[] ?| | |]; simpl; split; lia || done.
Qed.

(** X6.  From a loaded session every sequence of answers, advances,
    shuffles and toggles of the policy runs to its end without a handler
    throwing, and afterwards the session is well formed: the working set is
    not empty and refers to stored cards, [currentIndex] is a position of
    it, and every stored confidence is a number within 0..100. *)
Theorem X6_a_loaded_session_never_throws db setId nows title es :
  data (titleOfSet db setId) = Some title ->
  cardsOfSet db setId ≠ [] ->
  Forall validEvent es ->
  exists w',
    run es (fetchSetAndCards setId (serving db) nows initialWorld) = Some w'
    /\ wellFormed w'
    /\ Forall (fun c => exists v, confidence c = Some v /\ 0 <= v <= 100) (heap w').
Proof.
  intros Htitle Hne Hes.
  destruct (run_wellFormed es _ (loaded_wellFormed db setId nows title Htitle Hne) Hes)
    as (w' & Hrun & Hwf).
  exists w'. split; [done|]. split; [done|]. by destruct Hwf as (_ & _ & _ & Hrange & _).
Qed.

Lemma X6_a_loaded_session_never_throws_witness :
  exists w',
    run (answered false ++ [ClickShuffle [true; false]] ++ answered true)
      (fetchSetAndCards "set-1" (serving fiveCardDb) sampleClock initialWorld) = Some w'
    /\ wellFormed w'
    /\ Forall (fun c => exists v, confidence c = Some v /\ 0 <= v <= 100) (heap w').
Proof.
  apply (X6_a_loaded_session_never_throws fiveCardDb "set-1" sampleClock (js "Five")).
  - reflexivity.
  - vm_compute. discriminate.
  - repeat constructor; simpl; lia.
Defined.

(** X7.  Along every run of a well-formed session the count of correct
    answers grows by exactly the number of correct answers given, and the
    streak is the number of correct answers since the last incorrect one;
    advances, shuffles and toggles change neither. *)
Theorem X7_counters_follow_the_answers es w :
  wellFormed w ->
  Forall validEvent es ->
  exists w',
    run es w = Some w'
    /\ correctCount (ui w') = (correctCount (ui w) + correctAnswers es)%nat
    /\ streak (ui w') = streakAfter es (streak (ui w)).
Proof.
  intros Hwf Hes. destruct (run_wellFormed es w Hwf Hes) as (w' & Hrun & _).
  exists w'. split; [done|]. by apply run_counters.
Qed.

Lemma X7_counters_follow_the_answers_witness :
  exists w',
    run (answered true ++ answered false ++ answered true ++ answered true) fiveCardSession
      = Some w'
    /\ correctCount (ui w') = (correctCount (ui fiveCardSession) + 3)%nat
    /\ streak (ui w') = 2%nat.
Proof.
  apply (X7_counters_follow_the_answers
           (answered true ++ answered false ++ answered true ++ answered true)
           fiveCardSession).
  - apply (loaded_wellFormed fiveCardDb "set-1" sampleClock (js "Five")).
    + reflexivity.
    + vm_compute. discriminate.
  - repeat constructor; simpl; lia.
Defined.

Lemma run_app es1 es2 w : run (es1 ++ es2) w = run es1 w ≫= run es2.
Proof.
  revert w. induction es1 as [|e es1 IH]; intros w; simpl; [done|].
  destruct (step e w) as [w1|]; simpl; [apply IH|done].
Qed.

(** One answer and its advance under the sequential policy. *)
Lemma sequential_round w isCorrect now r i :
  wellFormed w ->
  timers w = [] ->
  spacedRepetition (ui w) = false ->
  currentIndex (ui w) = Idx i ->
  exists w',
    run [ClickAnswer isCorrect now; TimerFires r] w = Some w'
    /\ wellFormed w'
    /\ timers w' = []
    /\ spacedRepetition (ui w') = false
    /\ flashcards (ui w') = flashcards (ui w)
    /\ currentIndex (ui w') = Idx ((i + 1) mod length (flashcards (ui w))).
Proof.
  intros Hwf Htimers Hoff Hi.
  destruct (step_wellFormed (ClickAnswer isCorrect now) w Hwf I) as (w1 & Hstep & Hwf1).
  pose proof Hstep as Hanswer. simpl in Hanswer.
  apply handleAnswer_ui in Hanswer as [Hui Ht1]. rewrite Htimers in Ht1. simpl in Ht1.
  assert (flashcards (ui w1) = flashcards (ui w)) as Hcards by (by rewrite Hui).
  assert (spacedRepetition (ui w1) = false) as Hoff1
    by (rewrite Hui; by destruct isCorrect).
  destruct Hwf as (Hne & _ & (i' & Hi' & Hlt) & _).
  assert (i' = i) as -> by congruence.
  destruct Hwf1 as (Hne1 & Hrefs1 & _ & Hrange1 & _).
  cbn [run]. rewrite Hstep. cbn [mbind option_bind step]. rewrite Ht1.
  unfold advance.
  rewrite (getNextCard_sequential (ui w) (heap (popTimer w1)) r i Hoff Hi Hne).
  simpl. eexists. split; [done|].
  assert ((i + 1) mod length (flashcards (ui w)) < length (flashcards (ui w)))%nat
    as Hmod by (apply Nat.mod_upper_bound; lia).
  unfold wellFormed, validIndex. simpl. rewrite Ht1, Hcards. simpl.
  split; [|done].
  split; [done|]. split; [by rewrite <- Hcards|]. split; [eauto|]. split; [done|].
  constructor.
Qed.

(** X8.  With spaced repetition off the cards are shown in rotation: from
    position [i], after [k] answers (each followed by its advance) the
    position is (i + k) mod n, whatever the verdicts; after one answer per
    card the session is back at the position it started from.  The working
    set keeps its order. *)
Theorem X8_sequential_policy_shows_the_cards_in_rotation w rounds i :
  wellFormed w ->
  timers w = [] ->
  spacedRepetition (ui w) = false ->
  currentIndex (ui w) = Idx i ->
  exists w',
    run (answerRounds rounds) w = Some w'
    /\ currentIndex (ui w') = Idx ((i + length rounds) mod length (flashcards (ui w)))
    /\ flashcards (ui w') = flashcards (ui w)
    /\ (length rounds = length (flashcards (ui w)) -> currentIndex (ui w') = Idx i).
Proof.
  intros Hwf Htimers Hoff Hi.
  assert (i < length (flashcards (ui w)))%nat as Hlt.
  { destruct Hwf as (_ & _ & (i' & Hi' & Hlt) & _). congruence. }
  assert (exists w',
            run (answerRounds rounds) w = Some w'
            /\ currentIndex (ui w') = Idx ((i + length rounds) mod length (flashcards (ui w)))
            /\ flashcards (ui w') = flashcards (ui w)) as (w' & Hrun & Hidx & Hcards).
  { clear Hlt. revert w i Hwf Htimers Hoff Hi.
    induction rounds as [|[[isCorrect now] r] rounds IH]; intros w i Hwf Htimers Hoff Hi.
    - exists w. split; [done|]. split; [|done]. rewrite Hi, Nat.add_0_r. f_equal.
      symmetry. apply Nat.mod_small.
      destruct Hwf as (_ & _ & (i' & Hi' & Hlt) & _). congruence.
    - destruct (sequential_round w isCorrect now r i Hwf Htimers Hoff Hi)
        as (w1 & Hrun1 & Hwf1 & Ht1 & Hoff1 & Hcards1 & Hi1).
      destruct (IH w1 _ Hwf1 Ht1 Hoff1 Hi1) as (w' & Hrun & Hidx & Hcards).
      exists w'. split; [|split].
      + change (answerRounds ((isCorrect, now, r) :: rounds))
          with ([ClickAnswer isCorrect now; TimerFires r] ++ answerRounds rounds).
        rewrite run_app, Hrun1. exact Hrun.
      + rewrite Hidx, Hcards1. f_equal. simpl.
        rewrite Nat.Div0.add_mod_idemp_l. f_equal. lia.
      + by rewrite Hcards, Hcards1. }
  exists w'. split; [done|]. split; [done|]. split; [done|].
  intros Hn. rewrite Hidx, Hn. f_equal.
  rewrite <- Nat.Div0.add_mod_idemp_r, Nat.Div0.mod_same, Nat.add_0_r.
  by apply Nat.mod_small.
Qed.

Lemma X8_sequential_policy_shows_the_cards_in_rotation_witness :
  let w := onUi (setSpacedRepetition false) fiveCardSession in
  let rounds := [(true, 1, 0); (false, 2, 0); (true, 3, 0); (false, 4, 0); (true, 5, 0)] in
  exists w',
    run (answerRounds rounds) w = Some w'
    /\ currentIndex (ui w') = Idx ((0 + length rounds) mod length (flashcards (ui w)))
    /\ flashcards (ui w') = flashcards (ui w)
    /\ (length rounds = length (flashcards (ui w)) -> currentIndex (ui w') = Idx 0).
Proof.
  apply (X8_sequential_policy_shows_the_cards_in_rotation
           (onUi (setSpacedRepetition false) fiveCardSession)
           [(true, 1, 0); (false, 2, 0); (true, 3, 0); (false, 4, 0); (true, 5, 0)] 0%nat).
  - destruct (step_wellFormed (ToggleSpacedRepetition false) fiveCardSession)
      as (w' & Hstep & Hwf).
    + apply (loaded_wellFormed fiveCardDb "set-1" sampleClock (js "Five"));
        [reflexivity|vm_compute; discriminate].
    + exact I.
    + simpl in Hstep. by injection Hstep as <-.
  - reflexivity.
  - reflexivity.
  - reflexivity.
Defined.

(** ** Aggregate confidence, further *)

Lemma roundedMean_at_least (cs : list Z) lo :
  cs ≠ [] -> 0 <= lo -> Forall (fun c => lo <= c <= 100) cs -> lo <= Spec.roundedMean cs.
Proof.
  intros Hne Hlo Hcs. unfold Spec.roundedMean.
  pose proof (sum_bounds cs lo 100 Hcs) as Hsum.
  assert (0 < Z.of_nat (length cs)) by (destruct cs; [done|simpl; lia]).
  apply Z.div_le_lower_bound; nia.
Qed.

(** X9.  For a non-empty working set whose stored confidences lie within
    0..100 the aggregate confidence is a number from 1 to 100: it is never
    0, because a stored 0 enters the mean as 50. *)
Theorem X9_aggregate_confidence_is_between_1_and_100 s h :
  flashcards s ≠ [] ->
  Forall (fun l => forall c, readConfidence h l = Some c -> 0 <= c <= 100) (flashcards s) ->
  exists a, avgConfidence s h = Some a /\ 1 <= a <= 100.
Proof.
  intros Hne Hrange.
  destruct (avgConfidence_range s h Hne Hrange) as (a & Ha & Ha100).
  exists a. split; [done|]. split; [|lia].
  rewrite avgConfidence_rankingKeys in Ha by done. injection Ha as <-.
  apply roundedMean_at_least; [by destruct (flashcards s)|lia|].
  unfold rankingKeys. apply Forall_fmap. eapply Forall_impl; [exact Hrange|].
  intros l Hl. simpl. destruct (readConfidence h l) as [c|] eqn:Hc.
  - pose proof (orDefault50_range c (Hl c Hc)). lia.
  - simpl. lia.
Qed.

Lemma X9_aggregate_confidence_is_between_1_and_100_witness :
  exists a,
    avgConfidence (ui (sessionWith [0; 0; 100])) (heap (sessionWith [0; 0; 100])) = Some a
    /\ 1 <= a <= 100.
Proof.
  apply (X9_aggregate_confidence_is_between_1_and_100 (ui (sessionWith [0; 0; 100]))
           (heap (sessionWith [0; 0; 100]))).
  - vm_compute. discriminate.
  - change (flashcards (ui (sessionWith [0; 0; 100]))) with [0; 1; 2]%nat.
    repeat (constructor; [intros c Hc; vm_compute in Hc; injection Hc as <-; lia|]).
    constructor.
Defined.

(** X10.  When no card of a non-empty working set has the stored confidence
    0 (and none lacks one), the aggregate confidence is the arithmetic mean
    of the stored confidences, rounded to the nearest integer with halves
    rounded up. *)
Theorem X10_aggregate_confidence_is_the_rounded_mean s h cs :
  flashcards s ≠ [] ->
  readConfidence h <$> flashcards s = Some <$> cs ->
  Forall (fun c => c ≠ 0) cs ->
  avgConfidence s h
    = Some ((2 * foldr Z.add 0 cs + Z.of_nat (length cs)) / (2 * Z.of_nat (length cs))).
Proof. intros Hne Hcs Hnz. by rewrite (avgConfidence_mean_of_stored s h cs). Qed.

Lemma X10_aggregate_confidence_is_the_rounded_mean_witness :
  avgConfidence (ui (sessionWith [25; 70; 70])) (heap (sessionWith [25; 70; 70]))
    = Some ((2 * foldr Z.add 0 [25; 70; 70] + Z.of_nat (length [25; 70; 70]))
            / (2 * Z.of_nat (length [25; 70; 70]))).
Proof.
  apply (X10_aggregate_confidence_is_the_rounded_mean (ui (sessionWith [25; 70; 70]))
           (heap (sessionWith [25; 70; 70])) [25; 70; 70]).
  - vm_compute. discriminate.
  - reflexivity.
  - repeat constructor; lia.
Defined.

Lemma sum_Permutation (f : nat -> Z) cards cards' :
  cards ≡ₚ cards' -> foldr Z.add 0 (f <$> cards) = foldr Z.add 0 (f <$> cards').
Proof.
  induction 1 as [|l cards cards' _ IH|l l' cards|cards cards' cards'' _ IH1 _ IH2];
    rewrite ?fmap_cons; cbn [foldr]; [done|by rewrite IH|lia|by rewrite IH1].
Qed.

(** X11.  Shuffling does not change the aggregate confidence, whatever
    order the engine's sort returns. *)
Theorem X11_shuffle_keeps_the_aggregate_confidence
    (shuffleSort : list bool -> list nat -> list nat) (coins : list bool) (w : World) :
  (forall coins l, shuffleSort coins l ≡ₚ l) ->
  let w' := handleShuffle shuffleSort (ui w) coins w in
  avgConfidence (ui w') (heap w') = avgConfidence (ui w) (heap w).
Proof.
  intros Hperm w'. subst w'. unfold handleShuffle, avgConfidence. simpl.
  pose proof (Hperm coins (flashcards (ui w))) as Hp.
  rewrite !foldl_sum_foldr, (Permutation_length Hp).
  by rewrite (sum_Permutation _ _ _ Hp).
Qed.

Lemma X11_shuffle_keeps_the_aggregate_confidence_witness :
  let w := sessionWith [10; 20; 90] in
  let w' := handleShuffle timSortShort (ui w) [true; true; false] w in
  avgConfidence (ui w') (heap w') = avgConfidence (ui w) (heap w).
Proof.
  exact (X11_shuffle_keeps_the_aggregate_confidence timSortShort [true; true; false]
           (sessionWith [10; 20; 90]) (fun coins l => timSortShort_Permutation coins l)).
Defined.

(** ** Typed answers, further *)

Lemma trimStart_whiteSpace (s : list N) : Forall whiteSpace s -> trimStart s = [].
Proof. induction 1 as [|c s Hc _ IH]; simpl; [done|]. by rewrite Hc. Qed.

Lemma trim_nil_iff (s : list N) : trim s = [] <-> Forall whiteSpace s.
Proof.
  split.
  - intros Hnil. destruct (trim_spec s) as (pre & post & Hs & Hpre & Hpost & _).
    rewrite Hnil in Hs. rewrite Hs. simpl. by apply Forall_app.
  - intros Hws. unfold trim. by rewrite (trimStart_whiteSpace s Hws).
Qed.

(** X12.  Submitting a typed answer that is empty or consists of whitespace
    only does nothing at all; any other answer reveals the definition
    ([showAnswer] becomes true) and changes nothing else, in particular no
    confidence and no counter. *)
Theorem X12_blank_answers_are_not_submitted s w :
  (Forall whiteSpace (userAnswer s) -> handleSubmit s w = w)
  /\ (¬ Forall whiteSpace (userAnswer s) ->
      handleSubmit s w = onUi (setShowAnswer true) w
      /\ heap (handleSubmit s w) = heap w
      /\ streak (ui (handleSubmit s w)) = streak (ui w)
      /\ correctCount (ui (handleSubmit s w)) = correctCount (ui w)
      /\ currentIndex (ui (handleSubmit s w)) = currentIndex (ui w)
      /\ timers (handleSubmit s w) = timers w).
Proof.
  unfold handleSubmit. split.
  - intros Hws. by rewrite (proj2 (trim_nil_iff _) Hws).
  - intros Hws. destruct (trim (userAnswer s)) as [|c t] eqn:Htrim; [|done].
    by apply trim_nil_iff in Htrim.
Qed.

Lemma trimStart_pad_l (pre s : list N) :
  Forall whiteSpace pre -> trimStart (pre ++ s) = trimStart s.
Proof. induction 1 as [|c pre Hc _ IH]; simpl; [done|]. by rewrite Hc. Qed.

Lemma trimEnd_pad_r (s post : list N) :
  Forall whiteSpace post -> trimEnd (s ++ post) = trimEnd s.
Proof.
  intros Hpost. unfold trimEnd. rewrite reverse_app.
  by rewrite trimStart_pad_l by (by apply Forall_reverse).
Qed.

Lemma trimStart_app (s post : list N) :
  trimStart (s ++ post) = trimStart s ++ post
  \/ (trimStart s = [] /\ trimStart (s ++ post) = trimStart post).
Proof.
  induction s as [|c s IH]; simpl; [by right|].
  destruct (isWhiteSpace c); [exact IH|by left].
Qed.

(** Whitespace around a string does not survive [trim]. *)
Lemma trim_pad (pre s post : list N) :
  Forall whiteSpace pre -> Forall whiteSpace post -> trim (pre ++ s ++ post) = trim s.
Proof.
  intros Hpre Hpost. unfold trim. rewrite trimStart_pad_l by done.
  destruct (trimStart_app s post) as [->|[Hnil ->]].
  - by apply trimEnd_pad_r.
  - by rewrite Hnil, (trimStart_whiteSpace post Hpost).
Qed.

Lemma lowerUnit_whiteSpace c : whiteSpace c -> lowerUnit c = c.
Proof.
  unfold whiteSpace, isWhiteSpace, lowerUnit. intros Hws.
  destruct ((65 <=? c)%N && (c <=? 90)%N) eqn:Hletter; [|done].
  apply andb_true_iff in Hletter as [H1%N.leb_le H2%N.leb_le].
  repeat (apply orb_true_iff in Hws as [Hws|Hws]);
    repeat match goal with
           | H : (_ && _) = true |- _ => apply andb_true_iff in H as [? ?]
           | H : (_ <=? _)%N = true |- _ => apply N.leb_le in H
           | H : (_ =? _)%N = true |- _ => apply N.eqb_eq in H
           end; lia.
Qed.

Lemma asciiLower_whiteSpace (s : list N) : Forall whiteSpace s -> asciiLower s = s.
Proof.
  induction 1 as [|c s Hc _ IH]; [done|].
  unfold asciiLower in *. rewrite fmap_cons, IH. by rewrite lowerUnit_whiteSpace.
Qed.

(** X13.  The verdict on a typed answer does not depend on whitespace
    around the answer nor on the case of its ASCII letters: padding an
    ASCII answer with ASCII whitespace, or replacing it by an answer that
    differs from it in letter case only, leaves the verdict as it is. *)
Theorem X13_verdict_ignores_padding_and_letter_case
    (toLowerCase : list N -> list N) (pre answer post other definition : list N) :
  (forall s, isAscii s -> toLowerCase s = asciiLower s) ->
  isAscii pre -> isAscii answer -> isAscii post -> isAscii other ->
  Forall whiteSpace pre -> Forall whiteSpace post ->
  asciiLower other = asciiLower answer ->
  typedAnswerIsCorrect toLowerCase (pre ++ answer ++ post) definition
    = typedAnswerIsCorrect toLowerCase answer definition
  /\ typedAnswerIsCorrect toLowerCase other definition
    = typedAnswerIsCorrect toLowerCase answer definition.
Proof.
  intros Hlower Hpre Hanswer Hpost Hother Hwpre Hwpost Hcase.
  unfold typedAnswerIsCorrect. split.
  - rewrite (Hlower (pre ++ answer ++ post)) by (unfold isAscii; by rewrite !Forall_app).
    rewrite (Hlower answer) by done.
    unfold asciiLower. rewrite !fmap_app. fold (asciiLower pre) (asciiLower post).
    rewrite (asciiLower_whiteSpace pre), (asciiLower_whiteSpace post) by done.
    by rewrite trim_pad.
  - by rewrite (Hlower other), (Hlower answer), Hcase.
Qed.

Lemma X13_verdict_ignores_padding_and_letter_case_witness :
  typedAnswerIsCorrect asciiLower (js "  " ++ js "Paris" ++ js " ") (js "paris")
    = typedAnswerIsCorrect asciiLower (js "Paris") (js "paris")
  /\ typedAnswerIsCorrect asciiLower (js "pARIS") (js "paris")
    = typedAnswerIsCorrect asciiLower (js "Paris") (js "paris").
Proof.
  apply (X13_verdict_ignores_padding_and_letter_case asciiLower (js "  ") (js "Paris")
           (js " ") (js "pARIS") (js "paris"));
    [intros s _; reflexivity
    |unfold isAscii; repeat constructor..
    |repeat constructor|repeat constructor|reflexivity].
Defined.

(** * Test Mode *)

Section TestModeProperties.
Import TestMode.

(** ** The settings *)

Lemma filter_other_nonempty (t : string) (l : list string) :
  NoDup l -> (1 < length l)%nat -> filter (fun x => x ≠ t) l ≠ [].
Proof.
  intros Hnd Hlen. destruct l as [|a [|b l']]; simpl in Hlen; [lia..|].
  apply NoDup_cons in Hnd as [Hab _].
  destruct (decide (a = t)) as [->|Hat].
  - rewrite filter_cons_False by (intros H; by apply H).
    rewrite filter_cons_True; [done|]. intros ->. apply Hab. by left.
  - by rewrite filter_cons_True.
Qed.

Lemma toggle_selectedTypes t w :
  selectedTypes (ui w) ≠ [] -> NoDup (selectedTypes (ui w)) ->
  selectedTypes (ui (toggleQuestionType (ui w) t w)) ≠ []
  /\ NoDup (selectedTypes (ui (toggleQuestionType (ui w) t w))).
Proof.
  intros Hne Hnd. unfold toggleQuestionType, includes.
  case_bool_decide as Hin.
  - destruct (1 <? length (selectedTypes (ui w)))%nat eqn:Hlen; [|done].
    apply Nat.ltb_lt in Hlen. simpl. split.
    + by apply filter_other_nonempty.
    + by apply NoDup_filter.
  - simpl. split.
    + intros Happ. by apply app_eq_nil in Happ as [_ ?].
    + apply NoDup_app. split; [done|]. split; [|apply NoDup_singleton].
      intros x Hx ->%list_elem_of_singleton. done.
Qed.

Lemma configure_selectedTypes e w :
  selectedTypes (ui w) ≠ [] -> NoDup (selectedTypes (ui w)) ->
  selectedTypes (ui (configure e w)) ≠ []
  /\ NoDup (selectedTypes (ui (configure e w))).
Proof. destruct e; simpl; [by apply toggle_selectedTypes|done..]. Qed.

Lemma configureAll_selectedTypes es w :
  selectedTypes (ui w) ≠ [] -> NoDup (selectedTypes (ui w)) ->
  selectedTypes (ui (configureAll es w)) ≠ []
  /\ NoDup (selectedTypes (ui (configureAll es w))).
Proof.
  revert w. induction es as [|e es IH]; intros w Hne Hnd; [done|].
  destruct (configure_selectedTypes e w Hne Hnd) as [Hne' Hnd'].
  by apply IH.
Qed.

Lemma startTest_ui s qs w :
  questions (ui (startTest s qs w)) = qs
  /\ testStarted (ui (startTest s qs w)) = true
  /\ isLoading (ui (startTest s qs w)) = isLoading (ui w)
  /\ showResults (ui (startTest s qs w)) = showResults (ui w)
  /\ currentIndex (ui (startTest s qs w)) = currentIndex (ui w)
  /\ timeLimit (ui (startTest s qs w)) = timeLimit (ui w)
  /\ timeRemaining (ui (startTest s qs w))
     = (if 0 <? timeLimit s then Some (timeLimit s * 60) else timeRemaining (ui w)).
Proof. unfold startTest. by destruct (0 <? timeLimit s). Qed.

(** What [generateQuestions] leaves behind when at least one type is
    selected: the test is started with the questions of the service or with
    the manual ones. *)
Lemma generateQuestions_started shuffleSort s coins ai draws w :
  selectedTypes s ≠ [] ->
  exists qs w0,
    generateQuestions shuffleSort s coins ai draws w = startTest s qs w0
    /\ isLoading (ui w0) = isLoading (ui w)
    /\ showResults (ui w0) = showResults (ui w)
    /\ currentIndex (ui w0) = currentIndex (ui w)
    /\ timeLimit (ui w0) = timeLimit (ui w)
    /\ timeRemaining (ui w0) = timeRemaining (ui w)
    /\ (manualWay s ai -> qs = manualQuestions shuffleSort s coins draws).
Proof.
  intros Hne. unfold generateQuestions.
  case_bool_decide as Hlen; [by destruct (selectedTypes s)|].
  destruct (useAI s) eqn:Hai.
  - destruct ai as [|[[|q qs]|]]; eexists _, _; (split; [reflexivity|]);
      repeat (split; [done|]); try done.
    intros [?|[?|[?|?]]]; congruence.
  - eexists _, _. split; [reflexivity|]. by repeat (split; [done|]).
Qed.

(** X14.  Whatever is done on the settings page, at least one question type
    stays selected and none is selected twice; so the refusal of
    [generateQuestions] for an empty selection never applies and "Start
    Test" starts a test, with or without the question service. *)
Theorem X14_a_question_type_always_stays_selected
    (shuffleSort : forall A : Type, list bool -> list A -> list A)
    (es : list Setting) (w : World) (coins : list bool) (ai : Invocation)
    (draws : nat -> Draws) :
  selectedTypes (ui w) ≠ [] -> NoDup (selectedTypes (ui w)) ->
  let w' := configureAll es w in
  selectedTypes (ui w') ≠ []
  /\ NoDup (selectedTypes (ui w'))
  /\ testStarted (ui (generateQuestions shuffleSort (ui w') coins ai draws w')) = true.
Proof.
  intros Hne Hnd w'.
  destruct (configureAll_selectedTypes es w Hne Hnd) as [Hne' Hnd'].
  fold w' in Hne', Hnd'. repeat split; [done..|].
  destruct (generateQuestions_started shuffleSort (ui w') coins ai draws w' Hne')
    as (qs & w0 & -> & _).
  apply startTest_ui.
Qed.

Lemma X14_a_question_type_always_stays_selected_witness :
  let w' := configureAll [Toggle "multiple_choice"; Toggle "true_false";
                          Toggle "fill_blank"; Count 0] initialWorld in
  selectedTypes (ui w') ≠ []
  /\ NoDup (selectedTypes (ui w'))
  /\ testStarted (ui (generateQuestions (@timSortShort) (ui w') [] InvokeFailed
                        sampleDraws w')) = true.
Proof.
  apply (X14_a_question_type_always_stays_selected (@timSortShort)
           [Toggle "multiple_choice"; Toggle "true_false"; Toggle "fill_blank"; Count 0]
           initialWorld [] InvokeFailed sampleDraws).
  - done.
  - simpl. repeat (apply NoDup_cons; split; [by vm_compute; intros H; repeat (apply elem_of_cons in H as [H|H]; [done|]); by apply elem_of_nil in H|]). apply NoDup_nil_2.
Defined.

Lemma filter_all {A} (P : A -> Prop) `{!forall x, Decision (P x)} (l : list A) :
  (forall x, x ∈ l -> P x) -> filter P l = l.
Proof.
  induction l as [|a l IH]; intros Hall; [done|].
  rewrite filter_cons_True by (apply Hall; by left).
  f_equal. apply IH. intros x Hx. apply Hall. by right.
Qed.

Lemma filter_other_restores (t : string) (l : list string) :
  NoDup l -> t ∈ l -> filter (fun x => x ≠ t) l ++ [t] ≡ₚ l.
Proof.
  induction 1 as [|a l Ha Hnd IH]; intros Hin; [by apply elem_of_nil in Hin|].
  destruct (decide (a = t)) as [->|Hat].
  - rewrite filter_cons_False by (intros H; by apply H).
    assert (filter (fun x => x ≠ t) l = l) as ->.
    { apply filter_all. intros x Hx ->. done. }
    by rewrite Permutation_app_comm.
  - rewrite filter_cons_True by done. simpl. f_equiv. apply IH.
    apply elem_of_cons in Hin as [?|?]; [congruence|done].
Qed.

Lemma toggle_selection t w :
  selectedTypes (ui (toggleQuestionType (ui w) t w))
  = if bool_decide (t ∈ selectedTypes (ui w)) then
      if (1 <? length (selectedTypes (ui w)))%nat
      then filter (fun x => x ≠ t) (selectedTypes (ui w))
      else selectedTypes (ui w)
    else selectedTypes (ui w) ++ [t].
Proof.
  unfold toggleQuestionType, includes.
  by destruct (bool_decide (t ∈ selectedTypes (ui w))),
    (1 <? length (selectedTypes (ui w)))%nat.
Qed.

(** X15.  Toggling the same question type twice gives back the selection,
    up to the order of the types, provided the selection was not empty. *)
Theorem X15_toggling_twice_restores_the_selection (t : string) (w : World) :
  selectedTypes (ui w) ≠ [] -> NoDup (selectedTypes (ui w)) ->
  let w1 := toggleQuestionType (ui w) t w in
  let w2 := toggleQuestionType (ui w1) t w1 in
  selectedTypes (ui w2) ≡ₚ selectedTypes (ui w).
Proof.
  intros Hne Hnd. cbv zeta. rewrite !toggle_selection.
  generalize dependent (selectedTypes (ui w)). intros l Hne Hnd.
  destruct (decide (t ∈ l)) as [Hin|Hin].
  - rewrite (bool_decide_eq_true_2 (t ∈ l)) by done.
    destruct (1 <? length l)%nat eqn:Hlen.
    + rewrite bool_decide_eq_false_2; [by apply filter_other_restores|].
      intros [Ht _]%list_elem_of_filter. done.
    + rewrite bool_decide_eq_true_2 by done. by rewrite Hlen.
  - rewrite (bool_decide_eq_false_2 (t ∈ l)) by done.
    rewrite bool_decide_eq_true_2 by (apply elem_of_app; right; by left).
    assert ((1 <? length (l ++ [t]))%nat = true) as ->.
    { apply Nat.ltb_lt. rewrite length_app. simpl. destruct l; [done|simpl; lia]. }
    rewrite filter_app.
    rewrite (filter_cons_False _ t []) by (intros H; by apply H).
    rewrite filter_nil, app_nil_r.
    rewrite filter_all; [done|]. intros x Hx ->. done.
Qed.

Lemma X15_toggling_twice_restores_the_selection_witness :
  let w1 := toggleQuestionType (ui initialWorld) "true_false" initialWorld in
  let w2 := toggleQuestionType (ui w1) "true_false" w1 in
  selectedTypes (ui w2) ≡ₚ selectedTypes (ui initialWorld).
Proof.
  apply (X15_toggling_twice_restores_the_selection "true_false" initialWorld); [done|].
  simpl. repeat (apply NoDup_cons; split; [intros H; repeat (apply elem_of_cons in H as [H|H]; [done|]); by apply elem_of_nil in H|]). apply NoDup_nil_2.
Defined.

(** ** Loading the set and starting the test *)

Lemma length_sliceTo {A} (n : Z) (l : list A) :
  length (sliceTo n l)
  = Z.to_nat (if n <? 0 then Z.max (Z.of_nat (length l) + n) 0
              else Z.min n (Z.of_nat (length l))).
Proof. unfold sliceTo. rewrite length_take. destruct (n <? 0) eqn:Hn; lia. Qed.

(** *** Numbers that are not whole *)

Lemma toIntegerOrInfinity_inject_Z z : toIntegerOrInfinity (inject_Z z) = z.
Proof. unfold toIntegerOrInfinity. simpl. apply Z.quot_1_r. Qed.

Lemma toIntegerOrInfinity_le_Z (q : Q) z :
  (q <= inject_Z z)%Q -> toIntegerOrInfinity q <= z.
Proof.
  unfold Qle, toIntegerOrInfinity. simpl. intros Hle.
  rewrite <- (Z.quot_mul z (Z.pos (Qden q))) by done.
  apply Z.quot_le_mono; lia.
Qed.

Lemma toIntegerOrInfinity_ge_Z (q : Q) z :
  (inject_Z z <= q)%Q -> z <= toIntegerOrInfinity q.
Proof.
  unfold Qle, toIntegerOrInfinity. simpl. intros Hle.
  rewrite <- (Z.quot_mul z (Z.pos (Qden q))) at 1 by done.
  apply Z.quot_le_mono; lia.
Qed.

Lemma toIntegerOrInfinity_mathMin (q : Q) z :
  toIntegerOrInfinity (mathMin q (inject_Z z)) = Z.min (toIntegerOrInfinity q) z.
Proof.
  unfold mathMin. destruct (Qle_bool q (inject_Z z)) eqn:Hle.
  - apply Qle_bool_iff in Hle. apply toIntegerOrInfinity_le_Z in Hle. lia.
  - assert (inject_Z z <= q)%Q as Hge.
    { apply Qlt_le_weak, Qnot_le_lt. intros H%Qle_bool_iff. congruence. }
    apply toIntegerOrInfinity_ge_Z in Hge. rewrite toIntegerOrInfinity_inject_Z. lia.
Qed.

(** The number of cards [slice] is asked for: the number of questions of
    the settings, cut down to the number of cards and to 40 and then
    truncated, is the truncated number of questions cut down likewise. *)
Lemma toIntegerOrInfinity_countOf s :
  toIntegerOrInfinity (countOf s)
  = Z.min (Z.min (toIntegerOrInfinity (questionCount s))
             (Z.of_nat (length (flashcards s)))) 40.
Proof.
  unfold countOf. change 40%Q with (inject_Z 40).
  by rewrite !toIntegerOrInfinity_mathMin.
Qed.

(** Between -1 and 1 a number is truncated to 0. *)
Lemma toIntegerOrInfinity_zero (q : Q) :
  (-1 < q)%Q -> (q < 1)%Q -> toIntegerOrInfinity q = 0.
Proof.
  unfold Qlt, toIntegerOrInfinity. simpl. intros Hlo Hhi.
  destruct (Z.le_gt_cases 0 (Qnum q)) as [Hpos|Hneg].
  - apply Z.quot_small. lia.
  - rewrite <- (Z.opp_involutive (Qnum q)), Z.quot_opp_l by done.
    rewrite Z.quot_small; lia.
Qed.

(** The cards a test is made from without the question service. *)
Lemma manualQuestions_take (shuffleSort : forall A : Type, list bool -> list A -> list A)
    s coins draws :
  (forall A coins (l : list A), shuffleSort A coins l ≡ₚ l) ->
  let sorted := shuffleSort _ coins (flashcards s) in
  let n := Z.of_nat (length (flashcards s)) in
  let t := Z.min (Z.min (toIntegerOrInfinity (questionCount s)) n) 40 in
  manualQuestions shuffleSort s coins draws
  = imap (fun i card => manualQuestion shuffleSort sorted (selectedTypes s) (draws i) card)
      (take (Z.to_nat (if t <? 0 then n + t else t)) sorted).
Proof.
  intros Hperm sorted n t. unfold manualQuestions. cbv zeta. fold sorted.
  f_equal. unfold sliceTo. rewrite toIntegerOrInfinity_countOf. fold n t.
  assert (Z.of_nat (length sorted) = n) as ->.
  { unfold sorted, n. by rewrite (Permutation_length (Hperm _ coins (flashcards s))). }
  f_equal. destruct (t <? 0) eqn:Ht; lia.
Qed.

(** X16.  When the set exists and has cards, Test Mode opens on the
    settings page with the cards of the set in the order of their position
    and with the number of questions preset to the number of cards, at most
    10; a test started from there without the question service has exactly
    that many questions and opens on its first question. *)
Theorem X16_default_test_has_up_to_ten_questions
    (shuffleSort : forall A : Type, list bool -> list A -> list A)
    (db : Database) (setId : string) (title : list N) (coins : list bool)
    (ai : Invocation) (draws : nat -> Draws) :
  (forall A coins (l : list A), shuffleSort A coins l ≡ₚ l) ->
  data (titleOfSet db setId) = Some title ->
  cardsOfSet db setId ≠ [] ->
  let w := fetchSetAndCards setId (serving db) initialWorld in
  let n := Z.of_nat (length (cardsOfSet db setId)) in
  flashcards (ui w) = cardsOfSet db setId
  /\ questionCount (ui w) = inject_Z (Z.min n 10)
  /\ render (ui w) = Some SettingsPage
  /\ toasts w = [] /\ navigations w = []
  /\ (manualWay (ui w) ai ->
      let w' := generateQuestions shuffleSort (ui w) coins ai draws w in
      Z.of_nat (length (questions (ui w'))) = Z.min n 10
      /\ exists q, questions (ui w') !! 0%nat = Some q
                   /\ render (ui w') = Some (QuestionPage q)).
Proof.
  intros Hperm Htitle Hne w n.
  apply titleOfSet_data in Htitle.
  assert (w = onUi (setIsLoading false)
                (onUi (setQuestionCount (inject_Z (Z.min n 10)))
                   (onUi (setFlashcards (cardsOfSet db setId))
                      (onUi (setSetTitle title) initialWorld)))) as Hw.
  { subst w n. unfold fetchSetAndCards. simpl. rewrite Htitle. simpl.
    by destruct (cardsOfSet db setId). }
  clearbody w. subst w.
  repeat (split; [done|]).
  intros Hway w'.
  set (w := onUi (setIsLoading false) _) in *.
  set (s := ui w) in *.
  destruct (generateQuestions_started shuffleSort s coins ai draws w)
    as (qs & w0 & Hgen & Hload & Hres & Hidx & _ & _ & Hqs); [done|].
  fold w' in Hgen. clearbody w'. subst w'.
  specialize (Hqs Hway).
  destruct (startTest_ui s qs w0) as (-> & Hstarted & Hload' & Hres' & Hidx' & _).
  assert (0 < n) by (subst n; destruct (cardsOfSet db setId); [done|simpl; lia]).
  assert (Z.of_nat (length qs) = Z.min n 10) as Hlen.
  { rewrite Hqs, manualQuestions_take by done. rewrite length_imap, length_take.
    rewrite (Permutation_length (Hperm _ coins (flashcards s))).
    assert (toIntegerOrInfinity (questionCount s) = Z.min n 10) as ->
      by (unfold s, w; cbn; apply toIntegerOrInfinity_inject_Z).
    assert (Z.of_nat (length (flashcards s)) = n) as Hcards by done.
    rewrite Hcards. destruct (_ <? 0) eqn:Hneg; lia. }
  split; [done|].
  destruct qs as [|q qs']; [simpl in Hlen; lia|].
  exists q. split; [done|].
  unfold render. rewrite Hload', Hload, Hstarted, Hres', Hres, Hidx', Hidx.
  destruct (startTest_ui s (q :: qs') w0) as (-> & _). done.
Qed.

Lemma X16_default_test_has_up_to_ten_questions_witness :
  let w := fetchSetAndCards "set-2" (serving capitalsDb) initialWorld in
  let n := Z.of_nat (length (cardsOfSet capitalsDb "set-2")) in
  flashcards (ui w) = cardsOfSet capitalsDb "set-2"
  /\ questionCount (ui w) = inject_Z (Z.min n 10)
  /\ render (ui w) = Some SettingsPage
  /\ toasts w = [] /\ navigations w = []
  /\ (manualWay (ui w) InvokeFailed ->
      let w' := generateQuestions (@timSortShort) (ui w) [true] InvokeFailed
                  sampleDraws w in
      Z.of_nat (length (questions (ui w'))) = Z.min n 10
      /\ exists q, questions (ui w') !! 0%nat = Some q
                   /\ render (ui w') = Some (QuestionPage q)).
Proof.
  apply (X16_default_test_has_up_to_ten_questions (@timSortShort) capitalsDb "set-2"
           (js "Capitals") [true] InvokeFailed sampleDraws).
  - intros A coins l. apply timSortShort_Permutation.
  - reflexivity.
  - by vm_compute.
Defined.

(** ** The questions of a test made without the question service *)

Lemma generateQuestions_manual
    (shuffleSort : forall A : Type, list bool -> list A -> list A) coins ai draws w :
  selectedTypes (ui w) ≠ [] -> manualWay (ui w) ai -> onSettings w ->
  let w' := generateQuestions shuffleSort (ui w) coins ai draws w in
  questions (ui w') = manualQuestions shuffleSort (ui w) coins draws
  /\ isLoading (ui w') = false /\ testStarted (ui w') = true
  /\ showResults (ui w') = false /\ currentIndex (ui w') = 0%nat
  /\ timeLimit (ui w') = timeLimit (ui w)
  /\ timeRemaining (ui w')
     = (if 0 <? timeLimit (ui w) then Some (timeLimit (ui w) * 60)
        else timeRemaining (ui w)).
Proof.
  intros Hne Hway (Hload & _ & Hres & Hidx) w'.
  destruct (generateQuestions_started shuffleSort (ui w) coins ai draws w Hne)
    as (qs & w0 & Hgen & Hload0 & Hres0 & Hidx0 & Hlimit0 & Hrem0 & Hqs).
  fold w' in Hgen. clearbody w'. subst w'. specialize (Hqs Hway). subst qs.
  destruct (startTest_ui (ui w) (manualQuestions shuffleSort (ui w) coins draws) w0)
    as (-> & -> & -> & -> & -> & -> & ->).
  rewrite Hload0, Hres0, Hidx0, Hlimit0, Hrem0. done.
Qed.

(** X17.  With at least one card and a number of questions of at least 1,
    whole or not, a test made without the question service is made from
    the first cards of the shuffled set, one question per card, as many as
    the number of questions truncated to a whole number, but no more than
    there are cards and no more than 40; these are between 1 and 40
    questions, and the test opens on its first question. *)
Theorem X17_manual_test_has_the_number_of_questions_asked_for
    (shuffleSort : forall A : Type, list bool -> list A -> list A)
    (w : World) (coins : list bool) (ai : Invocation) (draws : nat -> Draws) :
  (forall A coins (l : list A), shuffleSort A coins l ≡ₚ l) ->
  onSettings w -> selectedTypes (ui w) ≠ [] -> manualWay (ui w) ai ->
  (1 <= questionCount (ui w))%Q -> flashcards (ui w) ≠ [] ->
  let w' := generateQuestions shuffleSort (ui w) coins ai draws w in
  let sorted := shuffleSort _ coins (flashcards (ui w)) in
  let n := Z.of_nat (length (flashcards (ui w))) in
  let k := Z.min (Z.min (toIntegerOrInfinity (questionCount (ui w))) n) 40 in
  questions (ui w')
  = imap (fun i card =>
            manualQuestion shuffleSort sorted (selectedTypes (ui w)) (draws i) card)
      (take (Z.to_nat k) sorted)
  /\ sorted ≡ₚ flashcards (ui w)
  /\ Z.of_nat (length (questions (ui w'))) = k
  /\ (questionCount (ui w) - 1 < inject_Z (toIntegerOrInfinity (questionCount (ui w)))
      <= questionCount (ui w))%Q
  /\ (1 <= length (questions (ui w')) <= 40)%nat
  /\ (length (questions (ui w')) <= length (flashcards (ui w)))%nat
  /\ onFirstQuestion w'
  /\ exists q, render (ui w') = Some (QuestionPage q).
Proof.
  intros Hperm Hset Hne Hway Hcount Hcards w' sorted n k.
  destruct (generateQuestions_manual shuffleSort coins ai draws w Hne Hway Hset)
    as (Hqs & Hload & Hstarted & Hres & Hidx & _).
  fold w' in Hqs, Hload, Hstarted, Hres, Hidx. clearbody w'.
  assert (0 < n) as Hn by (subst n; destruct (flashcards (ui w)); [done|simpl; lia]).
  assert (1 <= toIntegerOrInfinity (questionCount (ui w))) as Hone
    by (by apply toIntegerOrInfinity_ge_Z).
  assert (1 <= k <= 40 /\ k <= n) as Hk by (unfold k; lia).
  rewrite manualQuestions_take in Hqs by done. cbv zeta in Hqs. fold n k sorted in Hqs.
  assert ((k <? 0) = false) as Hpos by (apply Z.ltb_ge; lia).
  rewrite Hpos in Hqs.
  assert (Z.of_nat (length (questions (ui w'))) = k) as Hlen.
  { rewrite Hqs, length_imap, length_take. unfold sorted.
    rewrite (Permutation_length (Hperm _ coins (flashcards (ui w)))). fold n. lia. }
  split; [done|]. split; [apply Hperm|]. split; [done|].
  split.
  { unfold toIntegerOrInfinity, Qlt, Qle, Qminus, Qplus, Qopp in *. simpl in *.
    destruct (questionCount (ui w)) as [num den]. simpl in *.
    pose proof (Z.quot_rem' num (Z.pos den)) as Hdiv.
    pose proof (Z.rem_bound_pos num (Z.pos den) ltac:(lia) ltac:(lia)) as Hrem.
    nia. }
  split; [lia|]. split; [lia|].
  assert (questions (ui w') ≠ []) as Hqne.
  { intros Hnil. rewrite Hnil in Hlen. simpl in Hlen. lia. }
  split; [done|].
  unfold render. rewrite Hload, Hstarted, Hres, Hidx. simpl.
  destruct (questions (ui w')) as [|q qs]; [done|]. by exists q.
Qed.

Lemma X17_manual_test_has_the_number_of_questions_asked_for_witness :
  let w := configureAll [Count (5 # 2)] capitalsLoaded in
  let w' := generateQuestions (@timSortShort) (ui w) [true] InvokeFailed
              sampleDraws w in
  let sorted := timSortShort [true] (flashcards (ui w)) in
  let n := Z.of_nat (length (flashcards (ui w))) in
  let k := Z.min (Z.min (toIntegerOrInfinity (questionCount (ui w))) n) 40 in
  questions (ui w')
  = imap (fun i card =>
            manualQuestion (@timSortShort) sorted (selectedTypes (ui w)) (sampleDraws i) card)
      (take (Z.to_nat k) sorted)
  /\ sorted ≡ₚ flashcards (ui w)
  /\ Z.of_nat (length (questions (ui w'))) = k
  /\ (questionCount (ui w) - 1 < inject_Z (toIntegerOrInfinity (questionCount (ui w)))
      <= questionCount (ui w))%Q
  /\ (1 <= length (questions (ui w')) <= 40)%nat
  /\ (length (questions (ui w')) <= length (flashcards (ui w)))%nat
  /\ onFirstQuestion w'
  /\ exists q, render (ui w') = Some (QuestionPage q).
Proof.
  apply (X17_manual_test_has_the_number_of_questions_asked_for (@timSortShort)
           (configureAll [Count (5 # 2)] capitalsLoaded) [true] InvokeFailed sampleDraws).
  - intros A coins l. apply timSortShort_Permutation.
  - by vm_compute.
  - by vm_compute.
  - right. by left.
  - by vm_compute.
  - by vm_compute.
Defined.

(** With two and a half questions asked of the three capitals the test
    has two. *)
Example two_and_a_half_questions :
  length (questions (ui (generateQuestions (@timSortShort)
                           (ui (configureAll [Count (5 # 2)] capitalsLoaded)) [true]
                           InvokeFailed sampleDraws
                           (configureAll [Count (5 # 2)] capitalsLoaded))))
  = 2%nat.
Proof. by vm_compute. Qed.

(** X18.  A number of questions below 1 is not refused.  It is truncated
    towards zero.  When that gives 0 (any number between -1 and 1, such as
    0, the value of an empty input) the test is started without any
    question, and the question page, which reads the type of the current
    question, cannot be rendered.  When it gives [-k] the test is made from
    the cards of the shuffled set without its last [k], one question per
    card (none if there are no more than [k] cards): the limit of 40 does
    not apply. *)
Theorem X18_number_of_questions_below_one
    (shuffleSort : forall A : Type, list bool -> list A -> list A)
    (w : World) (coins : list bool) (ai : Invocation) (draws : nat -> Draws) :
  (forall A coins (l : list A), shuffleSort A coins l ≡ₚ l) ->
  onSettings w -> selectedTypes (ui w) ≠ [] -> manualWay (ui w) ai ->
  (questionCount (ui w) < 1)%Q ->
  let w' := generateQuestions shuffleSort (ui w) coins ai draws w in
  let sorted := shuffleSort _ coins (flashcards (ui w)) in
  let t := toIntegerOrInfinity (questionCount (ui w)) in
  let k := Z.to_nat (- t) in
  testStarted (ui w') = true
  /\ sorted ≡ₚ flashcards (ui w)
  /\ t <= 0
  /\ ((-1 < questionCount (ui w))%Q -> t = 0)
  /\ ((questionCount (ui w) <= -1)%Q ->
      t <= -1 /\ (questionCount (ui w) <= inject_Z t < questionCount (ui w) + 1)%Q)
  /\ (t = 0 -> questions (ui w') = [])
  /\ (t < 0 ->
      questions (ui w')
      = imap (fun i card =>
                manualQuestion shuffleSort sorted (selectedTypes (ui w)) (draws i) card)
          (take (length sorted - k) sorted)
      /\ length (questions (ui w')) = (length (flashcards (ui w)) - k)%nat)
  /\ (questions (ui w') = [] -> render (ui w') = None).
Proof.
  intros Hperm Hset Hne Hway Hcount w' sorted t k.
  destruct (generateQuestions_manual shuffleSort coins ai draws w Hne Hway Hset)
    as (Hqs & Hload & Hstarted & Hres & Hidx & _).
  fold w' in Hqs, Hload, Hstarted, Hres, Hidx. clearbody w'.
  pose proof (Permutation_length (Hperm _ coins (flashcards (ui w)))) as Hlen.
  fold sorted in Hlen.
  assert (t <= 0) as Ht.
  { unfold t, toIntegerOrInfinity. unfold Qlt in Hcount. simpl in Hcount.
    rewrite <- (Z.quot_small (Z.pos (Qden (questionCount (ui w))) - 1)
                  (Z.pos (Qden (questionCount (ui w))))) by lia.
    apply Z.quot_le_mono; lia. }
  rewrite manualQuestions_take in Hqs by done. cbv zeta in Hqs. fold sorted t in Hqs.
  set (n := Z.of_nat (length (flashcards (ui w)))) in *.
  assert (Z.min (Z.min t n) 40 = t) as Hmin by lia. rewrite Hmin in Hqs.
  split; [done|]. split; [apply Hperm|]. split; [done|].
  split; [intros Hlo; by apply toIntegerOrInfinity_zero|].
  split.
  { intros Hle. split; [by apply (toIntegerOrInfinity_le_Z _ (-1))|].
    unfold t, toIntegerOrInfinity, Qlt, Qle, Qplus in *. simpl in *.
    destruct (questionCount (ui w)) as [num den]. simpl in *.
    pose proof (Z.quot_rem' num (Z.pos den)) as Hdiv.
    pose proof (Z.rem_bound_abs num (Z.pos den) ltac:(lia)) as Hrem.
    pose proof (Z.rem_nonpos num (Z.pos den) ltac:(lia) ltac:(lia)) as Hrem'.
    nia. }
  split; [|split].
  - intros Hzero. rewrite Hqs, Hzero. done.
  - intros Hneg. rewrite (proj2 (Z.ltb_lt _ _) Hneg) in Hqs.
    assert (Z.to_nat (n + t) = (length sorted - k)%nat) as Hk by (unfold k, n; lia).
    rewrite Hk in Hqs. split; [done|].
    rewrite Hqs, length_imap, length_take. lia.
  - intros Hnil. unfold render. by rewrite Hload, Hstarted, Hres, Hidx, Hnil.
Qed.

Lemma X18_number_of_questions_below_one_witness :
  let w := configureAll [Count (-3 # 2)] capitalsLoaded in
  let w' := generateQuestions (@timSortShort) (ui w) [true] InvokeFailed
              sampleDraws w in
  let sorted := timSortShort [true] (flashcards (ui w)) in
  let t := toIntegerOrInfinity (questionCount (ui w)) in
  let k := Z.to_nat (- t) in
  testStarted (ui w') = true
  /\ sorted ≡ₚ flashcards (ui w)
  /\ t <= 0
  /\ ((-1 < questionCount (ui w))%Q -> t = 0)
  /\ ((questionCount (ui w) <= -1)%Q ->
      t <= -1 /\ (questionCount (ui w) <= inject_Z t < questionCount (ui w) + 1)%Q)
  /\ (t = 0 -> questions (ui w') = [])
  /\ (t < 0 ->
      questions (ui w')
      = imap (fun i card =>
                manualQuestion (@timSortShort) sorted (selectedTypes (ui w)) (sampleDraws i)
                  card)
          (take (length sorted - k) sorted)
      /\ length (questions (ui w')) = (length (flashcards (ui w)) - k)%nat)
  /\ (questions (ui w') = [] -> render (ui w') = None).
Proof.
  apply (X18_number_of_questions_below_one (@timSortShort)
           (configureAll [Count (-3 # 2)] capitalsLoaded) [true] InvokeFailed sampleDraws).
  - intros A coins l. apply timSortShort_Permutation.
  - by vm_compute.
  - by vm_compute.
  - right. by left.
  - by vm_compute.
Defined.

(** With minus one and a half questions asked of the three capitals the
    test has two; with no number, or with a half, it has none and the
    question page throws. *)
Example questions_below_one :
  length (questions (ui (generateQuestions (@timSortShort)
                           (ui (configureAll [Count (-3 # 2)] capitalsLoaded)) [true]
                           InvokeFailed sampleDraws
                           (configureAll [Count (-3 # 2)] capitalsLoaded))))
  = 2%nat
  /\ render (ui (generateQuestions (@timSortShort)
                  (ui (configureAll [Count 0] capitalsLoaded)) [true]
                  InvokeFailed sampleDraws (configureAll [Count 0] capitalsLoaded)))
     = None
  /\ render (ui (generateQuestions (@timSortShort)
                  (ui (configureAll [Count (1 # 2)] capitalsLoaded)) [true]
                  InvokeFailed sampleDraws (configureAll [Count (1 # 2)] capitalsLoaded)))
     = None.
Proof. repeat split; by vm_compute. Qed.

Lemma strictEq_refl (s : list N) : strictEq s s = true.
Proof. unfold strictEq. by apply bool_decide_eq_true_2. Qed.

Lemma isCorrect_correct_answer toLowerCase q :
  isCorrect toLowerCase (withUserAnswer (correct_answer q) q) = true.
Proof.
  unfold isCorrect. simpl.
  destruct (bool_decide (question_type q = "fill_blank"%string)); apply strictEq_refl.
Qed.

Lemma manualQuestion_answerable
    (shuffleSort : forall A : Type, list bool -> list A -> list A)
    cards types d card :
  (forall A coins (l : list A), shuffleSort A coins l ≡ₚ l) ->
  let q := manualQuestion shuffleSort cards types d card in
  answerable q /\ user_answer q = None
  /\ (forall os, options q = Some os -> (length os <= 4)%nat).
Proof.
  intros Hperm q. subst q. unfold manualQuestion, answerable. cbv zeta.
  case_bool_decide as Hmc; [|case_bool_decide as Htf];
    cbn [options correct_answer question_type user_answer].
  - split; [|split; [done|]].
    + right. eexists. split; [reflexivity|].
      eapply elem_of_Permutation_proper; [apply Hperm|]. by left.
    + intros os [= <-]. rewrite (Permutation_length (Hperm _ _ _)).
      cbn [length]. rewrite length_fmap, length_take. lia.
  - split; [|split; [done|]].
    + right. eexists. split; [reflexivity|].
      destruct (isTrueDraw d); [by left|right; by left].
    + intros os [= <-]. cbn [length]. lia.
  - split; [by left|]. done.
Qed.





Lemma head_filter_first {A} (P : A -> Prop) `{!forall x, Decision (P x)} (l : list A) x :
  head (filter P l) = Some x ->
  P x /\ exists before rest, l = before ++ x :: rest /\ Forall (fun z => ¬ P z) before.
Proof.
  induction l as [|a l IH]; [done|].
  destruct (decide (P a)) as [Ha|Ha].
  - rewrite filter_cons_True by done. intros [= <-].
    split; [done|]. by exists [], l.
  - rewrite filter_cons_False by done. intros Hhead.
    destruct (IH Hhead) as (Hx & before & rest & -> & Hbefore).
    split; [done|]. exists (a :: before), rest. split; [done|]. by constructor.
Qed.

Lemma head_filter_nothing {A} (P : A -> Prop) `{!forall x, Decision (P x)} (l : list A) :
  head (filter P l) = None <-> Forall (fun z => ¬ P z) l.
Proof.
  induction l as [|a l IH]; [done|].
  destruct (decide (P a)) as [Ha|Ha].
  - rewrite filter_cons_True by done. split; [done|].
    intros Hall. by inversion Hall.
  - rewrite filter_cons_False by done. rewrite IH, Forall_cons. tauto.
Qed.

(** X20.  A true/false question that is drawn as false shows, in the place
    of the definition, the definition of the first other card of the
    shuffled set (the first card with another id), unless there is no other
    card or that definition is empty: then it shows the card's own
    definition.  So the statement put to the user is the true one, word for
    word the question drawn as true, exactly when there is no other card or
    the first other card has an empty definition or the same definition as
    the card; the expected answer is False in every case. *)
Theorem X20_false_statement_may_show_the_own_definition
    (shuffleSort : forall A : Type, list bool -> list A -> list A)
    (cards : list CardRow) (types : list string) (d : Draws) (card : CardRow) :
  types !! randomIndex (typeDraw d) (length types) = Some "true_false"%string ->
  let drawnFalse := manualQuestion shuffleSort cards types
                      (mkDraws (typeDraw d) (wrongCoins d) (optionCoins d) false) card in
  let drawnTrue := manualQuestion shuffleSort cards types
                     (mkDraws (typeDraw d) (wrongCoins d) (optionCoins d) true) card in
  let firstOther := head (filter (otherThan card) cards) in
  let statement (definition : list N) :=
    js "True or False: " ++ quote ++ row_term card ++ quote ++ js " means "
      ++ quote ++ definition ++ quote in
  question_text drawnTrue = statement (row_definition card)
  /\ (forall other, firstOther = Some other -> row_definition other ≠ [] ->
        question_text drawnFalse = statement (row_definition other))
  /\ (forall other, firstOther = Some other -> row_definition other = [] ->
        question_text drawnFalse = statement (row_definition card))
  /\ (firstOther = None -> question_text drawnFalse = statement (row_definition card))
  /\ (question_text drawnFalse = question_text drawnTrue
      <-> match firstOther with
          | Some other =>
              row_definition other = [] \/ row_definition other = row_definition card
          | None => True
          end)
  /\ (forall other, firstOther = Some other ->
        row_id other ≠ row_id card
        /\ exists before rest,
             cards = before ++ other :: rest
             /\ Forall (fun c => row_id c = row_id card) before)
  /\ (firstOther = None <-> Forall (fun c => row_id c = row_id card) cards)
  /\ correct_answer drawnFalse = js "False"
  /\ correct_answer drawnTrue = js "True"
  /\ options drawnFalse = Some [js "True"; js "False"].
Proof.
  intros Htype drawnFalse drawnTrue firstOther statement.
  assert (forall l : list CardRow,
            Forall (fun z => ¬ otherThan card z) l
            <-> Forall (fun c => row_id c = row_id card) l) as Hsame.
  { intros l. apply Forall_proper; [|done]. intros c. unfold otherThan.
    destruct (decide (row_id c = row_id card)); tauto. }
  assert (question_text drawnTrue = statement (row_definition card)
          /\ correct_answer drawnTrue = js "True"
          /\ correct_answer drawnFalse = js "False"
          /\ options drawnFalse = Some [js "True"; js "False"]
          /\ question_text drawnFalse
             = statement match firstOther with
                         | Some other =>
                             match row_definition other with
                             | [] => row_definition card
                             | _ => row_definition other
                             end
                         | None => row_definition card
                         end) as (Htrue & Hanswer & Hanswer' & Hoptions & Hfalse).
  { unfold drawnTrue, drawnFalse, manualQuestion. cbv zeta.
    cbn [typeDraw isTrueDraw]. rewrite Htype.
    rewrite bool_decide_eq_false_2 by done.
    rewrite bool_decide_eq_true_2 by done.
    cbn [question_text correct_answer options]. done. }
  clearbody drawnFalse drawnTrue.
  split; [done|]. split; [|split; [|split; [|split; [|split; [|split]]]]].
  - intros other Hother Hdef. rewrite Hfalse, Hother.
    by destruct (row_definition other).
  - intros other Hother Hdef. by rewrite Hfalse, Hother, Hdef.
  - intros Hnone. by rewrite Hfalse, Hnone.
  - rewrite Hfalse, Htrue. destruct firstOther as [other|]; [|done].
    destruct (row_definition other) as [|u def] eqn:Hdef.
    + split; [by left|done].
    + split.
      * intros Heq. right. unfold statement in Heq.
        do 6 apply app_inv_head in Heq. by apply app_inv_tail in Heq.
      * intros [?|Heq]; [done|]. by rewrite Heq.
  - intros other Hother.
    destruct (head_filter_first _ _ _ Hother) as (Hid & before & rest & Hcards & Hbefore).
    split; [exact Hid|]. exists before, rest. split; [done|]. by apply Hsame.
  - unfold firstOther. rewrite head_filter_nothing. apply Hsame.
  - done.
Qed.

Lemma X20_false_statement_may_show_the_own_definition_witness :
  let cards := [capital "a" "France" "Paris" 0; capital "b" "Italy" "Rome" 1;
                capital "c" "Spain" "Madrid" 2] in
  let card := capital "a" "France" "Paris" 0 in
  let drawnFalse := manualQuestion (@timSortShort) cards ["true_false"%string]
                      (mkDraws 0 [] [] false) card in
  let drawnTrue := manualQuestion (@timSortShort) cards ["true_false"%string]
                     (mkDraws 0 [] [] true) card in
  let firstOther := head (filter (otherThan card) cards) in
  let statement (definition : list N) :=
    js "True or False: " ++ quote ++ row_term card ++ quote ++ js " means "
      ++ quote ++ definition ++ quote in
  question_text drawnTrue = statement (row_definition card)
  /\ (forall other, firstOther = Some other -> row_definition other ≠ [] ->
        question_text drawnFalse = statement (row_definition other))
  /\ (forall other, firstOther = Some other -> row_definition other = [] ->
        question_text drawnFalse = statement (row_definition card))
  /\ (firstOther = None -> question_text drawnFalse = statement (row_definition card))
  /\ (question_text drawnFalse = question_text drawnTrue
      <-> match firstOther with
          | Some other =>
              row_definition other = [] \/ row_definition other = row_definition card
          | None => True
          end)
  /\ (forall other, firstOther = Some other ->
        row_id other ≠ row_id card
        /\ exists before rest,
             cards = before ++ other :: rest
             /\ Forall (fun c => row_id c = row_id card) before)
  /\ (firstOther = None <-> Forall (fun c => row_id c = row_id card) cards)
  /\ correct_answer drawnFalse = js "False"
  /\ correct_answer drawnTrue = js "True"
  /\ options drawnFalse = Some [js "True"; js "False"].
Proof.
  apply (X20_false_statement_may_show_the_own_definition (@timSortShort)
           [capital "a" "France" "Paris" 0; capital "b" "Italy" "Rome" 1;
            capital "c" "Spain" "Madrid" 2]
           ["true_false"%string] (mkDraws 0 [] [] false)
           (capital "a" "France" "Paris" 0)).
  reflexivity.
Defined.

(** Three cards, of which the first two have the definition Paris: the
    question on the first card drawn as false reads like the one drawn as
    true.  With a single card it does so as well. *)
Example false_statement_that_is_true :
  question_text (manualQuestion (@timSortShort)
                   [capital "a" "France" "Paris" 0; capital "b" "Texas" "Paris" 1;
                    capital "c" "Spain" "Madrid" 2]
                   ["true_false"%string] (mkDraws 0 [] [] false)
                   (capital "a" "France" "Paris" 0))
  = question_text (manualQuestion (@timSortShort)
                     [capital "a" "France" "Paris" 0; capital "b" "Texas" "Paris" 1;
                      capital "c" "Spain" "Madrid" 2]
                     ["true_false"%string] (mkDraws 0 [] [] true)
                     (capital "a" "France" "Paris" 0))
  /\ manualQuestion (@timSortShort) [capital "a" "France" "Paris" 0]
       ["true_false"%string] (mkDraws 0 [] [] false) (capital "a" "France" "Paris" 0)
     = {| question_type := "true_false";
          question_text := js "True or False: " ++ quote ++ js "France" ++ quote
                             ++ js " means " ++ quote ++ js "Paris" ++ quote;
          correct_answer := js "False";
          user_answer := None;
          options := Some [js "True"; js "False"];
          explanation := Some (js "The correct answer is False. France means Paris") |}.
Proof. split; by vm_compute. Qed.

(** X21.  When the question service fails or returns no question, the test
    is the one made without the service: the state of the page is the same
    as with the switch for the service off, the only differences being the
    request that was sent and, for a failure, its notification. *)
Theorem X21_without_questions_of_the_service_the_test_is_the_manual_one
    (shuffleSort : forall A : Type, list bool -> list A -> list A)
    (s : State) (coins : list bool) (ai : Invocation) (draws : nat -> Draws)
    (w : World) :
  useAI s = true -> selectedTypes s ≠ [] ->
  ai = InvokeFailed \/ ai = InvokeData None \/ ai = InvokeData (Some []) ->
  let asked := generateQuestions shuffleSort s coins ai draws w in
  let notAsked := generateQuestions shuffleSort (setUseAI false s) coins ai draws w in
  ui asked = ui notAsked
  /\ navigations asked = navigations notAsked
  /\ invocations notAsked = invocations w
  /\ invocations asked
     = invocations w
       ++ [mkRequest (sliceTo (toIntegerOrInfinity (countOf s)) (shuffleSort _ coins (flashcards s)))
             (selectedTypes s) (countOf s)]
  /\ toasts notAsked
     = toasts w ++ [ToastLoading "Making test..." "generating-test";
                    ToastDismiss "generating-test"; ToastSuccess "Test ready!"]
  /\ toasts asked
     = toasts w ++ [ToastLoading "Making test..." "generating-test"]
       ++ match ai with
          | InvokeFailed =>
              [ToastDismiss "generating-test";
               ToastError "AI generation failed, using manual questions"]
          | InvokeData _ => []
          end
       ++ [ToastDismiss "generating-test"; ToastSuccess "Test ready!"].
Proof.
  intros Hai Hne Hcases asked notAsked. subst asked notAsked.
  unfold generateQuestions. rewrite Hai. cbn [useAI setUseAI selectedTypes].
  rewrite bool_decide_eq_false_2 by (by destruct (selectedTypes s)).
  unfold startTest. cbn [timeLimit setUseAI].
  assert (forall (l : list Toast) a b c, ((l ++ [a]) ++ [b]) ++ [c] = l ++ [a; b; c])
    as Hthree by (intros; by rewrite <- !app_assoc).
  assert (forall (l : list Toast) a b c d e,
            ((((l ++ [a]) ++ [b]) ++ [c]) ++ [d]) ++ [e] = l ++ [a] ++ [b; c] ++ [d; e])
    as Hfive by (intros; by rewrite <- !app_assoc).
  destruct Hcases as [->|[->| ->]]; destruct (0 <? timeLimit s); cbn;
    by rewrite ?Hfive, ?Hthree.
Qed.

Lemma X21_without_questions_of_the_service_the_test_is_the_manual_one_witness :
  let s := ui capitalsLoaded in
  let asked := generateQuestions (@timSortShort) s [true] InvokeFailed sampleDraws
                 capitalsLoaded in
  let notAsked := generateQuestions (@timSortShort) (setUseAI false s) [true]
                    InvokeFailed sampleDraws capitalsLoaded in
  ui asked = ui notAsked
  /\ navigations asked = navigations notAsked
  /\ invocations notAsked = invocations capitalsLoaded
  /\ invocations asked
     = invocations capitalsLoaded
       ++ [mkRequest (sliceTo (toIntegerOrInfinity (countOf s)) (timSortShort [true] (flashcards s)))
             (selectedTypes s) (countOf s)]
  /\ toasts notAsked
     = toasts capitalsLoaded
       ++ [ToastLoading "Making test..." "generating-test";
           ToastDismiss "generating-test"; ToastSuccess "Test ready!"]
  /\ toasts asked
     = toasts capitalsLoaded ++ [ToastLoading "Making test..." "generating-test"]
       ++ [ToastDismiss "generating-test";
           ToastError "AI generation failed, using manual questions"]
       ++ [ToastDismiss "generating-test"; ToastSuccess "Test ready!"].
Proof.
  apply (X21_without_questions_of_the_service_the_test_is_the_manual_one
           (@timSortShort) (ui capitalsLoaded) [true] InvokeFailed sampleDraws
           capitalsLoaded).
  - reflexivity.
  - by vm_compute.
  - by left.
Defined.



(** ** Taking the test *)

Lemma step_Answer a w q :
  isLoading (ui w) = false -> testStarted (ui w) = true ->
  showResults (ui w) = false ->
  questions (ui w) !! currentIndex (ui w) = Some q ->
  step (Answer a) w
  = Some (let w1 := onUi (setQuestions
                            (<[currentIndex (ui w) := withUserAnswer a q]>
                               (questions (ui w))))
                      (onUi (setUserAnswer a) w) in
          if (currentIndex (ui w) + 1 <? length (questions (ui w)))%nat
          then onUi (setUserAnswer [])
                 (onUi (setCurrentIndex (currentIndex (ui w) + 1)) w1)
          else finishTest w1).
Proof.
  intros Hload Hstarted Hres Hq. unfold step, render.
  rewrite Hload, Hstarted, Hres. cbn [negb]. rewrite Hq. cbn.
  unfold handleSubmit. cbn. rewrite Hq. done.
Qed.

(** Answers given one after the other, from the question [length answered]
    on. *)
Lemma run_answers answers : forall answered rest w,
  isLoading (ui w) = false -> testStarted (ui w) = true ->
  showResults (ui w) = false ->
  questions (ui w) = answered ++ rest ->
  currentIndex (ui w) = length answered ->
  rest ≠ [] -> (length answers <= length rest)%nat ->
  exists w',
    run (Answer <$> answers) w = Some w'
    /\ questions (ui w')
       = answered ++ zip_with withUserAnswer answers rest ++ drop (length answers) rest
    /\ isLoading (ui w') = false /\ testStarted (ui w') = true
    /\ toasts w' = toasts w /\ navigations w' = navigations w
    /\ (if (length answers <? length rest)%nat
        then showResults (ui w') = false
             /\ currentIndex (ui w') = (length answered + length answers)%nat
             /\ timeRemaining (ui w') = timeRemaining (ui w)
             /\ userAnswer (ui w')
                = match answers with [] => userAnswer (ui w) | _ => [] end
        else showResults (ui w') = true /\ timeRemaining (ui w') = None).
Proof.
  induction answers as [|a answers IH]; intros answered rest w Hload Hstarted Hres
    Hqs Hidx Hrest Hlen.
  - exists w. simpl. rewrite drop_0. repeat (split; [done|]).
    destruct rest; [done|]. simpl. split; [done|]. split; [lia|done].
  - destruct rest as [|q rest]; [done|]. simpl in Hlen.
    assert (questions (ui w) !! currentIndex (ui w) = Some q) as Hq.
    { rewrite Hqs, Hidx. by rewrite list_lookup_middle. }
    cbn [fmap list_fmap run]. rewrite (step_Answer a w q) by done.
    cbn [mbind option_bind]. cbv zeta.
    assert (<[currentIndex (ui w) := withUserAnswer a q]> (questions (ui w))
            = (answered ++ [withUserAnswer a q]) ++ rest) as Hins.
    { rewrite Hqs, Hidx. rewrite insert_app_r_alt by lia.
      rewrite Nat.sub_diag. simpl. by rewrite <- app_assoc. }
    rewrite Hins.
    assert (length (questions (ui w)) = (length answered + S (length rest))%nat) as Hn.
    { rewrite Hqs, length_app. done. }
    destruct rest as [|q' rest'].
    + destruct answers; [|simpl in Hlen; lia].
      assert ((currentIndex (ui w) + 1 <? length (questions (ui w)))%nat = false) as ->.
      { apply Nat.ltb_ge. rewrite Hn, Hidx. simpl. lia. }
      eexists. split; [reflexivity|]. cbn. rewrite <- app_assoc. done.
    + assert ((currentIndex (ui w) + 1 <? length (questions (ui w)))%nat = true) as ->.
      { apply Nat.ltb_lt. rewrite Hn, Hidx. simpl. lia. }
      edestruct (IH (answered ++ [withUserAnswer a q]) (q' :: rest')) as
        (w' & Hrun & Hqs' & Hload' & Hstarted' & Htoasts & Hnav & Hflags);
        [..|exists w'; split; [exact Hrun|]]; try done.
      * cbn. rewrite length_app. simpl. lia.
      * simpl in *. lia.
      * rewrite Hqs'. rewrite <- app_assoc. split; [done|].
        repeat (split; [done|]).
        cbn [length]. rewrite length_app in Hflags. cbn [length] in Hflags.
        change (S (length answers) <? S (S (length rest')))%nat
          with (length answers <? S (length rest'))%nat.
        destruct (length answers <? S (length rest'))%nat; [|done].
        destruct Hflags as (? & -> & -> & ->). split; [done|]. split; [lia|].
        split; [done|]. by destruct answers.
Qed.

(** X22.  Answers submitted one after the other are stored with the
    questions in their order, each question keeping everything else; as
    long as a question is left the next one is shown with an empty input,
    and with the last answer the results are shown and the countdown is
    cleared. *)
Theorem X22_submitted_answers_are_stored_in_order (answers : list (list N)) (w : World) :
  onFirstQuestion w ->
  (length answers <= length (questions (ui w)))%nat ->
  exists w',
    run (Answer <$> answers) w = Some w'
    /\ questions (ui w')
       = zip_with withUserAnswer answers (questions (ui w))
         ++ drop (length answers) (questions (ui w))
    /\ (forall i q a, questions (ui w) !! i = Some q -> answers !! i = Some a ->
          questions (ui w') !! i = Some (withUserAnswer a q))
    /\ ((length answers < length (questions (ui w)))%nat ->
        exists q, questions (ui w) !! length answers = Some q
                  /\ render (ui w') = Some (QuestionPage q)
                  /\ (answers ≠ [] -> userAnswer (ui w') = []))
    /\ (length answers = length (questions (ui w)) ->
        render (ui w') = Some ResultsPage /\ timeRemaining (ui w') = None).
Proof.
  intros (Hload & Hstarted & Hres & Hidx & Hne) Hlen.
  destruct (run_answers answers [] (questions (ui w)) w) as
    (w' & Hrun & Hqs & Hload' & Hstarted' & _ & _ & Hflags); try done.
  simpl in Hqs, Hflags.
  exists w'. split; [done|]. split; [done|]. split; [|split].
  - intros i q a Hq Ha. rewrite Hqs.
    rewrite lookup_app_l by (rewrite length_zip_with; apply lookup_lt_Some in Hq, Ha; lia).
    rewrite lookup_zip_with, Ha. simpl. by rewrite Hq.
  - intros Hlt. apply Nat.ltb_lt in Hlt as Hltb. rewrite Hltb in Hflags.
    destruct Hflags as (Hres' & Hidx' & _ & Hanswer).
    destruct (lookup_lt_is_Some_2 (questions (ui w)) (length answers) Hlt) as [q Hq].
    exists q. split; [done|]. split.
    + unfold render. rewrite Hload', Hstarted', Hres', Hidx', Hqs. cbn [negb].
      rewrite lookup_app_r by (rewrite length_zip_with; lia).
      rewrite length_zip_with, Nat.min_l, Nat.sub_diag by lia.
      rewrite lookup_drop, Nat.add_0_r, Hq. done.
    + intros Hans. destruct answers; [done|]. tauto.
  - intros Heq. assert ((length answers <? length (questions (ui w)))%nat = false) as Hge
      by (apply Nat.ltb_ge; lia).
    rewrite Hge in Hflags. destruct Hflags as [Hres' Hrem].
    split; [|done]. unfold render. by rewrite Hload', Hstarted', Hres'.
Qed.


Lemma X22_submitted_answers_are_stored_in_order_witness :
  exists w',
    run (Answer <$> [js "Paris"; js "True"]) (capitalsTest 0) = Some w'
    /\ questions (ui w')
       = zip_with withUserAnswer [js "Paris"; js "True"] (questions (ui (capitalsTest 0)))
         ++ drop (length [js "Paris"; js "True"]) (questions (ui (capitalsTest 0)))
    /\ (forall i q a, questions (ui (capitalsTest 0)) !! i = Some q ->
          [js "Paris"; js "True"] !! i = Some a ->
          questions (ui w') !! i = Some (withUserAnswer a q))
    /\ ((length [js "Paris"; js "True"] < length (questions (ui (capitalsTest 0))))%nat ->
        exists q, questions (ui (capitalsTest 0)) !! length [js "Paris"; js "True"] = Some q
                  /\ render (ui w') = Some (QuestionPage q)
                  /\ ([js "Paris"; js "True"] ≠ [] -> userAnswer (ui w') = []))
    /\ (length [js "Paris"; js "True"] = length (questions (ui (capitalsTest 0))) ->
        render (ui w') = Some ResultsPage /\ timeRemaining (ui w') = None).
Proof.
  apply (X22_submitted_answers_are_stored_in_order [js "Paris"; js "True"]
           (capitalsTest 0)).
  - by vm_compute.
  - vm_compute. lia.
Defined.

Lemma step_Second w :
  inTest w -> step Second w = Some (afterRender (timerFires (ui w) w)).
Proof.
  intros (Hload & Hstarted & Hpage). unfold step, render.
  rewrite Hload, Hstarted. cbn [negb].
  destruct (showResults (ui w)); [done|].
  destruct Hpage as [?|Hidx]; [done|].
  by destruct (lookup_lt_is_Some_2 _ _ Hidx) as [q ->].
Qed.

Lemma timerFires_inTest s w : inTest w -> inTest (timerFires s w).
Proof. unfold timerFires. by destruct (countdown s). Qed.

Lemma afterRender_inTest w : inTest w -> inTest (afterRender w).
Proof.
  unfold afterRender. destruct (countdown (ui w)); try done.
  intros (Hload & Hstarted & _). repeat split; try done. by left.
Qed.

(** During a test no event makes the page throw. *)
Lemma step_inTest e w : inTest w -> exists w', step e w = Some w' /\ inTest w'.
Proof.
  intros Hin. destruct e as [a|].
  - destruct Hin as (Hload & Hstarted & Hpage).
    destruct (showResults (ui w)) eqn:Hres.
    + exists w. split; [|repeat split; try done; by left].
      unfold step, render. by rewrite Hload, Hstarted, Hres.
    + destruct Hpage as [?|Hidx]; [done|].
      destruct (lookup_lt_is_Some_2 _ _ Hidx) as [q Hq].
      rewrite (step_Answer a w q) by done. eexists. split; [reflexivity|]. cbv zeta.
      destruct (currentIndex (ui w) + 1 <? length (questions (ui w)))%nat eqn:Hnext.
      * apply Nat.ltb_lt in Hnext. repeat split; try done.
        right. cbn. rewrite length_insert. lia.
      * repeat split; try done. by left.
  - rewrite step_Second by done. eexists. split; [reflexivity|].
    by apply afterRender_inTest, timerFires_inTest.
Qed.

Lemma run_inTest es : forall w, inTest w -> exists w', run es w = Some w' /\ inTest w'.
Proof.
  induction es as [|e es IH]; intros w Hin; [by exists w|].
  destruct (step_inTest e w Hin) as (w1 & Hstep & Hin1).
  destruct (IH w1 Hin1) as (w' & Hrun & Hin').
  exists w'. simpl. rewrite Hstep. done.
Qed.

(** Once the results are shown nothing changes any more. *)
Lemma run_results es : forall w,
  inTest w -> showResults (ui w) = true -> timeRemaining (ui w) = None ->
  run es w = Some w.
Proof.
  induction es as [|e es IH]; intros w Hin Hres Hrem; [done|].
  assert (step e w = Some w) as Hstep.
  { destruct e as [a|].
    - destruct Hin as (Hload & Hstarted & _).
      unfold step, render. by rewrite Hload, Hstarted, Hres.
    - rewrite step_Second by done. f_equal.
      unfold timerFires, afterRender, countdown. rewrite Hrem.
      destruct (testStarted (ui w) && (0 <? timeLimit (ui w))); simpl;
        rewrite ?Hrem; by destruct (testStarted (ui w) && (0 <? timeLimit (ui w))). }
  simpl. rewrite Hstep. simpl. by apply IH.
Qed.

(** One event while the countdown runs with [t] seconds left. *)
Lemma step_counting e w t :
  inTest w -> showResults (ui w) = false -> 0 < timeLimit (ui w) ->
  timeRemaining (ui w) = Some t -> 0 < t ->
  exists w',
    step e w = Some w' /\ inTest w' /\ timeLimit (ui w') = timeLimit (ui w)
    /\ (showResults (ui w') = true /\ timeRemaining (ui w') = None
        \/ showResults (ui w') = false
           /\ timeRemaining (ui w') = Some (t - Z.of_nat (seconds [e]))
           /\ 0 < t - Z.of_nat (seconds [e])).
Proof.
  intros Hin Hres Hlimit Hrem Ht.
  destruct (step_inTest e w Hin) as (w' & Hstep & Hin').
  exists w'. split; [done|]. split; [done|].
  destruct e as [a|].
  - destruct Hin as (Hload & Hstarted & [?|Hidx]); [congruence|].
    destruct (lookup_lt_is_Some_2 _ _ Hidx) as [q Hq].
    rewrite (step_Answer a w q) in Hstep by done. cbv zeta in Hstep.
    injection Hstep as <-.
    destruct (currentIndex (ui w) + 1 <? length (questions (ui w)))%nat.
    + split; [done|]. right. cbn. rewrite Hres, Hrem. simpl.
      split; [done|]. split; [f_equal; lia|lia].
    + split; [done|]. by left.
  - rewrite step_Second in Hstep by done. injection Hstep as <-.
    destruct Hin as (Hload & Hstarted & _).
    assert (countdown (ui w) = Armed (t - 1)) as Harmed.
    { unfold countdown. rewrite Hstarted, Hrem.
      rewrite (proj2 (Z.ltb_lt _ _) Hlimit). simpl.
      by rewrite (proj2 (Z.leb_gt _ _) Ht). }
    unfold timerFires. rewrite Harmed. unfold afterRender, countdown. cbn.
    rewrite Hstarted, (proj2 (Z.ltb_lt _ _) Hlimit). simpl.
    destruct (t - 1 <=? 0) eqn:Hlast.
    + split; [done|]. by left.
    + apply Z.leb_gt in Hlast. split; [done|]. right. cbn. rewrite Hres.
      split; [done|]. split; [done|lia].
Qed.

Lemma run_counting es : forall w t,
  inTest w -> showResults (ui w) = false -> 0 < timeLimit (ui w) ->
  timeRemaining (ui w) = Some t -> 0 < t ->
  exists w',
    run es w = Some w' /\ inTest w'
    /\ (showResults (ui w') = true /\ timeRemaining (ui w') = None
        \/ showResults (ui w') = false
           /\ timeRemaining (ui w') = Some (t - Z.of_nat (seconds es))
           /\ 0 < t - Z.of_nat (seconds es)).
Proof.
  induction es as [|e es IH]; intros w t Hin Hres Hlimit Hrem Ht.
  - exists w. simpl. split; [done|]. split; [done|]. right.
    rewrite Z.sub_0_r. done.
  - destruct (step_counting e w t Hin Hres Hlimit Hrem Ht)
      as (w1 & Hstep & Hin1 & Hlimit1 & Hcases).
    cbn [run]. rewrite Hstep. cbn [mbind option_bind].
    destruct Hcases as [[Hres1 Hrem1]|(Hres1 & Hrem1 & Ht1)].
    + exists w1. rewrite run_results by done. split; [done|]. split; [done|]. by left.
    + destruct (IH w1 _ Hin1 Hres1 ltac:(by rewrite Hlimit1) Hrem1 Ht1)
        as (w' & Hrun & Hin' & Hcases').
      exists w'. split; [done|]. split; [done|].
      destruct Hcases' as [?|(? & Hrem' & ?)]; [by left|right].
      assert (t - Z.of_nat (seconds [e]) - Z.of_nat (seconds es)
              = t - Z.of_nat (seconds (e :: es))) as Heq
        by (destruct e; simpl seconds; lia).
      rewrite <- Heq. done.
Qed.

(** X23.  With a time limit of [m] minutes the countdown starts at [60 m]
    seconds and loses one second per second, whatever is answered in
    between; when [60 m] seconds have passed the results are shown and no
    answer is accepted any more.  Without a limit the passing of time
    changes nothing.  No sequence of answers and seconds makes the page
    throw. *)
Theorem X23_the_test_ends_when_the_time_is_up (es : list Event) (w : World) :
  inTest w -> showResults (ui w) = false ->
  exists w',
    run es w = Some w' /\ inTest w'
    /\ (0 < timeLimit (ui w) -> timeRemaining (ui w) = Some (timeLimit (ui w) * 60) ->
        (timeLimit (ui w) * 60 <= Z.of_nat (seconds es) ->
         render (ui w') = Some ResultsPage /\ timeRemaining (ui w') = None)
        /\ (showResults (ui w') = false ->
            timeRemaining (ui w')
            = Some (timeLimit (ui w) * 60 - Z.of_nat (seconds es))))
    /\ (timeLimit (ui w) <= 0 -> step Second w = Some w).
Proof.
  intros Hin Hres.
  destruct (run_inTest es w Hin) as (w' & Hrun & Hin').
  exists w'. split; [done|]. split; [done|]. split.
  - intros Hlimit Hrem.
    destruct (run_counting es w _ Hin Hres Hlimit Hrem ltac:(lia))
      as (w'' & Hrun' & _ & Hcases).
    assert (w'' = w') as -> by congruence.
    destruct Hcases as [[Hres' Hrem']|(Hres' & Hrem' & Hleft)].
    + split; [|congruence]. intros _. split; [|done].
      destruct Hin' as (Hload' & Hstarted' & _).
      unfold render. by rewrite Hload', Hstarted', Hres'.
    + split; [lia|done].
  - intros Hlimit. rewrite step_Second by done. f_equal.
    unfold timerFires, afterRender, countdown.
    rewrite (proj2 (Z.ltb_ge _ _) Hlimit), andb_false_r. simpl.
    by rewrite (proj2 (Z.ltb_ge _ _) Hlimit), andb_false_r.
Qed.

Lemma X23_the_test_ends_when_the_time_is_up_witness :
  exists w',
    run (replicate 30 Second ++ [Answer (js "Paris")] ++ replicate 30 Second)
      (capitalsTest 1) = Some w'
    /\ inTest w'
    /\ (0 < timeLimit (ui (capitalsTest 1)) ->
        timeRemaining (ui (capitalsTest 1)) = Some (timeLimit (ui (capitalsTest 1)) * 60) ->
        (timeLimit (ui (capitalsTest 1)) * 60
         <= Z.of_nat (seconds (replicate 30 Second ++ [Answer (js "Paris")]
                                ++ replicate 30 Second)) ->
         render (ui w') = Some ResultsPage /\ timeRemaining (ui w') = None)
        /\ (showResults (ui w') = false ->
            timeRemaining (ui w')
            = Some (timeLimit (ui (capitalsTest 1)) * 60
                    - Z.of_nat (seconds (replicate 30 Second ++ [Answer (js "Paris")]
                                          ++ replicate 30 Second)))))
    /\ (timeLimit (ui (capitalsTest 1)) <= 0 -> step Second (capitalsTest 1)
                                                 = Some (capitalsTest 1)).
Proof.
  apply (X23_the_test_ends_when_the_time_is_up
           (replicate 30 Second ++ [Answer (js "Paris")] ++ replicate 30 Second)
           (capitalsTest 1)).
  - vm_compute. repeat split. right. lia.
  - reflexivity.
Defined.



(** ** The results *)

(** The percentage of every result of up to 100 questions, computed in
    double precision. *)
Lemma percentOf_table (correct n : nat) :
  (correct <= n)%nat -> (1 <= n <= 100)%nat -> percentOfChecked correct n = true.
Proof.
  intros Hc Hn.
  assert (forallb (fun n => forallb (fun c => percentOfChecked c n) (seq 0 (S n)))
            (seq 1 100) = true) as Htable by (by vm_compute).
  rewrite forallb_forall in Htable.
  specialize (Htable n ltac:(apply in_seq; lia)).
  rewrite forallb_forall in Htable.
  apply Htable. apply in_seq. lia.
Qed.

Lemma correctAnswers_le toLowerCase qs :
  (correctAnswers toLowerCase qs <= length qs)%nat.
Proof. apply length_filter. Qed.

Lemma correctAnswers_all toLowerCase qs :
  correctAnswers toLowerCase qs = length qs
  <-> Forall (fun q => isCorrect toLowerCase q = true) qs.
Proof.
  unfold correctAnswers. induction qs as [|q qs IH]; [done|].
  destruct (isCorrect toLowerCase q) eqn:Hq.
  - rewrite filter_cons_True by done. simpl. rewrite Forall_cons.
    split; [intros [= ?]; split; [done|by apply IH]|intros [_ ?]; f_equal; by apply IH].
  - rewrite filter_cons_False by (by rewrite Hq). rewrite Forall_cons. simpl.
    split; [|intros [Hq' _]; simpl in Hq'; congruence].
    pose proof (length_filter (fun q => isCorrect toLowerCase q = true) qs). lia.
Qed.

Lemma correctAnswers_none toLowerCase qs :
  correctAnswers toLowerCase qs = 0%nat
  <-> Forall (fun q => isCorrect toLowerCase q = false) qs.
Proof.
  unfold correctAnswers. induction qs as [|q qs IH]; [done|].
  destruct (isCorrect toLowerCase q) eqn:Hq.
  - rewrite filter_cons_True by done. simpl. rewrite Forall_cons.
    split; [done|]. intros [Hq' _]. simpl in Hq'. congruence.
  - rewrite filter_cons_False by (by rewrite Hq). rewrite Forall_cons, IH. tauto.
Qed.

(** X24.  For a test of up to 100 questions the percentage on the results
    page is a whole number from 0 to 100; it is 100 exactly when every
    question is judged correct and 0 exactly when none is.  It is the exact
    percentage rounded to the nearest whole number, halves up, except for 23
    of 40 and 46 of 80 correct answers: there the double-precision product
    is just below 57.5 and 57 is shown. *)
Theorem X24_percentage_of_correct_answers
    (toLowerCase : list N -> list N) (qs : list Question) :
  qs ≠ [] -> (length qs <= 100)%nat ->
  let correct := correctAnswers toLowerCase qs in
  exists p,
    percentage toLowerCase qs = Some p
    /\ 0 <= p <= 100
    /\ (p = 100 <-> Forall (fun q => isCorrect toLowerCase q = true) qs)
    /\ (p = 0 <-> Forall (fun q => isCorrect toLowerCase q = false) qs)
    /\ p = exactPercentage correct (length qs)
           - (if belowTheHalf correct (length qs) then 1 else 0).
Proof.
  intros Hne Hlen correct.
  assert (1 <= length qs)%nat as Hpos by (destruct qs; [done|simpl; lia]).
  pose proof (percentOf_table correct (length qs)
                (correctAnswers_le toLowerCase qs) (conj Hpos Hlen)) as Hchecked.
  unfold percentOfChecked in Hchecked. unfold percentage. fold correct.
  destruct (percentOf correct (length qs)) as [p|]; [|done].
  exists p. split; [done|].
  repeat (apply andb_true_iff in Hchecked as [Hchecked ?]).
  repeat match goal with
         | H : bool_decide _ = true |- _ => apply bool_decide_eq_true_1 in H
         | H : (_ <=? _) = true |- _ => apply Z.leb_le in H
         | H : (_ =? _) = true |- _ => apply Z.eqb_eq in H
         end.
  split; [lia|]. split; [|split; [|done]].
  - rewrite <- correctAnswers_all. fold correct.
    rewrite <- Z.eqb_eq, <- Nat.eqb_eq. by match goal with H : _ = (correct =? _)%nat |- _ => rewrite H end.
  - rewrite <- correctAnswers_none. fold correct.
    rewrite <- Z.eqb_eq, <- Nat.eqb_eq. by match goal with H : _ = (correct =? 0)%nat |- _ => rewrite H end.
Qed.

Lemma X24_percentage_of_correct_answers_witness :
  let qs := zip_with withUserAnswer [js "Paris"; js "True"; js "False"]
              (questions (ui (capitalsTest 0))) in
  let correct := correctAnswers asciiLower qs in
  exists p,
    percentage asciiLower qs = Some p
    /\ 0 <= p <= 100
    /\ (p = 100 <-> Forall (fun q => isCorrect asciiLower q = true) qs)
    /\ (p = 0 <-> Forall (fun q => isCorrect asciiLower q = false) qs)
    /\ p = exactPercentage correct (length qs)
           - (if belowTheHalf correct (length qs) then 1 else 0).
Proof.
  apply (X24_percentage_of_correct_answers asciiLower
           (zip_with withUserAnswer [js "Paris"; js "True"; js "False"]
              (questions (ui (capitalsTest 0))))).
  - by vm_compute.
  - vm_compute. lia.
Defined.

Lemma zip_with_correct_answer (qs : list Question) :
  zip_with withUserAnswer (correct_answer <$> qs) qs
  = (fun q => withUserAnswer (correct_answer q) q) <$> qs.
Proof. induction qs as [|q qs IH]; [done|]. cbn. by f_equal. Qed.

(** X25.  Answering every question of a test of up to 100 questions with
    its correct answer ends on the results page with 100 percent. *)
Theorem X25_all_correct_answers_give_100_percent
    (toLowerCase : list N -> list N) (w : World) :
  onFirstQuestion w -> (length (questions (ui w)) <= 100)%nat ->
  exists w',
    run (Answer <$> (correct_answer <$> questions (ui w))) w = Some w'
    /\ render (ui w') = Some ResultsPage
    /\ correctAnswers toLowerCase (questions (ui w')) = length (questions (ui w))
    /\ percentage toLowerCase (questions (ui w')) = Some 100.
Proof.
  intros (Hload & Hstarted & Hres & Hidx & Hne) Hlen.
  destruct (run_answers (correct_answer <$> questions (ui w)) [] (questions (ui w)) w)
    as (w' & Hrun & Hqs & Hload' & Hstarted' & _ & _ & Hflags); try done.
  { by rewrite length_fmap. }
  rewrite length_fmap, Nat.ltb_irrefl in Hflags. destruct Hflags as [Hres' _].
  rewrite length_fmap, drop_all, app_nil_r in Hqs. simpl in Hqs.
  assert (questions (ui w')
          = (fun q => withUserAnswer (correct_answer q) q) <$> questions (ui w)) as Hall.
  { rewrite Hqs. apply zip_with_correct_answer. }
  assert (correctAnswers toLowerCase (questions (ui w')) = length (questions (ui w')))
    as Hcorrect.
  { apply correctAnswers_all. rewrite Hall. apply Forall_fmap, Forall_forall.
    intros q _. apply isCorrect_correct_answer. }
  assert (length (questions (ui w')) = length (questions (ui w))) as Hsame
    by (by rewrite Hall, length_fmap).
  exists w'. split; [done|]. split; [|split; [congruence|]].
  - unfold render. by rewrite Hload', Hstarted', Hres'.
  - assert (1 <= length (questions (ui w)))%nat as Hpos
      by (destruct (questions (ui w)); [done|simpl; lia]).
    pose proof (percentOf_table (length (questions (ui w'))) (length (questions (ui w')))
                  ltac:(lia) ltac:(lia)) as Hchecked.
    unfold percentOfChecked in Hchecked. unfold percentage. rewrite Hcorrect.
    destruct (percentOf _ _) as [p|]; [|done].
    repeat (apply andb_true_iff in Hchecked as [Hchecked ?]).
    match goal with
    | H : bool_decide ((p =? 100) = _) = true |- _ =>
        apply bool_decide_eq_true_1 in H; rewrite Nat.eqb_refl in H;
        apply Z.eqb_eq in H; by subst p
    end.
Qed.

Lemma X25_all_correct_answers_give_100_percent_witness :
  exists w',
    run (Answer <$> (correct_answer <$> questions (ui (capitalsTest 0))))
      (capitalsTest 0) = Some w'
    /\ render (ui w') = Some ResultsPage
    /\ correctAnswers asciiLower (questions (ui w'))
       = length (questions (ui (capitalsTest 0)))
    /\ percentage asciiLower (questions (ui w')) = Some 100.
Proof.
  apply (X25_all_correct_answers_give_100_percent asciiLower (capitalsTest 0)).
  - by vm_compute.
  - vm_compute. lia.
Defined.

End TestModeProperties.
